(** * Smarty browser extension: session store, dispatcher and page inspection

    A shallow embedding of
    - [src/services/storageService.ts] (class [ChromeStorageService]),
    - [src/background/background.ts]   (the dispatcher [handleMessage]),
    - the content script (extraction functions and [SmartyContentScript]),
    together with the properties of the specification that concern them.

    Conventions of the embedding.
    - A JavaScript string is a [string]: a sequence of code units, here in
      the range 0..255 (the Latin-1 part of UTF-16), on which the
      character classes, [toLowerCase] and [trim] below are the ECMAScript
      ones.
    - [Date.now()] and [Math.random()] are inputs of each operation
      (record [Env]); a [Date] is its millisecond timestamp.
    - [chrome.storage.local] is a record with one field per key the
      service uses; asynchronous calls run to completion one at a time. *)

From Stdlib Require Import String Ascii List ZArith NArith Lia Bool Arith.
Import ListNotations.
Local Open Scope string_scope.
Local Open Scope list_scope.

(* ================================================================== *)
(** * JavaScript strings and numbers *)
(* ================================================================== *)

Module JS.

(** [!s] on a string: only the empty string is falsy. *)
Definition truthy (s : string) : bool :=
  match s with EmptyString => false | String _ _ => true end.

Definition code (c : ascii) : N := N_of_ascii c.

(** ECMAScript [WhiteSpace] and [LineTerminator] code points below 256:
    TAB, LF, VT, FF, CR, SP and NBSP.  This is the class [\s] and the set
    that [trim] strips. *)
Definition isWhiteSpace (c : ascii) : bool :=
  let n := code c in
  ((9 <=? n) && (n <=? 13) || (n =? 32) || (n =? 160))%N.

Definition isDigit (c : ascii) : bool :=
  let n := code c in ((48 <=? n) && (n <=? 57))%N.

Definition isLower (c : ascii) : bool :=
  let n := code c in ((97 <=? n) && (n <=? 122))%N.

Definition isUpper (c : ascii) : bool :=
  let n := code c in ((65 <=? n) && (n <=? 90))%N.

(** [String.prototype.toLowerCase] on one code unit: A-Z, and the
    Latin-1 capitals U+00C0..U+00DE except the multiplication sign. *)
Definition toLowerCase_char (c : ascii) : ascii :=
  let n := code c in
  if ((65 <=? n) && (n <=? 90) ||
      (192 <=? n) && (n <=? 222) && negb (n =? 215))%N
  then ascii_of_N (n + 32) else c.

Fixpoint toLowerCase (s : string) : string :=
  match s with
  | EmptyString => EmptyString
  | String c s' => String (toLowerCase_char c) (toLowerCase s')
  end.

Fixpoint trimStart (s : string) : string :=
  match s with
  | String c s' => if isWhiteSpace c then trimStart s' else s
  | EmptyString => EmptyString
  end.

(** [trimEnd]: a suffix of white space is dropped. *)
Fixpoint trimEnd (s : string) : string :=
  match s with
  | EmptyString => EmptyString
  | String c s' =>
      match trimEnd s' with
      | EmptyString => if isWhiteSpace c then EmptyString else String c EmptyString
      | r => String c r
      end
  end.

Definition trim (s : string) : string := trimEnd (trimStart s).

Fixpoint startsWith (s p : string) : bool :=
  match p, s with
  | EmptyString, _ => true
  | String a p', String b s' => Ascii.eqb a b && startsWith s' p'
  | String _ _, EmptyString => false
  end.

(** [s.includes(sub)] *)
Fixpoint includes (s sub : string) : bool :=
  startsWith s sub ||
  match s with
  | EmptyString => false
  | String _ s' => includes s' sub
  end.

(** [s.slice(0, n)] for a non-negative [n]. *)
Fixpoint slice0 (n : nat) (s : string) : string :=
  match n, s with
  | S n', String c s' => String c (slice0 n' s')
  | _, _ => EmptyString
  end.

(** [s.substr(n)]: the string without its first [n] code units. *)
Fixpoint substr (n : nat) (s : string) : string :=
  match n, s with
  | S n', String _ s' => substr n' s'
  | _, _ => s
  end.

(** [s.split(sep)] for a one-character separator: the pieces between
    the separators; there is always at least one piece. *)
Fixpoint split (sep : ascii) (s : string) : list string :=
  match s with
  | EmptyString => [EmptyString]
  | String c s' =>
      if Ascii.eqb c sep then EmptyString :: split sep s'
      else match split sep s' with
           | p :: ps => String c p :: ps
           | [] => [String c EmptyString]
           end
  end.

(** Digits of [Number.prototype.toString(radix)], radix up to 36. *)
Definition digitChar (d : N) : ascii :=
  if (d <? 10)%N then ascii_of_N (48 + d) else ascii_of_N (87 + d).

Fixpoint digitsOf (fuel : nat) (radix n : N) (acc : string) : string :=
  match fuel with
  | O => acc
  | S f =>
      let acc' := String (digitChar (n mod radix)) acc in
      if (n <? radix)%N then acc' else digitsOf f radix (n / radix) acc'
  end.

(** [n.toString(radix)] for an integer [n]. *)
Definition toStringRadix (radix : N) (n : Z) : string :=
  let m := Z.abs_N n in
  let ds := digitsOf (S (N.to_nat (N.log2 m))) radix m EmptyString in
  if (n <? 0)%Z then String "-" ds else ds.

(** A JavaScript number as far as the code looks at it: not-a-number,
    an infinity, or the decimal [mant * 10^exp10] (standing for the
    nearest double). *)
Inductive number : Type :=
| NaN
| Infinity (negative : bool)
| Dec (negative : bool) (mant : N) (exp10 : Z).

Definition isNaN (x : number) : bool :=
  match x with NaN => true | _ => false end.

Definition zero : number := Dec false 0 0.

(** Longest prefix of decimal digits, accumulated into [acc]; returns
    the value, the number of digits read and the rest. *)
Fixpoint readDigits (s : string) (acc : N) (cnt : nat) : N * nat * string :=
  match s with
  | String c s' =>
      if isDigit c then readDigits s' (acc * 10 + (code c - 48))%N (S cnt)
      else (acc, cnt, s)
  | EmptyString => (acc, cnt, s)
  end.

(** The optional [ExponentPart] of a [StrDecimalLiteral]: [e] or [E],
    an optional sign and at least one digit; absent otherwise. *)
Definition readExponent (s : string) : Z :=
  match s with
  | String c s' =>
      if (Ascii.eqb c "e" || Ascii.eqb c "E")%bool then
        let '(neg, s'') :=
          match s' with
          | String "-" r => (true, r)
          | String "+" r => (false, r)
          | _ => (false, s')
          end in
        let '(v, cnt, _) := readDigits s'' 0%N O in
        match cnt with
        | O => 0%Z
        | S _ => if neg then (- Z.of_N v)%Z else Z.of_N v
        end
      else 0%Z
  | EmptyString => 0%Z
  end.

(** [parseFloat(s)]: leading white space is skipped, then the longest
    prefix that is a [StrDecimalLiteral] is converted; [NaN] when there
    is none. *)
Definition parseFloat (s : string) : number :=
  let s0 := trimStart s in
  let '(neg, s1) :=
    match s0 with
    | String "-" r => (true, r)
    | String "+" r => (false, r)
    | _ => (false, s0)
    end in
  if startsWith s1 "Infinity" then Infinity neg
  else
    let '(ip, icnt, s2) := readDigits s1 0%N O in
    match s2 with
    | String "." s3 =>
        let '(fp, fcnt, s4) := readDigits s3 ip O in
        match icnt, fcnt with
        | O, O => NaN
        | _, _ => Dec neg fp (readExponent s4 - Z.of_nat fcnt)
        end
    | _ =>
        match icnt with
        | O => NaN
        | S _ => Dec neg ip (readExponent s2)
        end
    end.

End JS.

(* ================================================================== *)
(** * Regular expressions: the backtracking matcher of the patterns used *)
(* ================================================================== *)

Module Regex.

(** The fragment of the pattern language the sources use: a character
    class, a greedy quantifier on a class ([+], [?], [{n}], [{n,}]), a
    greedy optional group, sequencing and the end anchor.  Capture
    groups do not change what [match] with the [g] flag or [test]
    return and are not represented. *)
Inductive re : Type :=
| Eps
| Chr (p : ascii -> bool)
| Many (p : ascii -> bool) (min : nat) (max : option nat)
| Opt (r : re)
| Seq (r1 r2 : re)
| Eol.

Fixpoint seqs (rs : list re) : re :=
  match rs with
  | [] => Eps
  | [r] => r
  | r :: rs' => Seq r (seqs rs')
  end.

Definition only (a : ascii) : ascii -> bool := Ascii.eqb a.
Definition plus (p : ascii -> bool) : re := Many p 1 None.
Definition opt1 (p : ascii -> bool) : re := Many p 0 (Some 1).
Definition exactly (n : nat) (p : ascii -> bool) : re := Many p n (Some n).
Definition atLeast (n : nat) (p : ascii -> bool) : re := Many p n None.

(** Greedy repetition of a class: as many characters as allowed are
    taken first, and one is given back each time the continuation
    fails. *)
Fixpoint many (p : ascii -> bool) (min : nat) (max : option nat)
         (s : string) (k : string -> option string) {struct s}
  : option string :=
  let stop := match min with O => k s | S _ => None end in
  match max with
  | Some O => stop
  | _ =>
      match s with
      | String c s' =>
          if p c then
            match many p (pred min) (option_map pred max) s' k with
            | Some r => Some r
            | None => stop
            end
          else stop
      | EmptyString => stop
      end
  end.

(** [exec r s k]: match [r] at the start of [s] and hand the rest to
    the continuation [k]; the first success in backtracking order. *)
Fixpoint exec (r : re) (s : string) (k : string -> option string)
  : option string :=
  match r with
  | Eps => k s
  | Chr p =>
      match s with
      | String c s' => if p c then k s' else None
      | EmptyString => None
      end
  | Many p mn mx => many p mn mx s k
  | Opt r1 =>
      match exec r1 s k with
      | Some x => Some x
      | None => k s
      end
  | Seq r1 r2 => exec r1 s (fun s' => exec r2 s' k)
  | Eol =>
      match s with
      | EmptyString => k s
      | String _ _ => None
      end
  end.

(** Length of the match of [r] at the start of [s], if any. *)
Definition matchHere (r : re) (s : string) : option nat :=
  match exec r s Some with
  | Some rest => Some (String.length s - String.length rest)
  | None => None
  end.

(** [r.test(s)] for a pattern that starts with [^]. *)
Definition testAnchored (r : re) (s : string) : bool :=
  match matchHere r s with Some _ => true | None => false end.

(** [s.match(r)] with the [g] flag, [null] read as the empty array: all
    matches, left to right, each search resuming where the previous
    match ended (one further after an empty match).  [skip] counts the
    characters still covered by the previous match. *)
Fixpoint scan (r : re) (s : string) (skip : nat) {struct s} : list string :=
  match skip with
  | S n =>
      match s with
      | String _ s' => scan r s' n
      | EmptyString => []
      end
  | O =>
      match matchHere r s with
      | Some len =>
          substring 0 len s ::
            match s with
            | String _ s' => scan r s' (pred len)
            | EmptyString => []
            end
      | None =>
          match s with
          | String _ s' => scan r s' 0
          | EmptyString => []
          end
      end
  end.

Definition matchAll (r : re) (s : string) : list string := scan r s 0.

(** [s.replace(r, rep)] with the [g] flag and a replacement without
    [$] patterns. *)
Fixpoint replaceScan (r : re) (rep : string) (s : string) (skip : nat)
         {struct s} : string :=
  match skip with
  | S n =>
      match s with
      | String _ s' => replaceScan r rep s' n
      | EmptyString => EmptyString
      end
  | O =>
      match matchHere r s with
      | Some (S len) =>
          rep ++ match s with
                 | String _ s' => replaceScan r rep s' len
                 | EmptyString => EmptyString
                 end
      | Some O =>
          rep ++ match s with
                 | String c s' => String c (replaceScan r rep s' 0)
                 | EmptyString => EmptyString
                 end
      | None =>
          match s with
          | String c s' => String c (replaceScan r rep s' 0)
          | EmptyString => EmptyString
          end
      end
  end.

Definition replaceAll (r : re) (rep : string) (s : string) : string :=
  replaceScan r rep s 0.

End Regex.

(* ================================================================== *)
(** * The host's [crypto.subtle.digest('SHA-256', _)] and [TextEncoder] *)
(* ================================================================== *)

Module Sha256.
Local Open Scope N_scope.

Definition w32 (x : N) : N := x mod 4294967296.
Definition add32 (a b : N) : N := w32 (a + b).
Definition rotr (n x : N) : N :=
  N.lor (N.shiftr x n) (w32 (N.shiftl x (32 - n))).
Definition not32 (x : N) : N := N.lxor x 4294967295.

Definition Ch (x y z : N) : N := N.lxor (N.land x y) (N.land (not32 x) z).
Definition Maj (x y z : N) : N :=
  N.lxor (N.lxor (N.land x y) (N.land x z)) (N.land y z).
Definition bigSigma0 (x : N) : N :=
  N.lxor (N.lxor (rotr 2 x) (rotr 13 x)) (rotr 22 x).
Definition bigSigma1 (x : N) : N :=
  N.lxor (N.lxor (rotr 6 x) (rotr 11 x)) (rotr 25 x).
Definition smallSigma0 (x : N) : N :=
  N.lxor (N.lxor (rotr 7 x) (rotr 18 x)) (N.shiftr x 3).
Definition smallSigma1 (x : N) : N :=
  N.lxor (N.lxor (rotr 17 x) (rotr 19 x)) (N.shiftr x 10).

(** The round constants: the first 32 bits of the fractional parts of
    the cube roots of the first 64 primes. *)
Definition K : list N :=
  [1116352408; 1899447441; 3049323471; 3921009573; 961987163; 1508970993;
   2453635748; 2870763221; 3624381080; 310598401; 607225278; 1426881987;
   1925078388; 2162078206; 2614888103; 3248222580; 3835390401; 4022224774;
   264347078; 604807628; 770255983; 1249150122; 1555081692; 1996064986;
   2554220882; 2821834349; 2952996808; 3210313671; 3336571891; 3584528711;
   113926993; 338241895; 666307205; 773529912; 1294757372; 1396182291;
   1695183700; 1986661051; 2177026350; 2456956037; 2730485921; 2820302411;
   3259730800; 3345764771; 3516065817; 3600352804; 4094571909; 275423344;
   430227734; 506948616; 659060556; 883997877; 958139571; 1322822218;
   1537002063; 1747873779; 1955562222; 2024104815; 2227730452; 2361852424;
   2428436474; 2756734187; 3204031479; 3329325298].

(** The initial hash value: the same of the square roots of the first
    8 primes. *)
Definition H0 : list N :=
  [1779033703; 3144134277; 1013904242; 2773480762;
   1359893119; 2600822924; 528734635; 1541459225].

(** Padding: a [0x80] byte, zeros, and the bit length on 8 bytes, to a
    multiple of 64 bytes. *)
Definition be64 (n : N) : list N :=
  map (fun i => (N.shiftr n (8 * i)) mod 256) [7; 6; 5; 4; 3; 2; 1; 0].

Definition pad (msg : list N) : list N :=
  let len := N.of_nat (List.length msg) in
  let zeros := (64 - (len + 9) mod 64) mod 64 in
  msg ++ [128] ++ repeat 0 (N.to_nat zeros) ++ be64 (8 * len).

Fixpoint words (bs : list N) : list N :=
  match bs with
  | a :: b :: c :: d :: r =>
      (N.shiftl a 24 + N.shiftl b 16 + N.shiftl c 8 + d) :: words r
  | _ => []
  end.

(** Message schedule, newest word first while it grows. *)
Fixpoint extend (n : nat) (w : list N) : list N :=
  match n with
  | O => w
  | S n' =>
      let x := add32 (add32 (smallSigma1 (nth 1 w 0)) (nth 6 w 0))
                     (add32 (smallSigma0 (nth 14 w 0)) (nth 15 w 0)) in
      extend n' (x :: w)
  end.

Definition schedule (block : list N) : list N :=
  rev (extend 48 (rev block)).

Definition round (st : list N) (kw : N * N) : list N :=
  match st with
  | [a; b; c; d; e; f; g; h] =>
      let t1 := add32 (add32 (add32 h (bigSigma1 e))
                             (add32 (Ch e f g) (fst kw))) (snd kw) in
      let t2 := add32 (bigSigma0 a) (Maj a b c) in
      [add32 t1 t2; a; b; c; add32 d t1; e; f; g]
  | _ => st
  end.

Definition compress (h : list N) (block : list N) : list N :=
  map (fun p => add32 (fst p) (snd p))
      (combine h (fold_left round (combine K (schedule block)) h)).

Fixpoint blocks (fuel : nat) (ws : list N) (h : list N) : list N :=
  match fuel with
  | O => h
  | S f =>
      match ws with
      | [] => h
      | _ => blocks f (skipn 16 ws) (compress h (firstn 16 ws))
      end
  end.

Definition be32 (w : N) : list N :=
  map (fun i => (N.shiftr w (8 * i)) mod 256) [3; 2; 1; 0].

(** The 32 bytes of the digest. *)
Definition digest (msg : list N) : list N :=
  let ws := words (pad msg) in
  flat_map be32 (blocks (List.length ws) ws H0).

(** [new TextEncoder().encode(s)]: UTF-8 of the code units of [s]. *)
Fixpoint encode (s : string) : list N :=
  match s with
  | EmptyString => []
  | String c s' =>
      let n := JS.code c in
      if n <? 128 then n :: encode s'
      else (192 + N.shiftr n 6) :: (128 + N.land n 63) :: encode s'
  end.

(** [b.toString(16).padStart(2, '0')] *)
Definition hexByte (b : N) : string :=
  String (JS.digitChar (b / 16)) (String (JS.digitChar (b mod 16)) EmptyString).

End Sha256.

(* ================================================================== *)
(** * Record types ([src/types/index.ts]) *)
(* ================================================================== *)

(** A value of a [Record<string, any>] as the dispatcher builds them. *)
Inductive JsonValue : Type :=
| JString (s : string)
| JNumber (n : Z)
| JUndefined.

Inductive Plan : Type := free | pro | enterprise.

Module User.
Record t : Type := mk {
  id : string;
  email : string;
  name : string;
  avatar : option string;
  plan : Plan;
  createdAt : Z;
  updatedAt : Z
}.
(** [user.updatedAt = d] *)
Definition set_updatedAt (d : Z) (u : t) : t :=
  mk (id u) (email u) (name u) (avatar u) (plan u) (createdAt u) d.
End User.

(** The credential objects [signUp] stores under [userCredentials]. *)
Module Credential.
Record t : Type := mk {
  userId : string;
  email : string;
  passwordHash : string;
  createdAt : Z
}.
End Credential.

Inductive Sentiment : Type := positive | neutral | negative.

Module ContentSummary.
Record t : Type := mk {
  id : string;
  url : string;
  title : string;
  summary : string;
  keyPoints : list string;
  sentiment : option Sentiment;
  readingTime : option JS.number;
  createdAt : Z
}.
(** [{...summary, id, createdAt}] *)
Definition with_id_createdAt (i : string) (d : Z) (s : t) : t :=
  mk i (url s) (title s) (summary s) (keyPoints s) (sentiment s)
     (readingTime s) d.
End ContentSummary.

Module Lead.
Record t : Type := mk {
  id : string;
  name : option string;
  email : option string;
  phone : option string;
  company : option string;
  position : option string;
  source : string;
  verified : bool;
  extractedAt : Z
}.
(** [{...lead, id, extractedAt}] *)
Definition with_id_extractedAt (i : string) (d : Z) (l : t) : t :=
  mk i (name l) (email l) (phone l) (company l) (position l)
     (source l) (verified l) d.
End Lead.

Module PricePoint.
Record t : Type := mk { price : JS.number; timestamp : Z }.
End PricePoint.

Module PriceMonitoringItem.
Record t : Type := mk {
  id : string;
  url : string;
  productName : string;
  currentPrice : JS.number;
  targetPrice : option JS.number;
  currency : string;
  selector : string;
  lastChecked : Z;
  priceHistory : list PricePoint.t;
  alertsEnabled : bool
}.
(** [{...item, id}] *)
Definition with_id (i : string) (m : t) : t :=
  mk i (url m) (productName m) (currentPrice m) (targetPrice m)
     (currency m) (selector m) (lastChecked m) (priceHistory m)
     (alertsEnabled m).
End PriceMonitoringItem.

Module UserActivity.
Record t : Type := mk {
  id : string;
  userId : string;
  action : string;
  details : list (string * JsonValue);
  timestamp : Z
}.
End UserActivity.

Module UsageStats.
Record t : Type := mk {
  summariesUsed : nat;
  leadExtractionsUsed : nat;
  priceMonitorsActive : nat;
  automationsUsed : nat;
  formTemplatesUsed : nat;
  dataExportsUsed : nat;
  resetDate : Z
}.
End UsageStats.

(* ================================================================== *)
(** * The storage service ([src/services/storageService.ts]) *)
(* ================================================================== *)

Module Store.

(** [chrome.storage.local], one field per key.  A collection key that
    is absent reads as the empty array ([result[key] || []]), so the
    collections are lists; the three session keys can be removed. *)
Record Storage : Type := mkStorage {
  users : list User.t;
  userCredentials : list Credential.t;
  contentSummaries : list ContentSummary.t;
  leads : list Lead.t;
  priceMonitors : list PriceMonitoringItem.t;
  userActivities : list UserActivity.t;
  currentUser : option User.t;
  authToken : option string;
  tokenExpiry : option Z
}.

Definition emptyStorage : Storage :=
  mkStorage [] [] [] [] [] [] None None None.

Definition set_users (v : list User.t) (s : Storage) : Storage :=
  mkStorage v (userCredentials s) (contentSummaries s) (leads s)
    (priceMonitors s) (userActivities s) (currentUser s) (authToken s)
    (tokenExpiry s).
Definition set_userCredentials (v : list Credential.t) (s : Storage) : Storage :=
  mkStorage (users s) v (contentSummaries s) (leads s)
    (priceMonitors s) (userActivities s) (currentUser s) (authToken s)
    (tokenExpiry s).
Definition set_contentSummaries (v : list ContentSummary.t) (s : Storage) : Storage :=
  mkStorage (users s) (userCredentials s) v (leads s)
    (priceMonitors s) (userActivities s) (currentUser s) (authToken s)
    (tokenExpiry s).
Definition set_leads (v : list Lead.t) (s : Storage) : Storage :=
  mkStorage (users s) (userCredentials s) (contentSummaries s) v
    (priceMonitors s) (userActivities s) (currentUser s) (authToken s)
    (tokenExpiry s).
Definition set_priceMonitors (v : list PriceMonitoringItem.t) (s : Storage) : Storage :=
  mkStorage (users s) (userCredentials s) (contentSummaries s) (leads s)
    v (userActivities s) (currentUser s) (authToken s) (tokenExpiry s).
Definition set_userActivities (v : list UserActivity.t) (s : Storage) : Storage :=
  mkStorage (users s) (userCredentials s) (contentSummaries s) (leads s)
    (priceMonitors s) v (currentUser s) (authToken s) (tokenExpiry s).

(** [chrome.storage.local.set({currentUser, authToken, tokenExpiry})] *)
Definition set_session (u : User.t) (tok : string) (exp : Z) (s : Storage)
  : Storage :=
  mkStorage (users s) (userCredentials s) (contentSummaries s) (leads s)
    (priceMonitors s) (userActivities s) (Some u) (Some tok) (Some exp).

(** [chrome.storage.local.remove(['currentUser','authToken','tokenExpiry'])] *)
Definition remove_session (s : Storage) : Storage :=
  mkStorage (users s) (userCredentials s) (contentSummaries s) (leads s)
    (priceMonitors s) (userActivities s) None None None.

(** The service object: the memoised [this.currentUser], the
    [isInitialized] flag, and the storage area it works on. *)
Record Service : Type := mkService {
  this_currentUser : option User.t;
  isInitialized : bool;
  storage : Storage
}.

(** What an operation reads from its surroundings: the clock and the
    successive renderings [Math.random().toString(36)]. *)
Record Env : Type := mkEnv {
  now : Z;
  random36 : nat -> string
}.

(** The surroundings once [k] random numbers have been drawn. *)
Definition later (k : nat) (env : Env) : Env :=
  mkEnv (now env) (fun i => random36 env (k + i)).

(** ** Computations: state of the service, and [throw] *)

Inductive Completion (A : Type) : Type :=
| Normal (a : A)
| Throw (message : string).
Arguments Normal {A} a.
Arguments Throw {A} message.

Definition M (A : Type) : Type := Service -> Completion A * Service.

Definition ret {A} (a : A) : M A := fun sv => (Normal a, sv).

Definition bind {A B} (c : M A) (f : A -> M B) : M B :=
  fun sv =>
    match c sv with
    | (Normal a, sv') => f a sv'
    | (Throw msg, sv') => (Throw msg, sv')
    end.

Definition throw {A} (msg : string) : M A := fun sv => (Throw msg, sv).

(** [try { c } catch (error) { h error.message }] *)
Definition tryCatch {A} (c : M A) (h : string -> M A) : M A :=
  fun sv =>
    match c sv with
    | (Normal a, sv') => (Normal a, sv')
    | (Throw msg, sv') => h msg sv'
    end.

Declare Scope store_scope.
Delimit Scope store_scope with store.
Notation "x <- c ;; k" := (bind c (fun x => k))
  (at level 61, c at next level, right associativity) : store_scope.
Notation "c ;;; k" := (bind c (fun _ => k))
  (at level 61, right associativity) : store_scope.
Local Open Scope store_scope.

Definition get_this_currentUser : M (option User.t) :=
  fun sv => (Normal (this_currentUser sv), sv).

Definition set_this_currentUser (u : option User.t) : M unit :=
  fun sv => (Normal tt, mkService u (isInitialized sv) (storage sv)).

(** [chrome.storage.local.get(...)] *)
Definition storage_get : M Storage :=
  fun sv => (Normal (storage sv), sv).

Definition storage_update (f : Storage -> Storage) : M unit :=
  fun sv =>
    (Normal tt, mkService (this_currentUser sv) (isInitialized sv)
                  (f (storage sv))).

(** [getStorageData<T>(key)] and [setStorageData<T>(key, data)], the
    key given by its projection and its update. *)
Definition getStorageData {T} (key : Storage -> list T) : M (list T) :=
  fun sv => (Normal (key (storage sv)), sv).

Definition setStorageData {T} (key : list T -> Storage -> Storage)
           (data : list T) : M unit :=
  storage_update (key data).

(** ** Helpers of the class *)

(** [generateId()], with the [k]-th random draw of the operation:
    [Date.now().toString(36) + Math.random().toString(36).substr(2)]. *)
Definition generateId (env : Env) (k : nat) : string :=
  JS.toStringRadix 36 (now env) ++ JS.substr 2 (random36 env k).

(** [hashPassword]: the hexadecimal SHA-256 digest of the password
    followed by the fixed salt. *)
Definition hashPassword (password : string) : string :=
  String.concat EmptyString
    (map Sha256.hexByte
         (Sha256.digest (Sha256.encode (password ++ "smarty_salt")))).

(** [/^[^\s@]+@[^\s@]+\.[^\s@]+$/] *)
Definition notSpaceAt (c : ascii) : bool :=
  negb (JS.isWhiteSpace c || Ascii.eqb c "@").

Definition emailRegex : Regex.re :=
  Regex.seqs [Regex.plus notSpaceAt; Regex.Chr (Regex.only "@");
              Regex.plus notSpaceAt; Regex.Chr (Regex.only ".");
              Regex.plus notSpaceAt; Regex.Eol].

Definition isValidEmail (email : string) : bool :=
  Regex.testAnchored emailRegex email.

Definition isValidPassword (password : string) : bool :=
  (6 <=? String.length password)%nat.

(** The object the authentication methods return. *)
Record AuthResult : Type := mkAuth {
  user : option User.t;
  error : option string;
  token : option string
}.

Definition failure (msg : string) : AuthResult :=
  mkAuth None (Some msg) None.

(** [u.email.toLowerCase() === email.toLowerCase()] *)
Definition sameEmail (email : string) (u : User.t) : bool :=
  String.eqb (JS.toLowerCase (User.email u)) (JS.toLowerCase email).

(** [`token_${id}_${Date.now()}_${Math.random().toString(36)}`] *)
Definition mintToken (env : Env) (id : string) (k : nat) : string :=
  "token_" ++ id ++ "_" ++ JS.toStringRadix 10 (now env) ++ "_"
  ++ random36 env k.

Definition sevenDays : Z := 7 * 24 * 60 * 60 * 1000.

(** [arr.findIndex(p)], [None] for [-1]. *)
Fixpoint findIndex {T} (p : T -> bool) (l : list T) : option nat :=
  match l with
  | [] => None
  | x :: l' =>
      if p x then Some O
      else match findIndex p l' with
           | Some i => Some (S i)
           | None => None
           end
  end.

(** [arr[i] = x] for an index inside the array. *)
Fixpoint assign {T} (i : nat) (x : T) (l : list T) : list T :=
  match l, i with
  | [], _ => []
  | _ :: l', O => x :: l'
  | y :: l', S i' => y :: assign i' x l'
  end.

(** The first element that satisfies [p], changed by [f]: what an
    assignment to a field of the object [arr.find(p)] returned does to
    [arr]. *)
Fixpoint updateFirst {T} (p : T -> bool) (f : T -> T) (l : list T) : list T :=
  match l with
  | [] => []
  | x :: l' => if p x then f x :: l' else x :: updateFirst p f l'
  end.

(** ** Sign-up, sign-in, sign-out *)

(** In this module every call of [chrome.storage.local] goes through,
    so that the [catch] of these functions is not reached; module
    [Faults] has them for a browser that rejects calls. *)
Definition signUp (env : Env) (email password name : string) : M AuthResult :=
  tryCatch
    (if negb (JS.truthy email) || negb (JS.truthy password)
        || negb (JS.truthy name) then
       ret (failure "All fields are required")
     else if negb (isValidEmail email) then
       ret (failure "Please enter a valid email address")
     else if negb (isValidPassword password) then
       ret (failure "Password must be at least 6 characters long")
     else if (String.length (JS.trim name) <? 2)%nat then
       ret (failure "Name must be at least 2 characters long")
     else
       users <- getStorageData users ;;
       match find (sameEmail email) users with
       | Some _ => ret (failure "An account with this email already exists")
       | None =>
           let hashedPassword := hashPassword password in
           let newUser :=
             User.mk (generateId env 0) (JS.toLowerCase email) (JS.trim name)
                     None free (now env) (now env) in
           let userCredentials' :=
             Credential.mk (User.id newUser) (JS.toLowerCase email)
                           hashedPassword (now env) in
           setStorageData set_users (users ++ [newUser]) ;;;
           credentials <- getStorageData userCredentials ;;
           setStorageData set_userCredentials
                          (credentials ++ [userCredentials']) ;;;
           let token := mintToken env (User.id newUser) 1 in
           set_this_currentUser (Some newUser) ;;;
           storage_update (set_session newUser token (now env + sevenDays)) ;;;
           ret (mkAuth (Some newUser) None (Some token))
       end)
    (fun message => ret (failure message)).

Definition signIn (env : Env) (email password : string) : M AuthResult :=
  tryCatch
    (if negb (JS.truthy email) || negb (JS.truthy password) then
       ret (failure "Email and password are required")
     else if negb (isValidEmail email) then
       ret (failure "Please enter a valid email address")
     else
       users <- getStorageData users ;;
       match find (sameEmail email) users with
       | None => ret (failure "Invalid email or password")
       | Some found =>
           credentials <- getStorageData userCredentials ;;
           match find (fun cred =>
                         String.eqb (Credential.userId cred) (User.id found))
                      credentials with
           | None => ret (failure "Account not found. Please sign up first.")
           | Some userCredential =>
               let hashedPassword := hashPassword password in
               if negb (String.eqb hashedPassword
                                   (Credential.passwordHash userCredential))
               then ret (failure "Invalid email or password")
               else
                 let token := mintToken env (User.id found) 0 in
                 (* [user] is the element of [users] that [find] returned:
                    assigning [user.updatedAt] changes the array in place *)
                 let user := User.set_updatedAt (now env) found in
                 let users :=
                   updateFirst (sameEmail email)
                               (User.set_updatedAt (now env)) users in
                 match findIndex (fun u => String.eqb (User.id u) (User.id user))
                                 users with
                 | Some userIndex =>
                     setStorageData set_users (assign userIndex user users)
                 | None => ret tt
                 end ;;;
                 set_this_currentUser (Some user) ;;;
                 storage_update (set_session user token (now env + sevenDays)) ;;;
                 ret (mkAuth (Some user) None (Some token))
           end
       end)
    (fun message => ret (failure message)).

Definition signOut : M (option string) :=
  tryCatch
    (set_this_currentUser None ;;;
     storage_update remove_session ;;;
     ret None)
    (fun message => ret (Some message)).

(** The constructor's [initialize()]. *)
Definition initialize : M unit :=
  tryCatch
    (result <- storage_get ;;
     match currentUser result with
     | Some u => set_this_currentUser (Some u)
     | None => ret tt
     end ;;;
     fun sv => (Normal tt, mkService (this_currentUser sv) true (storage sv)))
    (fun _ => ret tt).

(** Truthiness of a stored number: zero is falsy. *)
Definition truthyNumber (z : Z) : bool := negb (z =? 0)%Z.

(** [getCurrentUser()] *)
Definition getCurrentUser (env : Env) : M (option User.t) :=
  tryCatch
    (cur <- get_this_currentUser ;;
     match cur with
     | Some _ => get_this_currentUser
     | None =>
         result <- storage_get ;;
         match currentUser result, authToken result, tokenExpiry result with
         | Some u, Some tok, Some expiry =>
             if JS.truthy tok && truthyNumber expiry then
               if (now env >? expiry)%Z then
                 signOut ;;; ret None
               else
                 set_this_currentUser (Some u) ;;; get_this_currentUser
             else get_this_currentUser
         | _, _, _ => get_this_currentUser
         end
     end)
    (fun _ => ret None).

(** ** Derived collections *)

Definition notAuthenticated : string := "User not authenticated".

(** [arr.slice(0, limit)] for an integer [limit]: a negative limit
    counts from the end. *)
Definition slice {T} (limit : Z) (l : list T) : list T :=
  if (limit <? 0)%Z
  then firstn (List.length l - Z.to_nat (- limit)) l
  else firstn (Z.to_nat limit) l.

Definition saveContentSummary (env : Env) (summary : ContentSummary.t)
  : M unit :=
  cur <- get_this_currentUser ;;
  match cur with
  | None => throw notAuthenticated
  | Some _ =>
      summaries <- getStorageData contentSummaries ;;
      let newSummary :=
        ContentSummary.with_id_createdAt (generateId env 0) (now env) summary in
      setStorageData set_contentSummaries (newSummary :: summaries)
  end.

Definition getUserSummaryHistory (limit : Z) : M (list ContentSummary.t) :=
  cur <- get_this_currentUser ;;
  match cur with
  | None => ret []
  | Some _ =>
      summaries <- getStorageData contentSummaries ;;
      ret (slice limit summaries)
  end.

(** [leads.map(lead => ({...lead, id: this.generateId(), extractedAt}))],
    one random draw per lead, starting at draw [k]. *)
Fixpoint stampLeads (env : Env) (k : nat) (l : list Lead.t) : list Lead.t :=
  match l with
  | [] => []
  | lead :: l' =>
      Lead.with_id_extractedAt (generateId env k) (now env) lead
        :: stampLeads env (S k) l'
  end.

Definition saveLeads (env : Env) (leads' : list Lead.t) : M unit :=
  cur <- get_this_currentUser ;;
  match cur with
  | None => throw notAuthenticated
  | Some _ =>
      existingLeads <- getStorageData leads ;;
      let newLeads := stampLeads env 0 leads' in
      setStorageData set_leads (newLeads ++ existingLeads)
  end.

Definition getLeads (limit : Z) : M (list Lead.t) :=
  cur <- get_this_currentUser ;;
  match cur with
  | None => ret []
  | Some _ =>
      leads <- getStorageData leads ;;
      ret (slice limit leads)
  end.

Definition savePriceMonitor (env : Env) (item : PriceMonitoringItem.t)
  : M unit :=
  cur <- get_this_currentUser ;;
  match cur with
  | None => throw notAuthenticated
  | Some _ =>
      monitors <- getStorageData priceMonitors ;;
      let newMonitor := PriceMonitoringItem.with_id (generateId env 0) item in
      setStorageData set_priceMonitors (newMonitor :: monitors)
  end.

Definition getPriceMonitors : M (list PriceMonitoringItem.t) :=
  cur <- get_this_currentUser ;;
  match cur with
  | None => ret []
  | Some _ => getStorageData priceMonitors
  end.

(** [activities.unshift(activity); if (activities.length > 100)
    activities.splice(100)] *)
Definition pushActivity (activity : UserActivity.t)
           (activities : list UserActivity.t) : list UserActivity.t :=
  let activities := activity :: activities in
  if (100 <? List.length activities)%nat then firstn 100 activities
  else activities.

Definition logUserActivity (env : Env) (action : string)
           (details : list (string * JsonValue)) : M unit :=
  cur <- get_this_currentUser ;;
  match cur with
  | None => ret tt
  | Some u =>
      activities <- getStorageData userActivities ;;
      let activity :=
        UserActivity.mk (generateId env 0) (User.id u) action details
                        (now env) in
      setStorageData set_userActivities (pushActivity activity activities)
  end.

Definition getUserHistory : M (list UserActivity.t) :=
  cur <- get_this_currentUser ;;
  match cur with
  | None => ret []
  | Some _ =>
      activities <- getStorageData userActivities ;;
      ret (slice 20 activities)
  end.

Definition countIf {T} (p : T -> bool) (l : list T) : nat :=
  List.length (filter p l).

(** [getUserUsage(userId)] *)
Definition getUserUsage (env : Env) (userId : string)
  : M (option UsageStats.t) :=
  tryCatch
    (summaries <- getStorageData contentSummaries ;;
     leads <- getStorageData leads ;;
     priceMonitors <- getStorageData priceMonitors ;;
     activities <- getStorageData userActivities ;;
     let used a :=
       countIf (fun x => String.eqb (UserActivity.action x) a) activities in
     ret (Some (UsageStats.mk
                  (List.length summaries)
                  (List.length leads)
                  (countIf PriceMonitoringItem.alertsEnabled priceMonitors)
                  (used "automation_executed")
                  (used "form_filled")
                  (used "data_exported")
                  (now env))))
    (fun _ => ret None).

End Store.

(* ================================================================== *)
(** * The dispatcher ([src/background/background.ts]) *)
(* ================================================================== *)

Module Background.
Import Store.
Local Open Scope store_scope.

(** A message [{action, data}]: one constructor per action string of
    the [switch], carrying the fields of [data] that the case reads;
    [Other] is any action string without a case. *)
Inductive Message : Type :=
| ping
| get_user
| sign_in (email password : string)
| sign_up (email password name : string)
| sign_out
| save_summary (data : ContentSummary.t)
| get_summaries (limit : option Z)
| save_leads (leads : list Lead.t) (source : JsonValue)
| get_leads (limit : option Z)
| save_price_monitor (data : PriceMonitoringItem.t)
| get_price_monitors
| get_user_stats
| log_activity (action : string) (details : list (string * JsonValue))
| get_user_history
| clear_all_data
| Other (action : string).

Inductive Data : Type :=
| DString (s : string)
| DUser (u : option User.t)
| DSummaries (l : list ContentSummary.t)
| DLeads (l : list Lead.t)
| DMonitors (l : list PriceMonitoringItem.t)
| DStats (s : option UsageStats.t)
| DHistory (l : list UserActivity.t).

(** [MessageResponse] *)
Record MessageResponse : Type := mkResponse {
  success : bool;
  data : option Data;
  error : option string
}.

Definition ok : MessageResponse := mkResponse true None None.
Definition okData (d : Data) : MessageResponse := mkResponse true (Some d) None.
Definition failed (msg : string) : MessageResponse :=
  mkResponse false None (Some msg).

(** [!result.error] and [result.error || undefined] *)
Definition noError (e : option string) : bool :=
  match e with
  | Some msg => negb (JS.truthy msg)
  | None => true
  end.

Definition orUndefined (e : option string) : option string :=
  match e with
  | Some msg => if JS.truthy msg then Some msg else None
  | None => None
  end.

(** [data?.limit || dflt] *)
Definition limitOr (dflt : Z) (limit : option Z) : Z :=
  match limit with
  | Some l => if (l =? 0)%Z then dflt else l
  | None => dflt
  end.

Definition handleMessage (env : Env) (message : Message) : M MessageResponse :=
  tryCatch
    (match message with
     | ping => ret (okData (DString "pong"))
     | get_user =>
         user <- getCurrentUser env ;;
         ret (okData (DUser user))
     | sign_in email password =>
         signInResult <- signIn env email password ;;
         ret (mkResponse (noError (Store.error signInResult))
                         (Some (DUser (Store.user signInResult)))
                         (orUndefined (Store.error signInResult)))
     | sign_up email password name =>
         signUpResult <- signUp env email password name ;;
         ret (mkResponse (noError (Store.error signUpResult))
                         (Some (DUser (Store.user signUpResult)))
                         (orUndefined (Store.error signUpResult)))
     | sign_out =>
         signOutResult <- signOut ;;
         ret (mkResponse (noError signOutResult) None
                         (orUndefined signOutResult))
     | save_summary data =>
         saveContentSummary env data ;;;
         logUserActivity (later 1 env) "content_summarized"
           [("url", JString (ContentSummary.url data));
            ("title", JString (ContentSummary.title data))] ;;;
         ret ok
     | get_summaries limit =>
         summaries <- getUserSummaryHistory (limitOr 20 limit) ;;
         ret (okData (DSummaries summaries))
     | save_leads leads source =>
         saveLeads env leads ;;;
         logUserActivity (later (List.length leads) env) "leads_extracted"
           [("count", JNumber (Z.of_nat (List.length leads)));
            ("source", source)] ;;;
         ret ok
     | get_leads limit =>
         leads <- getLeads (limitOr 50 limit) ;;
         ret (okData (DLeads leads))
     | save_price_monitor data =>
         savePriceMonitor env data ;;;
         logUserActivity (later 1 env) "price_monitor_created"
           [("url", JString (PriceMonitoringItem.url data));
            ("productName", JString (PriceMonitoringItem.productName data))] ;;;
         ret ok
     | get_price_monitors =>
         monitors <- getPriceMonitors ;;
         ret (okData (DMonitors monitors))
     | get_user_stats =>
         currentUser <- getCurrentUser env ;;
         match currentUser with
         | None => ret (failed "User not authenticated")
         | Some u =>
             stats <- getUserUsage env (User.id u) ;;
             ret (okData (DStats stats))
         end
     | log_activity action details =>
         logUserActivity env action details ;;;
         ret ok
     | get_user_history =>
         history <- getUserHistory ;;
         ret (okData (DHistory history))
     | clear_all_data =>
         (* [chrome.storage.local.clear()]; the service's memoised user
            is not touched *)
         storage_update (fun _ => emptyStorage) ;;;
         ret (okData (DString "All data cleared successfully"))
     | Other _ => ret (failed "Unknown action")
     end)
    (fun message => ret (failed message)).

(** The state of the service once a message is handled. *)
Definition after (env : Env) (message : Message) (sv : Service) : Service :=
  snd (handleMessage env message sv).

End Background.

(* ================================================================== *)
(** * The content script: page inspection *)
(* ================================================================== *)

Module Content.

(** The page as the functions below read it.  [textContent] has the
    DOM type [string | null]; [querySelector] returns the first element
    of [querySelectorAll].  The selectors that the script writes itself
    are well-formed; one that comes from a caller need not be:
    [syntaxError] gives the message of the [SyntaxError] that the
    browser throws at a selector it cannot parse. *)
Record Element : Type := mkElement { textContent : option string }.

Record Document : Type := mkDocument {
  title : string;
  href : string;
  body : Element;
  querySelectorAll : string -> list Element;
  syntaxError : string -> option string
}.

Definition querySelector (doc : Document) (selector : string) : option Element :=
  hd_error (querySelectorAll doc selector).

(** [document.querySelector(selector)] for a selector that may come
    from a caller: the message of the exception, or the element. *)
Definition query (doc : Document) (selector : string)
  : string + option Element :=
  match syntaxError doc selector with
  | Some message => inl message
  | None => inr (querySelector doc selector)
  end.

(** [el.textContent || ''] *)
Definition textOf (el : Element) : string :=
  match textContent el with
  | Some t => t
  | None => EmptyString
  end.

(** The envelope [{success: true, data}] or [{success: false, error}]. *)
Inductive Response (A : Type) : Type :=
| Success (data : A)
| Failure (error : string).
Arguments Success {A} data.
Arguments Failure {A} error.

(** ** [extractPageContent] *)

Record PageContent : Type := mkPageContent {
  pc_title : string;
  pc_url : string;
  content : string;
  wordCount : nat;
  pc_extractedAt : Z
}.

(** The selector [[role="main"]]; character 34 is the double quote. *)
Definition roleMain : string :=
  "[role=" ++ String "034" "main" ++ String "034" "]".

Definition contentSelectors : list string :=
  ["main"; "article"; roleMain; ".content"; "#content";
   ".post-content"; ".entry-content"; ".article-content"].

(** The [for] loop: the text of the first selector that matches. *)
Fixpoint firstContent (doc : Document) (selectors : list string) : string :=
  match selectors with
  | [] => EmptyString
  | selector :: rest =>
      match querySelector doc selector with
      | Some element => textOf element
      | None => firstContent doc rest
      end
  end.

Definition whiteSpaces : Regex.re := Regex.plus JS.isWhiteSpace.
Definition newLines : Regex.re := Regex.plus (Regex.only "010").

(** The character budget of the content. *)
Definition contentLimit : nat := N.to_nat 10000.

(** [content.replace(/\s+/g, ' ').replace(/\n+/g, '\n').trim()
            .slice(0, 10000)] *)
Definition cleanUp (content : string) : string :=
  JS.slice0 contentLimit
    (JS.trim
       (Regex.replaceAll newLines (String "010" EmptyString)
          (Regex.replaceAll whiteSpaces " " content))).

Definition extractPageContent (now : Z) (doc : Document)
  : Response PageContent :=
  let content := firstContent doc contentSelectors in
  let content :=
    if negb (JS.truthy (JS.trim content)) then textOf (body doc)
    else content in
  let content := cleanUp content in
  Success (mkPageContent (title doc) (href doc) content
             (List.length (JS.split " " content)) now).

(** ** [extractLeads] *)

(** The lead objects the content script builds. *)
Record ExtractedLead : Type := mkLead {
  email : option string;
  phone : option string;
  source : string;
  extractedAt : Z;
  verified : bool
}.

Record LeadsData : Type := mkLeadsData {
  leads : list ExtractedLead;
  count : nat;
  ld_source : string
}.

Definition isAlnum (c : ascii) : bool :=
  JS.isLower c || JS.isUpper c || JS.isDigit c.
Definition oneOf (chars : string) (c : ascii) : bool :=
  existsb (Ascii.eqb c) (list_ascii_of_string chars).

(** [/[a-zA-Z0-9._%+-]+@[a-zA-Z0-9.-]+\.[a-zA-Z]{2,}/g] *)
Definition emailRegex : Regex.re :=
  Regex.seqs
    [Regex.plus (fun c => isAlnum c || oneOf "._%+-" c);
     Regex.Chr (Regex.only "@");
     Regex.plus (fun c => isAlnum c || oneOf ".-" c);
     Regex.Chr (Regex.only ".");
     Regex.atLeast 2 (fun c => JS.isLower c || JS.isUpper c)].

(** [/(?:\+?1[-. ]?)?\(?([0-9]{3})\)?[-. ]?([0-9]{3})[-. ]?([0-9]{4})/g] *)
Definition phoneRegex : Regex.re :=
  Regex.seqs
    [Regex.Opt (Regex.seqs [Regex.opt1 (Regex.only "+");
                            Regex.Chr (Regex.only "1");
                            Regex.opt1 (oneOf "-. ")]);
     Regex.opt1 (Regex.only "(");
     Regex.exactly 3 JS.isDigit;
     Regex.opt1 (Regex.only ")");
     Regex.opt1 (oneOf "-. ");
     Regex.exactly 3 JS.isDigit;
     Regex.opt1 (oneOf "-. ");
     Regex.exactly 4 JS.isDigit].

(** [[...new Set(matches)]]: the values in the order of their first
    occurrence; [seen] is the content of the set so far. *)
Fixpoint uniqueFrom (seen : list string) (l : list string) : list string :=
  match l with
  | [] => []
  | x :: l' =>
      if existsb (String.eqb x) seen then uniqueFrom seen l'
      else x :: uniqueFrom (x :: seen) l'
  end.

Definition unique (l : list string) : list string := uniqueFrom [] l.

(** [document.body.textContent?.match(regex) || []] *)
Definition matchesIn (doc : Document) (regex : Regex.re) : list string :=
  match textContent (body doc) with
  | Some text => Regex.matchAll regex text
  | None => []
  end.

Definition extractLeads (now : Z) (doc : Document) : Response LeadsData :=
  let emailMatches := matchesIn doc emailRegex in
  let phoneMatches := matchesIn doc phoneRegex in
  let uniqueEmails := unique emailMatches in
  let uniquePhones := unique phoneMatches in
  let leads :=
    map (fun email => mkLead (Some email) None (href doc) now false)
        uniqueEmails
    ++ map (fun phone => mkLead None (Some phone) (href doc) now false)
        uniquePhones in
  Success (mkLeadsData leads (List.length leads) (href doc)).

(** ** [monitorPrice] *)

Record PriceData : Type := mkPriceData {
  pd_url : string;
  productName : string;
  currentPrice : JS.number;
  currency : string;
  selector : option string;
  lastChecked : Z;
  priceHistory : list (JS.number * Z)
}.

(** [[selector, '.price', ...].filter(Boolean)]: an absent or empty
    caller's selector is dropped. *)
Definition priceSelectors (selector : option string) : list string :=
  match selector with
  | Some s => if JS.truthy s then [s] else []
  | None => []
  end
  ++ [".price"; ".price-current"; ".current-price"; "[data-price]";
      ".product-price"; ".sale-price"; ".offer-price"].

(** The probing loop: [priceElement] and [priceText] when it ends, or
    the message of the exception that [querySelector] throws at a
    selector it cannot parse. *)
Fixpoint probe (doc : Document) (selectors : list string)
  : string + (option Element * string) :=
  match selectors with
  | [] => inr (None, EmptyString)
  | sel :: rest =>
      if negb (JS.truthy sel) then probe doc rest
      else
        match query doc sel with
        | inl message => inl message
        | inr (Some priceElement) =>
            inr (Some priceElement, textOf priceElement)
        | inr None => probe doc rest
        end
  end.

(** [/[\d,.]+(\d{2})/g] *)
Definition priceRegex : Regex.re :=
  Regex.Seq (Regex.plus (fun c => JS.isDigit c || oneOf ",." c))
            (Regex.exactly 2 JS.isDigit).

Definition commas : Regex.re := Regex.Chr (Regex.only ",").

(** [priceMatch ? parseFloat(priceMatch[0].replace(/,/g, '')) : 0] *)
Definition priceOf (priceText : string) : JS.number :=
  match Regex.matchAll priceRegex priceText with
  | m :: _ => JS.parseFloat (Regex.replaceAll commas EmptyString m)
  | [] => JS.zero
  end.

Definition noPriceFound : string := "No price found on this page".

Definition isNull {T} (x : option T) : bool :=
  match x with
  | Some _ => false
  | None => true
  end.

(** The [throw] of the function, and the exception of a
    [querySelector] in the loop, are caught by its own [catch], which
    returns the failure envelope with the message.  The [find] of the
    answer asks [querySelector] again at the selectors that the loop
    went through, up to the first that matches: it does not throw. *)
Definition monitorPrice (now : Z) (doc : Document) (selector : option string)
  : Response PriceData :=
  let priceSelectors := priceSelectors selector in
  match probe doc priceSelectors with
  | inl message => Failure message
  | inr (priceElement, priceText) =>
      if isNull priceElement || negb (JS.truthy priceText) then
        Failure noPriceFound
      else
        let price := priceOf priceText in
        Success
          (mkPriceData (href doc) (title doc) price "USD"
             (find (fun s => JS.truthy s && negb (isNull (querySelector doc s)))
                   priceSelectors)
             now [(price, now)])
  end.

(** ** [SmartyContentScript.detectPageType] *)

Definition nonEmpty {T} (l : list T) : bool :=
  (0 <? List.length l)%nat.

Definition articleSelector : string := "article, .article, .post, .blog-post".

Definition detectPageType (doc : Document) : string :=
  let url := JS.toLowerCase (href doc) in
  let title := JS.toLowerCase (title doc) in
  let content :=
    match textContent (body doc) with
    | Some t => JS.toLowerCase t
    | None => EmptyString
    end in
  if JS.includes url "linkedin.com" || JS.includes url "twitter.com"
     || JS.includes url "facebook.com" then "social-media"
  else if JS.includes url "amazon.com" || JS.includes url "ebay.com"
          || JS.includes content "add to cart" then "ecommerce"
  else if JS.includes url "indeed.com" || JS.includes url "linkedin.com/jobs"
          || JS.includes title "job" then "job-board"
  else if nonEmpty (querySelectorAll doc articleSelector) then "article"
  else if nonEmpty (querySelectorAll doc "form") then "form-page"
  else "general".

End Content.

(* ================================================================== *)
(** * The storage service, continued: tokens, statistics, deletion *)
(* ================================================================== *)

Module StoreOps.
Import Store.
Local Open Scope store_scope.

(** [isAuthenticated()] *)
Definition isAuthenticated (env : Env) : M bool :=
  user <- getCurrentUser env ;;
  ret (match user with
       | Some _ => true
       | None => false
       end).

(** [result.authToken !== token]; an absent key is [undefined]. *)
Definition tokenDiffers (stored : option string) (token : string) : bool :=
  match stored with
  | Some t => negb (String.eqb t token)
  | None => true
  end.

(** [result.tokenExpiry && Date.now() > result.tokenExpiry] *)
Definition hasExpired (env : Env) (stored : option Z) : bool :=
  match stored with
  | Some expiry => truthyNumber expiry && (now env >? expiry)%Z
  | None => false
  end.

(** [verifyToken(token)] *)
Definition verifyToken (env : Env) (token : string) : M (option User.t) :=
  tryCatch
    (result <- storage_get ;;
     if tokenDiffers (authToken result) token then ret None
     else if hasExpired env (tokenExpiry result) then
       signOut ;;; ret None
     else
       match currentUser result with
       | Some u => set_this_currentUser (Some u) ;;; ret (Some u)
       | None => ret None
       end)
    (fun _ => ret None).

(** The object [getUserStats()] returns. *)
Record UserStats : Type := mkStats {
  totalSummaries : nat;
  totalLeads : nat;
  totalActivities : nat;
  joinedDate : Z;
  lastLogin : Z
}.

(** [getUserStats()] *)
Definition getUserStats (env : Env) : M (option UserStats) :=
  tryCatch
    (currentUser <- getCurrentUser env ;;
     match currentUser with
     | None => ret None
     | Some u =>
         summaries <- getStorageData contentSummaries ;;
         leads <- getStorageData leads ;;
         activities <- getStorageData userActivities ;;
         ret (Some (mkStats (List.length summaries) (List.length leads)
                            (List.length activities)
                            (User.createdAt u) (User.updatedAt u)))
     end)
    (fun _ => ret None).

(** [deleteContentSummary(id)] *)
Definition deleteContentSummary (id : string) : M bool :=
  cur <- get_this_currentUser ;;
  match cur with
  | None => ret false
  | Some _ =>
      summaries <- getStorageData contentSummaries ;;
      let filteredSummaries :=
        filter (fun s => negb (String.eqb (ContentSummary.id s) id))
               summaries in
      if (List.length filteredSummaries <? List.length summaries)%nat then
        setStorageData set_contentSummaries filteredSummaries ;;;
        ret true
      else ret false
  end.

(** [clearAllData()] *)
Definition clearAllData : M unit :=
  tryCatch
    (storage_update (fun _ => emptyStorage) ;;;
     set_this_currentUser None)
    (fun _ => ret tt).

End StoreOps.

(* ================================================================== *)
(** * The background script's tab listener *)
(* ================================================================== *)

Module Tabs.
Import Store.
Local Open Scope store_scope.

(** What the listener reads of [changeInfo] and [tab]. *)
Record TabUpdate : Type := mkTabUpdate {
  tabId : Z;
  status : option string;
  url : option string;
  title : option string
}.

(** [tab.title || 'Unknown'] *)
Definition titleOrUnknown (title : option string) : string :=
  match title with
  | Some t => if JS.truthy t then t else "Unknown"
  | None => "Unknown"
  end.

(** The [chrome.tabs.onUpdated] listener: a page that has finished
    loading is logged, unless its address starts with [chrome://]. *)
Definition onUpdated (env : Env) (update : TabUpdate) : M unit :=
  match status update, url update with
  | Some st, Some u =>
      if String.eqb st "complete" && JS.truthy u
         && negb (JS.startsWith u "chrome://") then
        logUserActivity env "page_visited"
          [("url", JString u);
           ("title", JString (titleOrUnknown (title update)));
           ("tabId", JNumber (tabId update))]
      else ret tt
  | _, _ => ret tt
  end.

End Tabs.

(* ================================================================== *)
(** * The content script, continued: form filling and action policy *)
(* ================================================================== *)

Module Forms.

(** What [document.querySelector] does with a selector built from a
    key of the form data: an element (named by a number), [null], or a
    [SyntaxError] when the key makes the selector ill-formed. *)
Inductive QueryResult : Type :=
| Found (element : nat)
| Null
| SyntaxError (message : string).

Record Page : Type := mkPage { querySelector : string -> QueryResult }.

(** What [fillForm] does to the page, in order.  The handlers that the
    events wake are taken not to change what the selectors match. *)
Inductive Effect : Type :=
| SetValue (element : nat) (value : string)
| DispatchEvent (element : nat) (type : string).

Record FillData : Type := mkFillData {
  fieldsFound : nat;
  totalFields : nat
}.

Definition quote : string := String "034" EmptyString.

(** The five selectors tried for a key, in order. *)
Definition selectorsFor (key : string) : list string :=
  [("input[name=" ++ quote ++ key ++ quote ++ "]")%string;
   ("input[id=" ++ quote ++ key ++ quote ++ "]")%string;
   ("input[placeholder*=" ++ quote ++ key ++ quote ++ "]")%string;
   ("textarea[name=" ++ quote ++ key ++ quote ++ "]")%string;
   ("select[name=" ++ quote ++ key ++ quote ++ "]")%string].

(** The inner [for] loop: the first element that one of the selectors
    finds, if any, or the message of the exception that
    [querySelector] throws. *)
Fixpoint firstElement (page : Page) (selectors : list string)
  : string + option nat :=
  match selectors with
  | [] => inr None
  | selector :: rest =>
      match querySelector page selector with
      | SyntaxError message => inl message
      | Found element => inr (Some element)
      | Null => firstElement page rest
      end
  end.

(** [element.value = value] and the two events. *)
Definition fill (element : nat) (value : string) : list Effect :=
  [SetValue element value;
   DispatchEvent element "input";
   DispatchEvent element "change"].

(** The [forEach] over [Object.entries(formData)]: the count of fields
    found and the effects so far; an exception stops it where it is. *)
Fixpoint fillEntries (page : Page) (entries : list (string * string))
         (fieldsFound : nat) (done : list Effect)
  : option string * nat * list Effect :=
  match entries with
  | [] => (None, fieldsFound, done)
  | (key, value) :: rest =>
      match firstElement page (selectorsFor key) with
      | inl message => (Some message, fieldsFound, done)
      | inr None => fillEntries page rest fieldsFound done
      | inr (Some element) =>
          fillEntries page rest (S fieldsFound) (done ++ fill element value)
      end
  end.

(** [fillForm(formData)]: the envelope and what was done to the page.
    [formData] is given by its entries, in the order of
    [Object.entries]; [None] is a missing argument. *)
Definition fillForm (page : Page) (formData : option (list (string * string)))
  : Content.Response FillData * list Effect :=
  match formData with
  | None => (Content.Failure "No form data provided", [])
  | Some entries =>
      match fillEntries page entries 0 [] with
      | (Some message, _, done) => (Content.Failure message, done)
      | (None, fieldsFound, done) =>
          (Content.Success (mkFillData fieldsFound (List.length entries)), done)
      end
  end.

End Forms.

Module Context.
Import Content.

(** [isSocialMediaPage()]: the address as it is, not lower-cased. *)
Definition socialDomains : list string :=
  ["linkedin.com"; "twitter.com"; "facebook.com"; "instagram.com";
   "tiktok.com"].

Definition isSocialMediaPage (doc : Document) : bool :=
  existsb (fun domain => JS.includes (href doc) domain) socialDomains.

(** [isEcommercePage()] *)
Definition ecommerceIndicators : list string :=
  ["add to cart"; "buy now"; "checkout"; "shopping cart"; "product";
   ".add-to-cart"; ".buy-button"; ".checkout-button"; ".product-price"].

Definition lowerBodyText (doc : Document) : string :=
  match textContent (body doc) with
  | Some t => JS.toLowerCase t
  | None => EmptyString
  end.

Definition isEcommercePage (doc : Document) : bool :=
  let content := lowerBodyText doc in
  existsb (fun indicator =>
             if JS.startsWith indicator "." then
               negb (isNull (querySelector doc indicator))
             else JS.includes content indicator)
          ecommerceIndicators.

(** [isJobBoardPage()] *)
Definition jobDomains : list string :=
  ["indeed.com"; "glassdoor.com"; "monster.com"; "ziprecruiter.com"].
Definition jobKeywords : list string :=
  ["job"; "career"; "position"; "hiring"; "employment"].

Definition isJobBoardPage (doc : Document) : bool :=
  let content := lowerBodyText doc in
  existsb (fun domain => JS.includes (href doc) domain) jobDomains
  || existsb (fun keyword => JS.includes content keyword) jobKeywords.

(** The context object of [analyzePageContext]. *)
Record PageContext : Type := mkContext {
  url : string;
  ctx_title : string;
  domain : string;
  pageType : string;
  hasForm : bool;
  hasPricing : bool;
  hasContactInfo : bool;
  isEcommerce : bool;
  isSocialMedia : bool;
  isJobBoard : bool
}.

(** [shouldShowAction(action, context)]; [None] is a missing
    [data-action] attribute. *)
Definition shouldShowAction (action : option string) (context : PageContext)
  : bool :=
  match action with
  | Some a =>
      if String.eqb a "summarize" then
        String.eqb (pageType context) "article"
        || JS.includes (url context) "news"
        || JS.includes (url context) "blog"
      else if String.eqb a "extract" then true
      else if String.eqb a "autofill" then hasForm context
      else if String.eqb a "leads" then
        hasContactInfo context || isSocialMedia context
      else if String.eqb a "monitor" then
        isEcommerce context && hasPricing context
      else false
  | None => false
  end.

End Context.

(* ================================================================== *)
(** * The sign-up, sign-in and sign-out of a browser that rejects calls *)
(* ================================================================== *)

Module Faults.
Import Store.
Local Open Scope store_scope.

(** The calls of [chrome.storage.local] that [signUp], [signIn] and
    [signOut] make, each at most once in one run. *)
Inductive Call : Type :=
| ReadUsers
| WriteUsers
| ReadCredentials
| WriteCredentials
| WriteSession
| RemoveSession.

(** What the browser does with a call: it lets it through, or rejects
    the promise with an error that has this message. *)
Definition Browser : Type := Call -> option string.

Definition reliable : Browser := fun _ => None.

(** [getStorageData]: a rejected read is caught there and gives the
    empty array. *)
Definition getStorageData {T} (browser : Browser) (call : Call)
           (key : Storage -> list T) : M (list T) :=
  match browser call with
  | Some _ => ret []
  | None => Store.getStorageData key
  end.

(** [setStorageData]: a rejected write is caught there; nothing is
    written and the caller is not told. *)
Definition setStorageData {T} (browser : Browser) (call : Call)
           (key : list T -> Storage -> Storage) (data : list T) : M unit :=
  match browser call with
  | Some _ => ret tt
  | None => Store.setStorageData key data
  end.

(** A direct [chrome.storage.local.set] or [remove]: nothing is written
    and the rejection reaches the caller as an exception. *)
Definition storage_call (browser : Browser) (call : Call)
           (f : Storage -> Storage) : M unit :=
  match browser call with
  | Some message => throw message
  | None => storage_update f
  end.

Definition signUp (browser : Browser) (env : Env)
           (email password name : string) : M AuthResult :=
  tryCatch
    (if negb (JS.truthy email) || negb (JS.truthy password)
        || negb (JS.truthy name) then
       ret (failure "All fields are required")
     else if negb (isValidEmail email) then
       ret (failure "Please enter a valid email address")
     else if negb (isValidPassword password) then
       ret (failure "Password must be at least 6 characters long")
     else if (String.length (JS.trim name) <? 2)%nat then
       ret (failure "Name must be at least 2 characters long")
     else
       users <- getStorageData browser ReadUsers users ;;
       match find (sameEmail email) users with
       | Some _ => ret (failure "An account with this email already exists")
       | None =>
           let hashedPassword := hashPassword password in
           let newUser :=
             User.mk (generateId env 0) (JS.toLowerCase email) (JS.trim name)
                     None free (now env) (now env) in
           let userCredentials' :=
             Credential.mk (User.id newUser) (JS.toLowerCase email)
                           hashedPassword (now env) in
           setStorageData browser WriteUsers set_users (users ++ [newUser]) ;;;
           credentials <- getStorageData browser ReadCredentials
                                         userCredentials ;;
           setStorageData browser WriteCredentials set_userCredentials
                          (credentials ++ [userCredentials']) ;;;
           let token := mintToken env (User.id newUser) 1 in
           set_this_currentUser (Some newUser) ;;;
           storage_call browser WriteSession
                        (set_session newUser token (now env + sevenDays)) ;;;
           ret (mkAuth (Some newUser) None (Some token))
       end)
    (fun message => ret (failure message)).

Definition signIn (browser : Browser) (env : Env) (email password : string)
  : M AuthResult :=
  tryCatch
    (if negb (JS.truthy email) || negb (JS.truthy password) then
       ret (failure "Email and password are required")
     else if negb (isValidEmail email) then
       ret (failure "Please enter a valid email address")
     else
       users <- getStorageData browser ReadUsers users ;;
       match find (sameEmail email) users with
       | None => ret (failure "Invalid email or password")
       | Some found =>
           credentials <- getStorageData browser ReadCredentials
                                         userCredentials ;;
           match find (fun cred =>
                         String.eqb (Credential.userId cred) (User.id found))
                      credentials with
           | None => ret (failure "Account not found. Please sign up first.")
           | Some userCredential =>
               let hashedPassword := hashPassword password in
               if negb (String.eqb hashedPassword
                                   (Credential.passwordHash userCredential))
               then ret (failure "Invalid email or password")
               else
                 let token := mintToken env (User.id found) 0 in
                 let user := User.set_updatedAt (now env) found in
                 let users :=
                   updateFirst (sameEmail email)
                               (User.set_updatedAt (now env)) users in
                 match findIndex (fun u => String.eqb (User.id u) (User.id user))
                                 users with
                 | Some userIndex =>
                     setStorageData browser WriteUsers set_users
                                    (assign userIndex user users)
                 | None => ret tt
                 end ;;;
                 set_this_currentUser (Some user) ;;;
                 storage_call browser WriteSession
                              (set_session user token (now env + sevenDays)) ;;;
                 ret (mkAuth (Some user) None (Some token))
           end
       end)
    (fun message => ret (failure message)).

Definition signOut (browser : Browser) : M (option string) :=
  tryCatch
    (set_this_currentUser None ;;;
     storage_call browser RemoveSession remove_session ;;;
     ret None)
    (fun message => ret (Some message)).

End Faults.

(* ================================================================== *)
(** * Vocabulary of the statements *)
(* ================================================================== *)

Module Terms.

(** ** Strings and patterns *)

(** Length of the longest prefix of [s] made of characters of [p]. *)
Fixpoint run (p : ascii -> bool) (s : string) : nat :=
  match s with
  | String c s' => if p c then S (run p s') else O
  | EmptyString => O
  end.

(** White-space collapsing written directly: a run of white space
    becomes one space; [inRun] says that the previous character was
    white space. *)
Fixpoint collapse (inRun : bool) (s : string) : string :=
  match s with
  | EmptyString => EmptyString
  | String c s' =>
      if JS.isWhiteSpace c then
        if inRun then collapse true s' else String " " (collapse true s')
      else String c (collapse false s')
  end.

(** [tidy prevSpace s]: the only white space in [s] is the space
    character, and no two spaces are adjacent ([prevSpace]: a space
    precedes [s]). *)
Fixpoint tidy (prevSpace : bool) (s : string) : bool :=
  match s with
  | EmptyString => true
  | String c s' =>
      if JS.isWhiteSpace c
      then Ascii.eqb c " " && negb prevSpace && tidy true s'
      else tidy false s'
  end.

(** ** The session store *)

(** The user, the credential and the state that a successful [signUp]
    produces. *)
Definition newUser (env : Store.Env) (e n : string) : User.t :=
  User.mk (Store.generateId env 0) (JS.toLowerCase e) (JS.trim n) None free
          (Store.now env) (Store.now env).

Definition newCredential (env : Store.Env) (e p : string) : Credential.t :=
  Credential.mk (Store.generateId env 0) (JS.toLowerCase e)
                (Store.hashPassword p) (Store.now env).

Definition registered (env : Store.Env) (e p n : string) (sv : Store.Service)
  : Store.Service :=
  Store.mkService (Some (newUser env e n)) (Store.isInitialized sv)
    (Store.set_session (newUser env e n)
       (Store.mintToken env (Store.generateId env 0) 1)
       (Store.now env + Store.sevenDays)
       (Store.set_userCredentials
          (Store.userCredentials (Store.storage sv) ++ [newCredential env e p])
          (Store.set_users
             (Store.users (Store.storage sv) ++ [newUser env e n])
             (Store.storage sv)))).

(** The credential that [signIn] compares the password with: the first
    one that carries the user's id. *)
Definition credentialOf (u : User.t) (sv : Store.Service)
  : option Credential.t :=
  find (fun cred => String.eqb (Credential.userId cred) (User.id u))
       (Store.userCredentials (Store.storage sv)).

(** No stored credential carries the id that [generateId] is about to
    return. *)
Definition freshId (env : Store.Env) (sv : Store.Service) : Prop :=
  find (fun cred =>
          String.eqb (Credential.userId cred) (Store.generateId env 0))
       (Store.userCredentials (Store.storage sv)) = None.

(** The messages with which [signIn] can refuse. *)
Definition signInErrors : list string :=
  ["Email and password are required";
   "Please enter a valid email address";
   "Invalid email or password"].

(** The service once an expired stored session has been dropped. *)
Definition expiredSessionCleared (sv : Store.Service) : Store.Service :=
  Store.mkService None (Store.isInitialized sv)
                  (Store.remove_session (Store.storage sv)).

(** ** The activity log *)

Definition activityLog (sv : Store.Service) : list UserActivity.t :=
  Store.userActivities (Store.storage sv).

Definition bounded (sv : Store.Service) : Prop :=
  (List.length (activityLog sv) <= 100)%nat.

(** A [log_activity] message with the surroundings in which it is
    handled, and sequences of them. *)
Definition LogCall : Type := Store.Env * string * list (string * JsonValue).

Definition logCall (c : LogCall) (sv : Store.Service) : Store.Service :=
  let '(env, action, details) := c in
  Background.after env (Background.log_activity action details) sv.

Definition logCalls (calls : list LogCall) (sv : Store.Service)
  : Store.Service :=
  fold_left (fun sv c => logCall c sv) calls sv.

(** Any sequence of messages. *)
Definition handleAll (calls : list (Store.Env * Background.Message))
           (sv : Store.Service) : Store.Service :=
  fold_left (fun sv c => Background.after (fst c) (snd c) sv) calls sv.

(** [c] keeps [P], whatever it returns or throws. *)
Definition preserves {A} (P : Store.Service -> Prop) (c : Store.M A) : Prop :=
  forall sv, P sv -> P (snd (c sv)).

(** ** Page inspection *)

(** [sel] is the first selector of the list that matches, and [el] is
    what it matches. *)
Definition firstMatch (doc : Content.Document) (selectors : list string)
           (sel : string) (el : Content.Element) : Prop :=
  exists pre post,
    selectors = pre ++ sel :: post
    /\ (forall s, In s pre -> Content.querySelector doc s = None)
    /\ Content.querySelector doc sel = Some el.

Definition noMatch (doc : Content.Document) (selectors : list string) : Prop :=
  forall s, In s selectors -> Content.querySelector doc s = None.

(** The browser can parse every selector of the list. *)
Definition parsable (doc : Content.Document) (selectors : list string)
  : Prop :=
  forall s, In s selectors -> Content.syntaxError doc s = None.

Definition occurrences (m : string) (l : list string) : nat :=
  List.length (filter (fun x => String.eqb x m) l).

(** Leads that carry the e-mail address, or the phone number, [m]. *)
Definition emailIs (m : string) (l : Content.ExtractedLead) : bool :=
  match Content.email l with
  | Some x => String.eqb x m
  | None => false
  end.

Definition phoneIs (m : string) (l : Content.ExtractedLead) : bool :=
  match Content.phone l with
  | Some x => String.eqb x m
  | None => false
  end.

Definition howMany (p : Content.ExtractedLead -> bool)
           (ls : list Content.ExtractedLead) : nat :=
  List.length (filter p ls).

(** ** The resolution order of [pageType], as the specification lists
    it: each rule on the lower-cased url, title and body text, or on
    the presence of elements. *)
Definition lowerUrl (doc : Content.Document) : string :=
  JS.toLowerCase (Content.href doc).
Definition lowerTitle (doc : Content.Document) : string :=
  JS.toLowerCase (Content.title doc).
Definition lowerText (doc : Content.Document) : string :=
  JS.toLowerCase (Content.textOf (Content.body doc)).

Definition socialMediaDomain (doc : Content.Document) : bool :=
  JS.includes (lowerUrl doc) "linkedin.com"
  || JS.includes (lowerUrl doc) "twitter.com"
  || JS.includes (lowerUrl doc) "facebook.com".

Definition ecommerceMatch (doc : Content.Document) : bool :=
  JS.includes (lowerUrl doc) "amazon.com"
  || JS.includes (lowerUrl doc) "ebay.com"
  || JS.includes (lowerText doc) "add to cart".

Definition jobBoardMatch (doc : Content.Document) : bool :=
  JS.includes (lowerUrl doc) "indeed.com"
  || JS.includes (lowerUrl doc) "linkedin.com/jobs"
  || JS.includes (lowerTitle doc) "job".

(** Some element of the page matches the selector. *)
Definition present (doc : Content.Document) (selector : string) : bool :=
  match Content.querySelectorAll doc selector with
  | [] => false
  | _ :: _ => true
  end.

Definition hasArticleContainer (doc : Content.Document) : bool :=
  present doc "article, .article, .post, .blog-post".

Definition hasFormElement (doc : Content.Document) : bool :=
  present doc "form".

Definition Rule : Type := (Content.Document -> bool) * string.

Definition resolutionOrder : list Rule :=
  [(socialMediaDomain, "social-media");
   (ecommerceMatch, "ecommerce");
   (jobBoardMatch, "job-board");
   (hasArticleContainer, "article");
   (hasFormElement, "form-page")].

(** First match wins; [general] when no rule applies. *)
Fixpoint firstRule (rules : list Rule) (doc : Content.Document) : string :=
  match rules with
  | [] => "general"
  | (applies, pageType) :: rest =>
      if applies doc then pageType else firstRule rest doc
  end.

End Terms.

(* ================================================================== *)
(** * Concrete stores and pages *)
(* ================================================================== *)

Module Scenarios.

Definition morning : Store.Env :=
  Store.mkEnv 1700000000000 (fun _ => "0.k3j9x2").

Definition nineDaysLater : Store.Env :=
  Store.mkEnv (1700000000000 + 9 * 86400000) (fun _ => "0.7fq1zd").

(** A service that has just been constructed on an empty storage. *)
Definition blank : Store.Service :=
  Store.mkService None false Store.emptyStorage.

(** Ann has signed up in the morning. *)
Definition signedUp : Store.Service :=
  snd (Store.signUp morning "ann@example.com" "secret1" "Ann" blank).

(** Another instance of the service on the same storage, before it has
    loaded anything. *)
Definition coldStart : Store.Service :=
  Store.mkService None false (Store.storage signedUp).

Definition visit : Terms.LogCall :=
  (morning, "page_visited", [("url", JString "https://example.com/")]).

(** A page whose only elements of interest are those listed. *)
Definition page (title href text : string)
           (elements : list (string * string)) : Content.Document :=
  Content.mkDocument title href (Content.mkElement (Some text))
    (fun selector =>
       map (fun e => Content.mkElement (Some (snd e)))
           (filter (fun e => String.eqb (fst e) selector) elements))
    (fun _ => None).

(** The same page in a browser that cannot parse the selector [bad]. *)
Definition rejecting (bad message : string) (doc : Content.Document)
  : Content.Document :=
  Content.mkDocument (Content.title doc) (Content.href doc) (Content.body doc)
    (Content.querySelectorAll doc)
    (fun selector =>
       if String.eqb selector bad then Some message
       else Content.syntaxError doc selector).

Definition quotePage : Content.Document :=
  page "Pump X200" "https://shop.example/x200" "Pump X200 Call for price"
       [(".price", "Call for price")].

Definition dottedPage : Content.Document :=
  page "Pump X300" "https://shop.example/x300" "Pump X300 from...12"
       [(".price", "from...12")].

Definition emptyPricePage : Content.Document :=
  page "Pump X400" "https://shop.example/x400" "Pump X400"
       [(".price", EmptyString)].

Definition barePage : Content.Document :=
  page "About" "https://example.org/about" "About us" [].

Definition contactPage : Content.Document :=
  page "Contact" "https://example.org/contact"
       "Write to a@b.com, or again a@b.com" [].

Definition blogPage : Content.Document :=
  page "Notes" "https://example.org/notes" "menu  Hello   big world  footer"
       [("article", "  Hello   big world  ")].

Definition blankArticlePage : Content.Document :=
  page "Notes" "https://example.org/notes" "Only the body" [("article", "  ")].

Definition jobsOnLinkedin : Content.Document :=
  page "Job openings" "https://www.linkedin.com/jobs/view/1"
       "Apply now, add to cart" [("form", "Apply")].

Definition profileOnLinkedin : Content.Document :=
  page "Ann" "https://www.linkedin.com/jobs/view/1" "Ann's profile" [].

(** A page with an article-like container and a form, the same page
    without the form, and a page with a form only. *)
Definition newsPage : Content.Document :=
  page "Morning news" "https://example.org/today" "Rain expected"
       [("article, .article, .post, .blog-post", "Rain expected");
        ("form", "Search")].

Definition plainNewsPage : Content.Document :=
  page "Morning news" "https://example.org/today" "Rain expected"
       [("article, .article, .post, .blog-post", "Rain expected")].

Definition joinPage : Content.Document :=
  page "Join us" "https://example.org/join" "Your name"
       [("form", "Your name")].

End Scenarios.

(* ================================================================== *)
(** * Vocabulary of the further statements *)
(* ================================================================== *)

Module MoreTerms.

(** ** States of the service *)

(** The service once the session is dropped: what [signOut] leaves. *)
Definition withoutSession (sv : Store.Service) : Store.Service :=
  Store.mkService None (Store.isInitialized sv)
                  (Store.remove_session (Store.storage sv)).

(** The users once [found], the first user with the address [e], has
    signed in: its [updatedAt] is touched, and the result is written
    again at the first index that has its id. *)
Definition touchedUsers (env : Store.Env) (e : string) (found : User.t)
           (users : list User.t) : list User.t :=
  let user := User.set_updatedAt (Store.now env) found in
  let touched :=
    Store.updateFirst (Store.sameEmail e)
                      (User.set_updatedAt (Store.now env)) users in
  match Store.findIndex
          (fun u => String.eqb (User.id u) (User.id user)) touched with
  | Some userIndex => Store.assign userIndex user touched
  | None => users
  end.

(** The service once [found] has signed in with the address [e]. *)
Definition signedIn (env : Store.Env) (e : string) (found : User.t)
           (sv : Store.Service) : Store.Service :=
  let user := User.set_updatedAt (Store.now env) found in
  Store.mkService (Some user) (Store.isInitialized sv)
    (Store.set_session user
       (Store.mintToken env (User.id found) 0)
       (Store.now env + Store.sevenDays)
       (Store.set_users
          (touchedUsers env e found (Store.users (Store.storage sv)))
          (Store.storage sv))).

(** Another instance of the service on the same storage, with nothing
    memoised. *)
Definition otherInstance (sv : Store.Service) : Store.Service :=
  Store.mkService None false (Store.storage sv).

(** The messages with which [signUp] and [signIn] refuse. *)
Definition signUpErrors : list string :=
  ["All fields are required";
   "Please enter a valid email address";
   "Password must be at least 6 characters long";
   "Name must be at least 2 characters long";
   "An account with this email already exists"].

Definition signInRefusals : list string :=
  ["Email and password are required";
   "Please enter a valid email address";
   "Invalid email or password";
   "Account not found. Please sign up first."].

(** ** Invariants of the storage *)

(** No user in memory and none in the storage. *)
Definition noSession (sv : Store.Service) : Prop :=
  Store.this_currentUser sv = None
  /\ Store.currentUser (Store.storage sv) = None.

(** The credentials are those of the users, in the same order. *)
Definition aligned (sv : Store.Service) : Prop :=
  map User.id (Store.users (Store.storage sv))
  = map Credential.userId (Store.userCredentials (Store.storage sv)).

(** The three session keys are stored together or not at all. *)
Definition sessionWhole (sv : Store.Service) : Prop :=
  let st := Store.storage sv in
  (Store.currentUser st = None /\ Store.authToken st = None
   /\ Store.tokenExpiry st = None)
  \/ (exists u tok expiry,
         Store.currentUser st = Some u /\ Store.authToken st = Some tok
         /\ Store.tokenExpiry st = Some expiry).

Definition lowerEmail (u : User.t) : string := JS.toLowerCase (User.email u).

(** No two users share an id, or an address up to case. *)
Definition distinctAccounts (sv : Store.Service) : Prop :=
  NoDup (map User.id (Store.users (Store.storage sv)))
  /\ NoDup (map lowerEmail (Store.users (Store.storage sv))).

(** The id that [generateId] is about to return belongs to no user. *)
Definition freshUserId (env : Store.Env) (sv : Store.Service) : Prop :=
  ~ In (Store.generateId env 0) (map User.id (Store.users (Store.storage sv))).

(** The summary has the id [i]. *)
Definition hasId (i : string) (s : ContentSummary.t) : bool :=
  String.eqb (ContentSummary.id s) i.

(** Messages that open a session. *)
Definition opensSession (m : Background.Message) : bool :=
  match m with
  | Background.sign_in _ _ | Background.sign_up _ _ _ => true
  | _ => false
  end.

(** What a message can do to the service: the only transitions of the
    dispatcher, and the messages that make the three that touch the
    accounts. *)
Inductive Step (env : Store.Env) (m : Background.Message) (sv : Store.Service)
  : Store.Service -> Prop :=
| step_none : Step env m sv sv
| step_signUp (e p n : string) :
    m = Background.sign_up e p n ->
    find (Store.sameEmail e) (Store.users (Store.storage sv)) = None ->
    Step env m sv (Terms.registered env e p n sv)
| step_signIn (e p : string) (found : User.t) :
    m = Background.sign_in e p ->
    find (Store.sameEmail e) (Store.users (Store.storage sv)) = Some found ->
    Step env m sv (signedIn env e found sv)
| step_drop : Step env m sv (withoutSession sv)
| step_load (u : User.t) :
    Store.this_currentUser sv = None ->
    Store.currentUser (Store.storage sv) = Some u ->
    Step env m sv (Store.mkService (Some u) (Store.isInitialized sv)
                                   (Store.storage sv))
| step_collections (u : User.t) (st : Store.Storage) :
    Store.this_currentUser sv = Some u ->
    Store.users st = Store.users (Store.storage sv) ->
    Store.userCredentials st = Store.userCredentials (Store.storage sv) ->
    Store.currentUser st = Store.currentUser (Store.storage sv) ->
    Store.authToken st = Store.authToken (Store.storage sv) ->
    Store.tokenExpiry st = Store.tokenExpiry (Store.storage sv) ->
    Step env m sv (Store.mkService (Some u) (Store.isInitialized sv) st)
| step_clear :
    m = Background.clear_all_data ->
    Step env m sv (Store.mkService (Store.this_currentUser sv)
                                   (Store.isInitialized sv) Store.emptyStorage).

(** ** Form filling *)

(** The element that receives the value of [key]: what the first
    selector of the key that finds anything finds. *)
Definition elementFor (page : Forms.Page) (key : string) : option nat :=
  match find (fun s => match Forms.querySelector page s with
                       | Forms.Null => false
                       | _ => true
                       end) (Forms.selectorsFor key) with
  | Some s =>
      match Forms.querySelector page s with
      | Forms.Found element => Some element
      | _ => None
      end
  | None => None
  end.

(** No selector of the key makes [querySelector] throw. *)
Definition wellFormed (page : Forms.Page) (key : string) : Prop :=
  forall s message,
    In s (Forms.selectorsFor key) ->
    Forms.querySelector page s <> Forms.SyntaxError message.

(** The first selector of the key that finds anything throws
    [message]. *)
Definition breaks (page : Forms.Page) (key message : string) : Prop :=
  exists pre s post,
    Forms.selectorsFor key = pre ++ s :: post
    /\ (forall s', In s' pre -> Forms.querySelector page s' = Forms.Null)
    /\ Forms.querySelector page s = Forms.SyntaxError message.

(** What filling the entries does when nothing throws. *)
Definition effectsOf (page : Forms.Page) (entries : list (string * string))
  : list Forms.Effect :=
  flat_map (fun entry =>
              match elementFor page (fst entry) with
              | Some element => Forms.fill element (snd entry)
              | None => []
              end) entries.

Definition foundAmong (page : Forms.Page) (entries : list (string * string))
  : nat :=
  List.length (filter (fun entry =>
                         match elementFor page (fst entry) with
                         | Some _ => true
                         | None => false
                         end) entries).

(** ** Strings *)

Fixpoint allChars (p : ascii -> bool) (s : string) : bool :=
  match s with
  | EmptyString => true
  | String c s' => p c && allChars p s'
  end.

Fixpoint countChar (a : ascii) (s : string) : nat :=
  match s with
  | EmptyString => O
  | String c s' => (if Ascii.eqb c a then 1 else 0) + countChar a s'
  end.

(** The number of words of [s], a word being a maximal run of
    characters other than the space; [inWord] says that the previous
    character belongs to a word. *)
Fixpoint wordsFrom (inWord : bool) (s : string) : nat :=
  match s with
  | EmptyString => O
  | String c s' =>
      if Ascii.eqb c " " then wordsFrom false s'
      else (if inWord then 0 else 1) + wordsFrom true s'
  end.

Definition words (s : string) : nat := wordsFrom false s.

Fixpoint endsWithSpace (s : string) : bool :=
  match s with
  | EmptyString => false
  | String c EmptyString => Ascii.eqb c " "
  | String _ s' => endsWithSpace s'
  end.

(** ** Patterns *)

(** What a pattern matches, written as a relation: [Matches r w rest]
    says that [r] matches the word [w] when [rest] follows it. *)
Inductive Matches : Regex.re -> string -> string -> Prop :=
| matches_eps (rest : string) : Matches Regex.Eps EmptyString rest
| matches_chr (p : ascii -> bool) (c : ascii) (rest : string) :
    p c = true -> Matches (Regex.Chr p) (String c EmptyString) rest
| matches_many (p : ascii -> bool) (mn : nat) (mx : option nat)
               (w rest : string) :
    allChars p w = true ->
    (mn <= String.length w)%nat ->
    (forall m, mx = Some m -> (String.length w <= m)%nat) ->
    Matches (Regex.Many p mn mx) w rest
| matches_opt (r : Regex.re) (w rest : string) :
    Matches r w rest -> Matches (Regex.Opt r) w rest
| matches_skip (r : Regex.re) (rest : string) :
    Matches (Regex.Opt r) EmptyString rest
| matches_seq (r1 r2 : Regex.re) (w1 w2 rest : string) :
    Matches r1 w1 (w2 ++ rest) -> Matches r2 w2 rest ->
    Matches (Regex.Seq r1 r2) (w1 ++ w2) rest
| matches_eol : Matches Regex.Eol EmptyString EmptyString.

End MoreTerms.

(* ================================================================== *)
(** * Further concrete stores and pages *)
(* ================================================================== *)

Module MoreScenarios.

Definition noon : Store.Env :=
  Store.mkEnv (1700000000000 + 4 * 3600000) (fun _ => "0.q8w2ma").

Definition aSummary : ContentSummary.t :=
  ContentSummary.mk EmptyString "https://example.org/notes" "Notes"
    "A short text" ["one"; "two"] None None 0.

Definition anotherSummary : ContentSummary.t :=
  ContentSummary.mk "old1" "https://example.org/old" "Old" "An old text"
    [] None None 1690000000000.

(** Ann, signed up, with one summary stored. *)
Definition withSummary : Store.Service :=
  Store.mkService (Store.this_currentUser Scenarios.signedUp) false
    (Store.set_contentSummaries [anotherSummary]
       (Store.storage Scenarios.signedUp)).

Definition aLead : Lead.t :=
  Lead.mk EmptyString None (Some "a@b.com") None None None
          "https://example.org/contact" false 0.

Definition aMonitor : PriceMonitoringItem.t :=
  PriceMonitoringItem.mk EmptyString "https://shop.example/x500" "Pump X500"
    (JS.Dec false 129999 (-2)) None "USD" ".sale-price" 1700000000000 [] true.

Definition annsToken : string := "token_loyw3v28k3j9x2_1700000000000_0.k3j9x2".

(** A page with one input whose id is [email]; a key with a double
    quote makes every selector ill-formed. *)
Definition loginPage : Forms.Page :=
  Forms.mkPage
    (fun selector =>
       if String.eqb selector
            ("input[id=" ++ Forms.quote ++ "email" ++ Forms.quote ++ "]")
       then Forms.Found 3
       else if JS.includes selector
                 (Forms.quote ++ "a" ++ Forms.quote ++ "b" ++ Forms.quote)
       then Forms.SyntaxError "not a valid selector"
       else Forms.Null).

Definition plainPage : Forms.Page := Forms.mkPage (fun _ => Forms.Null).

Definition badKey : string := "a" ++ Forms.quote ++ "b".

Definition shopOnFacebook : Content.Document :=
  Scenarios.page "Marketplace" "https://www.facebook.com/marketplace"
                 "Add to cart" [].

Definition jobsOnIndeed : Content.Document :=
  Scenarios.page "Openings" "https://www.indeed.com/q-rocq" "No results" [].

Definition emptyPage : Content.Document :=
  Scenarios.page EmptyString "about:blank" EmptyString [].

Definition salePage : Content.Document :=
  Scenarios.page "Pump X500" "https://shop.example/x500"
                 "Pump X500 now $1,299.99"
                 [(".price", "was $1,499.00"); (".sale-price", "$1,299.99")].

End MoreScenarios.

(* ================================================================== *)
(** * Facts about strings and patterns *)
(* ================================================================== *)

Module JSFacts.

Lemma toLowerCase_char_idem (c : ascii) :
  JS.toLowerCase_char (JS.toLowerCase_char c) = JS.toLowerCase_char c.
Proof.
  destruct c as [[] [] [] [] [] [] [] []]; reflexivity.
Qed.

Lemma toLowerCase_idem (s : string) :
  JS.toLowerCase (JS.toLowerCase s) = JS.toLowerCase s.
Proof.
  induction s as [|c s IH]; simpl; [reflexivity|].
  now rewrite toLowerCase_char_idem, IH.
Qed.

Lemma truthy_length (s : string) :
  (1 <= String.length s)%nat -> JS.truthy s = true.
Proof. destruct s; simpl; [lia | reflexivity]. Qed.

Lemma trim_truthy (s : string) :
  (1 <= String.length (JS.trim s))%nat -> JS.truthy s = true.
Proof. destruct s; simpl; [lia | reflexivity]. Qed.

Lemma substr_length (n : nat) (s : string) :
  String.length (JS.substr n s) = (String.length s - n)%nat.
Proof.
  revert s; induction n as [|n IH]; intros [|c s]; simpl; auto with arith.
Qed.

Lemma slice0_length (n : nat) (s : string) :
  (String.length (JS.slice0 n s) <= n)%nat.
Proof.
  revert s; induction n as [|n IH]; intros [|c s]; simpl; try lia.
  specialize (IH s). lia.
Qed.

End JSFacts.

Module RegexFacts.
Import Regex Terms JSFacts.

Lemma run_le (p : ascii -> bool) (s : string) :
  (run p s <= String.length s)%nat.
Proof.
  induction s as [|c s IH]; simpl; [lia|]. destruct (p c); simpl; lia.
Qed.

(** A quantifier without upper bound, followed by nothing, takes the
    whole run. *)
Lemma many_unbounded (p : ascii -> bool) (s : string) (mn : nat) :
  many p mn None s Some
  = if (mn <=? run p s)%nat then Some (JS.substr (run p s) s) else None.
Proof.
  revert mn; induction s as [|c s IH]; intros mn.
  - destruct mn; reflexivity.
  - cbn [many run option_map]. destruct (p c).
    + rewrite IH. cbn [JS.substr].
      destruct mn as [|mn]; cbn [pred]; [reflexivity|].
      change (S mn <=? S (run p s))%nat with (mn <=? run p s)%nat.
      destruct (mn <=? run p s)%nat; reflexivity.
    + destruct mn; reflexivity.
Qed.

Lemma matchHere_plus (p : ascii -> bool) (s : string) :
  matchHere (plus p) s
  = match run p s with
    | O => None
    | S n => Some (S n)
    end.
Proof.
  unfold matchHere, plus. cbn [exec]. rewrite many_unbounded.
  pose proof (run_le p s) as Hle.
  destruct (run p s) as [|n] eqn:E; [reflexivity|].
  cbn [Nat.leb]. rewrite substr_length. f_equal. lia.
Qed.

End RegexFacts.

(* ================================================================== *)
(** * The session store: sign-up, sign-in and session expiry *)
(* ================================================================== *)

Module StoreProofs.
Import Store Background Terms Scenarios JSFacts.

Ltac run_store :=
  unfold handleMessage, getCurrentUser, signOut, saveContentSummary,
    saveLeads, savePriceMonitor, logUserActivity, getUserSummaryHistory,
    getLeads, getPriceMonitors, getUserHistory, tryCatch, bind, ret, throw,
    get_this_currentUser, set_this_currentUser, storage_get, storage_update,
    getStorageData, setStorageData.

Lemma find_last_only {T} (p : T -> bool) (l : list T) (x : T) :
  find p l = None -> p x = true -> find p (l ++ [x]) = Some x.
Proof.
  induction l as [|y l IH]; simpl; intros Hn Hp.
  - now rewrite Hp.
  - destruct (p y); [discriminate | now apply IH].
Qed.

Lemma isValidEmail_truthy (e : string) :
  isValidEmail e = true -> JS.truthy e = true.
Proof. destruct e; [discriminate | reflexivity]. Qed.

Lemma signUp_ok (env : Env) (e p n : string) (sv : Service) :
  isValidEmail e = true ->
  (6 <= String.length p)%nat ->
  (2 <= String.length (JS.trim n))%nat ->
  find (sameEmail e) (users (storage sv)) = None ->
  signUp env e p n sv
  = (Normal (mkAuth (Some (newUser env e n)) None
               (Some (mintToken env (generateId env 0) 1))),
     registered env e p n sv).
Proof.
  intros Hv Hp Hn Hnew.
  unfold signUp, tryCatch, bind, getStorageData, setStorageData,
    storage_update, set_this_currentUser, ret.
  rewrite (isValidEmail_truthy _ Hv), Hv.
  rewrite (truthy_length p) by lia.
  rewrite (trim_truthy n) by lia.
  replace (isValidPassword p) with true by (symmetry; now apply Nat.leb_le).
  replace (String.length (JS.trim n) <? 2)%nat with false
    by (symmetry; now apply Nat.ltb_ge).
  simpl. rewrite Hnew. reflexivity.
Qed.

(** [signIn] in any state whose users and credentials are those that
    the sign-up has left. *)
Lemma signIn_registered (env env' : Env) (e p n : string) (sv sv' : Service) :
  isValidEmail e = true ->
  (6 <= String.length p)%nat ->
  find (sameEmail e) (users (storage sv)) = None ->
  freshId env sv ->
  users (storage sv') = users (storage (registered env e p n sv)) ->
  userCredentials (storage sv')
  = userCredentials (storage (registered env e p n sv)) ->
  exists sv2,
    signIn env' e p sv'
    = (Normal (mkAuth (Some (User.set_updatedAt (now env') (newUser env e n)))
                 None (Some (mintToken env' (generateId env 0) 0))), sv2)
    /\ this_currentUser sv2
       = Some (User.set_updatedAt (now env') (newUser env e n)).
Proof.
  intros Hv Hp Hnew Hid Husers Hcreds.
  assert (Hsame : sameEmail e (newUser env e n) = true).
  { unfold sameEmail; simpl. rewrite toLowerCase_idem. apply String.eqb_refl. }
  unfold signIn, tryCatch, bind, getStorageData, setStorageData,
    storage_update, set_this_currentUser, ret.
  rewrite (isValidEmail_truthy _ Hv), Hv.
  rewrite (truthy_length p) by lia.
  cbn [negb orb]. rewrite Husers. simpl.
  rewrite (find_last_only _ _ _ Hnew Hsame). simpl.
  rewrite Hcreds. simpl.
  rewrite (find_last_only _ _ (newCredential env e p) Hid)
    by (simpl; apply String.eqb_refl).
  simpl. rewrite String.eqb_refl. simpl.
  destruct (findIndex _ _); eexists; split; reflexivity.
Qed.

(** C3, as the code has it.  For a well-formed e-mail address [e], a
    password [p] of at least 6 characters and a name [n] whose trimmed
    length is at least 2, when no stored user has the address [e]
    (compared without case) and no stored credential carries the id
    that [generateId] draws for the new user: [signUp] succeeds and
    returns a user, and a following [signIn] with [e] and [p], at any
    later time, succeeds and returns a user with the same id; so do the
    [sign_up] and [sign_in] messages, also when the session has changed
    in between (a sign-out, say) while the users and credentials are as
    the sign-up left them. *)
Theorem signUp_then_signIn (env env' : Env) (e p n : string) (sv : Service) :
  isValidEmail e = true ->
  (6 <= String.length p)%nat ->
  (2 <= String.length (JS.trim n))%nat ->
  find (sameEmail e) (users (storage sv)) = None ->
  freshId env sv ->
  exists u tok sv1 u' tok' sv2,
    signUp env e p n sv = (Normal (mkAuth (Some u) None (Some tok)), sv1)
    /\ signIn env' e p sv1 = (Normal (mkAuth (Some u') None (Some tok')), sv2)
    /\ User.id u' = User.id u
    /\ handleMessage env (sign_up e p n) sv
       = (Normal (mkResponse true (Some (DUser (Some u))) None), sv1)
    /\ handleMessage env' (sign_in e p) sv1
       = (Normal (mkResponse true (Some (DUser (Some u'))) None), sv2)
    /\ (forall sv1',
           users (storage sv1') = users (storage sv1) ->
           userCredentials (storage sv1') = userCredentials (storage sv1) ->
           exists sv2',
             handleMessage env' (sign_in e p) sv1'
             = (Normal (mkResponse true (Some (DUser (Some u'))) None), sv2')).
Proof.
  intros Hv Hp Hn Hnew Hid.
  pose proof (signUp_ok env e p n sv Hv Hp Hn Hnew) as Hup.
  destruct (signIn_registered env env' e p n sv (registered env e p n sv)
              Hv Hp Hnew Hid eq_refl eq_refl) as (sv2 & Hin & _).
  exists (newUser env e n), (mintToken env (generateId env 0) 1),
    (registered env e p n sv),
    (User.set_updatedAt (now env') (newUser env e n)),
    (mintToken env' (generateId env 0) 0), sv2.
  split; [exact Hup|]. split; [exact Hin|]. split; [reflexivity|].
  split; [|split].
  - unfold handleMessage, tryCatch, bind, ret. rewrite Hup. reflexivity.
  - unfold handleMessage, tryCatch, bind, ret. rewrite Hin. reflexivity.
  - intros sv1' Husers Hcreds.
    destruct (signIn_registered env env' e p n sv sv1' Hv Hp Hnew Hid
                Husers Hcreds) as (sv2' & Hin' & _).
    exists sv2'.
    unfold handleMessage, tryCatch, bind, ret. rewrite Hin'. reflexivity.
Qed.

Lemma signUp_then_signIn_witness :
  exists u u' sv1 sv2,
    handleMessage morning (sign_up "Ann@Example.com" "secret1" " Ann ") blank
    = (Normal (mkResponse true (Some (DUser (Some u))) None), sv1)
    /\ handleMessage nineDaysLater (sign_in "Ann@Example.com" "secret1") sv1
       = (Normal (mkResponse true (Some (DUser (Some u'))) None), sv2)
    /\ User.id u' = User.id u.
Proof.
  destruct (signUp_then_signIn morning nineDaysLater
              "Ann@Example.com" "secret1" " Ann " blank)
    as (u & tok & sv1 & u' & tok' & sv2 & _ & _ & Hid & Hup & Hin & _).
  - vm_compute; reflexivity.
  - vm_compute; lia.
  - vm_compute; lia.
  - reflexivity.
  - reflexivity.
  - exists u, u', sv1, sv2. repeat split; assumption.
Defined.

(** C3, as the claim states it, fails when the id drawn is already in
    use.  Ann has signed up; Bob signs up in the same millisecond and
    [Math.random] gives the same digits, so that [generateId], which
    looks at nothing else, gives Bob the id of Ann.  His sign-up
    succeeds; but [signIn] takes the first credential with that id,
    which is Ann's, and refuses Bob's password. *)
Lemma signIn_after_id_collision :
  let bob := newUser morning "bob@example.com" "Bob" in
  let sv1 := registered morning "bob@example.com" "secret2" "Bob" signedUp in
  isValidEmail "bob@example.com" = true
  /\ find (sameEmail "bob@example.com") (users (storage signedUp)) = None
  /\ signUp morning "bob@example.com" "secret2" "Bob" signedUp
     = (Normal (mkAuth (Some bob) None
                  (Some (mintToken morning (generateId morning 0) 1))), sv1)
  /\ map User.id (users (storage sv1))
     = [generateId morning 0; generateId morning 0]
  /\ signIn nineDaysLater "bob@example.com" "secret2" sv1
     = (Normal (failure "Invalid email or password"), sv1)
  /\ handleMessage nineDaysLater (sign_in "bob@example.com" "secret2") sv1
     = (Normal (mkResponse false (Some (DUser None))
                  (Some "Invalid email or password")), sv1).
Proof.
  repeat split; vm_compute; reflexivity.
Qed.

(** C4.  When [e] is the address of a stored user and the digest of
    [p] differs from the hash of that user's credential, [signIn]
    returns no user and no token but one of its error messages, and
    changes nothing; the message is "Invalid email or password" as soon
    as [e] and [p] pass the input checks.  The [sign_in] message is
    answered with [success: false], no user and that error. *)
Theorem signIn_wrong_password (env : Env) (e p : string) (sv : Service)
        (u : User.t) (c : Credential.t) :
  find (sameEmail e) (users (storage sv)) = Some u ->
  credentialOf u sv = Some c ->
  hashPassword p <> Credential.passwordHash c ->
  exists msg,
    signIn env e p sv = (Normal (mkAuth None (Some msg) None), sv)
    /\ In msg signInErrors
    /\ (JS.truthy e = true -> JS.truthy p = true -> isValidEmail e = true ->
        msg = "Invalid email or password")
    /\ handleMessage env (sign_in e p) sv
       = (Normal (mkResponse false (Some (DUser None)) (Some msg)), sv).
Proof.
  intros Hu Hc Hp.
  apply String.eqb_neq in Hp. unfold credentialOf in Hc.
  unfold handleMessage, signIn, tryCatch, bind, getStorageData, ret, failure.
  destruct (JS.truthy e) eqn:He; simpl.
  2:{ eexists; repeat split; [simpl; tauto | discriminate]. }
  destruct (JS.truthy p) eqn:Hpw; simpl.
  2:{ eexists; repeat split; [simpl; tauto | discriminate]. }
  destruct (isValidEmail e) eqn:Hv; simpl.
  2:{ eexists; repeat split; [simpl; tauto | discriminate]. }
  rewrite Hu, Hc, Hp; simpl.
  eexists; repeat split; simpl; tauto.
Qed.

Lemma signIn_wrong_password_witness :
  exists msg,
    signIn nineDaysLater "ANN@example.com" "secret2" signedUp
    = (Normal (mkAuth None (Some msg) None), signedUp)
    /\ In msg signInErrors
    /\ (JS.truthy "ANN@example.com" = true -> JS.truthy "secret2" = true ->
        isValidEmail "ANN@example.com" = true ->
        msg = "Invalid email or password")
    /\ handleMessage nineDaysLater (sign_in "ANN@example.com" "secret2") signedUp
       = (Normal (mkResponse false (Some (DUser None)) (Some msg)), signedUp).
Proof.
  apply (signIn_wrong_password nineDaysLater "ANN@example.com" "secret2"
           signedUp (newUser morning "ann@example.com" "Ann")
           (newCredential morning "ann@example.com" "secret1")).
  - vm_compute; reflexivity.
  - vm_compute; reflexivity.
  - vm_compute; discriminate.
Defined.

(** What [getCurrentUser] does with an expired session.  Take a stored
    session (user, non-empty token, non-zero expiry) whose expiry is
    strictly in the past.  When no user is memoised in the service,
    [getCurrentUser] (and the [get_user] message) returns no user and
    removes the three session keys from the storage; calling it again,
    at any time, returns no user again.  When a user is memoised, it is
    returned and the stored expiry is not looked at. *)
Theorem getCurrentUser_expired (env : Env) (sv : Service) (u : User.t)
        (tok : string) (expiry : Z) :
  currentUser (storage sv) = Some u ->
  authToken (storage sv) = Some tok ->
  JS.truthy tok = true ->
  tokenExpiry (storage sv) = Some expiry ->
  expiry <> 0%Z ->
  (expiry < now env)%Z ->
  (this_currentUser sv = None ->
   getCurrentUser env sv = (Normal None, expiredSessionCleared sv)
   /\ handleMessage env get_user sv
      = (Normal (okData (DUser None)), expiredSessionCleared sv)
   /\ currentUser (storage (expiredSessionCleared sv)) = None
   /\ authToken (storage (expiredSessionCleared sv)) = None
   /\ tokenExpiry (storage (expiredSessionCleared sv)) = None
   /\ forall env',
        getCurrentUser env' (expiredSessionCleared sv)
        = (Normal None, expiredSessionCleared sv))
  /\ (forall v, this_currentUser sv = Some v ->
                getCurrentUser env sv = (Normal (Some v), sv)).
Proof.
  intros Hu Htok Htruthy Hexp Hnz Hpast. split.
  - intros Hmem.
    assert (Hget : getCurrentUser env sv
                   = (Normal None, expiredSessionCleared sv)).
    { run_store. rewrite Hmem, Hu, Htok, Hexp, Htruthy. unfold truthyNumber.
      apply Z.eqb_neq in Hnz. rewrite Hnz.
      replace (now env >? expiry)%Z with true
        by (symmetry; apply Z.gtb_lt; lia).
      reflexivity. }
    repeat split; try reflexivity; try assumption.
    unfold handleMessage, tryCatch, bind, ret. rewrite Hget. reflexivity.
  - intros v Hmem. run_store. rewrite Hmem. simpl. now rewrite Hmem.
Qed.

Lemma getCurrentUser_expired_witness :
  getCurrentUser nineDaysLater coldStart
  = (Normal None, expiredSessionCleared coldStart)
  /\ (forall env',
         getCurrentUser env' (expiredSessionCleared coldStart)
         = (Normal None, expiredSessionCleared coldStart)).
Proof.
  destruct (getCurrentUser_expired nineDaysLater coldStart
              (newUser morning "ann@example.com" "Ann")
              "token_loyw3v28k3j9x2_1700000000000_0.k3j9x2"
              1700604800000) as [Hcold _].
  - vm_compute; reflexivity.
  - vm_compute; reflexivity.
  - reflexivity.
  - vm_compute; reflexivity.
  - discriminate.
  - vm_compute; reflexivity.
  - destruct (Hcold eq_refl) as (H1 & _ & _ & _ & _ & H2).
    split; [exact H1 | exact H2].
Defined.

(** The instance that opened the session does not see it expire: Ann
    signed up in the morning; nine days later her stored session has
    expired two days ago, and [get_user] still returns her and leaves
    the storage as it is. *)
Lemma memoised_user_outlives_expiry :
  tokenExpiry (storage signedUp) = Some 1700604800000%Z
  /\ (1700604800000 < now nineDaysLater)%Z
  /\ this_currentUser signedUp = Some (newUser morning "ann@example.com" "Ann")
  /\ getCurrentUser nineDaysLater signedUp
     = (Normal (Some (newUser morning "ann@example.com" "Ann")), signedUp)
  /\ handleMessage nineDaysLater get_user signedUp
     = (Normal (okData (DUser (Some (newUser morning "ann@example.com" "Ann")))),
        signedUp).
Proof.
  repeat split; vm_compute; reflexivity.
Qed.

(** The constructor's [initialize] memoises the stored user without
    looking at the expiry either. *)
Lemma initialize_memoises (sv : Service) (u : User.t) :
  currentUser (storage sv) = Some u ->
  initialize sv = (Normal tt, mkService (Some u) true (storage sv)).
Proof.
  intros Hu. unfold initialize, tryCatch, bind, storage_get,
    set_this_currentUser, ret. now rewrite Hu.
Qed.

(** C2.  The code at an expired session.  Ann signed up in the morning
    and her session expired after seven days.  On the ninth day the
    service is constructed anew on her storage: [initialize] memoises
    the stored user, and [get_user] then returns Ann and leaves the three
    session keys where they are, whereas the claim has the session
    treated as absent and cleared on every read.  The expiry is checked
    by [getCurrentUser] itself when it loads the session from the
    storage, and by [verifyToken], which signs Ann out here: only the
    memoised path misses it. *)
Theorem expired_session_survives_restart :
  let ann := newUser morning "ann@example.com" "Ann" in
  let restarted := snd (initialize coldStart) in
  tokenExpiry (storage coldStart) = Some 1700604800000%Z
  /\ (1700604800000 < now nineDaysLater)%Z
  /\ restarted = mkService (Some ann) true (storage coldStart)
  /\ handleMessage nineDaysLater get_user restarted
     = (Normal (okData (DUser (Some ann))), restarted)
  /\ currentUser (storage (after nineDaysLater get_user restarted)) = Some ann
  /\ getCurrentUser nineDaysLater coldStart
     = (Normal None, expiredSessionCleared coldStart)
  /\ StoreOps.verifyToken nineDaysLater
       "token_loyw3v28k3j9x2_1700000000000_0.k3j9x2" restarted
     = (Normal None, expiredSessionCleared restarted).
Proof.
  repeat split; vm_compute; reflexivity.
Qed.

End StoreProofs.

(* ================================================================== *)
(** * The dispatcher without a session, and the activity log *)
(* ================================================================== *)

Module DispatcherProofs.
Import Store Background Terms Scenarios.

Ltac run_store := StoreProofs.run_store.

(** C5, as the code has it.  With no current user in the service, the
    store operations behind [save_summary], [save_leads] and
    [save_price_monitor] throw "User not authenticated", and the
    dispatcher, which has no check of its own, answers these messages
    with [{success: false, error: "User not authenticated"}]; nothing
    is stored.  [logUserActivity] returns silently instead: the
    [log_activity] message is answered with [{success: true}] and
    nothing is logged. *)
Theorem mutations_without_session (env : Env) (sv : Service) :
  this_currentUser sv = None ->
  (forall d, saveContentSummary env d sv = (Throw "User not authenticated", sv))
  /\ (forall l, saveLeads env l sv = (Throw "User not authenticated", sv))
  /\ (forall d, savePriceMonitor env d sv = (Throw "User not authenticated", sv))
  /\ (forall d, handleMessage env (save_summary d) sv
                = (Normal (mkResponse false None
                             (Some "User not authenticated")), sv))
  /\ (forall l src, handleMessage env (save_leads l src) sv
                = (Normal (mkResponse false None
                             (Some "User not authenticated")), sv))
  /\ (forall d, handleMessage env (save_price_monitor d) sv
                = (Normal (mkResponse false None
                             (Some "User not authenticated")), sv))
  /\ (forall a d, logUserActivity env a d sv = (Normal tt, sv))
  /\ (forall a d, handleMessage env (log_activity a d) sv
                = (Normal (mkResponse true None None), sv)).
Proof.
  intros Hmem. repeat split; intros; run_store; rewrite Hmem; reflexivity.
Qed.

Lemma mutations_without_session_witness :
  handleMessage morning (save_leads [] (JString "https://example.com/")) blank
  = (Normal (mkResponse false None (Some "User not authenticated")), blank).
Proof.
  destruct (mutations_without_session morning blank eq_refl)
    as (_ & _ & _ & _ & H & _).
  apply H.
Defined.

(** C5, as the claim states it, fails for [log_activity]: without a
    session the answer is [{success: true}], not an authentication
    error. *)
Lemma log_activity_without_session_succeeds :
  this_currentUser blank = None
  /\ handleMessage morning (log_activity "page_visited" []) blank
     = (Normal (mkResponse true None None), blank).
Proof. split; reflexivity. Qed.

(** C10.  With no current user in the service, [get_summaries],
    [get_leads], [get_price_monitors] and [get_user_history] are
    answered with [success: true] and an empty list, whatever the
    storage holds, and change nothing. *)
Theorem reads_without_session (env : Env) (sv : Service) :
  this_currentUser sv = None ->
  (forall limit, handleMessage env (get_summaries limit) sv
                 = (Normal (mkResponse true (Some (DSummaries [])) None), sv))
  /\ (forall limit, handleMessage env (get_leads limit) sv
                 = (Normal (mkResponse true (Some (DLeads [])) None), sv))
  /\ handleMessage env get_price_monitors sv
     = (Normal (mkResponse true (Some (DMonitors [])) None), sv)
  /\ handleMessage env get_user_history sv
     = (Normal (mkResponse true (Some (DHistory [])) None), sv).
Proof.
  intros Hmem. repeat split; intros; run_store; rewrite Hmem; reflexivity.
Qed.

Lemma reads_without_session_witness :
  handleMessage nineDaysLater get_user_history coldStart
  = (Normal (mkResponse true (Some (DHistory [])) None), coldStart).
Proof.
  destruct (reads_without_session nineDaysLater coldStart eq_refl)
    as (_ & _ & _ & H).
  exact H.
Defined.

(** ** The activity log *)

Lemma pushActivity_eq (a : UserActivity.t) (l : list UserActivity.t) :
  pushActivity a l = firstn 100 (a :: l).
Proof.
  unfold pushActivity.
  destruct (100 <? List.length (a :: l))%nat eqn:E; [reflexivity|].
  apply Nat.ltb_ge in E. symmetry. now apply firstn_all2.
Qed.

Lemma pushActivity_length (a : UserActivity.t) (l : list UserActivity.t) :
  (List.length (pushActivity a l) <= 100)%nat.
Proof. rewrite pushActivity_eq. apply firstn_le_length. Qed.

Lemma log_activity_step (env : Env) (action : string)
      (details : list (string * JsonValue)) (sv : Service) :
  activityLog (after env (log_activity action details) sv)
  = match this_currentUser sv with
    | Some u =>
        firstn 100
          (UserActivity.mk (generateId env 0) (User.id u) action details
                           (now env) :: activityLog sv)
    | None => activityLog sv
    end.
Proof.
  unfold after, activityLog. run_store.
  destruct (this_currentUser sv); simpl; [apply pushActivity_eq | reflexivity].
Qed.

Lemma logCall_bounded (c : LogCall) (sv : Service) :
  bounded sv -> bounded (logCall c sv).
Proof.
  destruct c as [[env action] details]; intros H.
  unfold bounded, logCall. rewrite log_activity_step.
  destruct (this_currentUser sv); [apply firstn_le_length | exact H].
Qed.

(** C6.  From a log of at most 100 entries, after every prefix of
    every sequence of [log_activity] messages the stored log has at most
    100 entries.  A call made with a current user puts the new entry at
    the front and keeps the 99 most recent of the old ones: the log
    becomes the first 100 entries of the new entry followed by the old
    log. *)
Theorem activity_log_bounded (calls : list LogCall) (sv : Service) :
  (List.length (activityLog sv) <= 100)%nat ->
  (forall k,
      (List.length (activityLog (logCalls (firstn k calls) sv)) <= 100)%nat)
  /\ (forall env action details u,
         this_currentUser sv = Some u ->
         let entry :=
           UserActivity.mk (generateId env 0) (User.id u) action details
                           (now env) in
         activityLog (after env (log_activity action details) sv)
         = firstn 100 (entry :: activityLog sv)
         /\ activityLog (after env (log_activity action details) sv)
            = entry :: firstn 99 (activityLog sv)).
Proof.
  intros H; split.
  - intros k. revert sv H k.
    induction calls as [|c calls IH]; intros sv H k.
    + now rewrite firstn_nil.
    + destruct k as [|k]; simpl; [exact H|].
      apply IH. now apply logCall_bounded.
  - intros env action details u Hu entry.
    rewrite log_activity_step, Hu. split; reflexivity.
Qed.

Lemma activity_log_bounded_witness :
  (List.length (activityLog (logCalls (firstn 2 [visit; visit; visit]) signedUp))
   <= 100)%nat.
Proof.
  destruct (activity_log_bounded [visit; visit; visit] signedUp) as [H _].
  - vm_compute; lia.
  - apply H.
Defined.

(** The bound does not depend on the messages being [log_activity]:
    every handler of the dispatcher keeps it. *)
Section Preservation.
Variable P : Service -> Prop.

Lemma preserves_ret {A} (a : A) : preserves P (ret a).
Proof. intros sv H; exact H. Qed.

Lemma preserves_throw {A} (msg : string) : preserves P (@throw A msg).
Proof. intros sv H; exact H. Qed.

Lemma preserves_read {A} (f : Service -> A) :
  preserves P (fun sv => (Normal (f sv), sv)).
Proof. intros sv H; exact H. Qed.

Lemma preserves_bind {A B} (c : M A) (f : A -> M B) :
  preserves P c -> (forall a, preserves P (f a)) -> preserves P (bind c f).
Proof.
  intros Hc Hf sv H. unfold bind.
  specialize (Hc sv H). destruct (c sv) as [[a|msg] sv']; simpl in *.
  - now apply Hf.
  - exact Hc.
Qed.

Lemma preserves_tryCatch {A} (c : M A) (h : string -> M A) :
  preserves P c -> (forall msg, preserves P (h msg)) ->
  preserves P (tryCatch c h).
Proof.
  intros Hc Hh sv H. unfold tryCatch.
  specialize (Hc sv H). destruct (c sv) as [[a|msg] sv']; simpl in *.
  - exact Hc.
  - now apply Hh.
Qed.

End Preservation.

Lemma bounded_set_this_currentUser (u : option User.t) :
  preserves bounded (set_this_currentUser u).
Proof. intros sv H; exact H. Qed.

Lemma bounded_storage_update (f : Storage -> Storage) :
  (forall s, userActivities (f s) = userActivities s) ->
  preserves bounded (storage_update f).
Proof.
  intros Hf sv H. unfold bounded, activityLog, storage_update in *; simpl.
  now rewrite Hf.
Qed.

Lemma bounded_clear :
  preserves bounded (storage_update (fun _ => emptyStorage)).
Proof. intros sv _. unfold bounded, activityLog; simpl. lia. Qed.

Lemma bounded_push (a : UserActivity.t) (l : list UserActivity.t) :
  preserves bounded (storage_update (set_userActivities (pushActivity a l))).
Proof.
  intros sv _. unfold bounded, activityLog; simpl. apply pushActivity_length.
Qed.

Ltac keeps :=
  repeat first
    [ apply preserves_ret
    | apply preserves_throw
    | apply preserves_tryCatch; [|intros ?]
    | apply preserves_bind; [|intros ?]
    | apply (preserves_read bounded)
    | apply bounded_set_this_currentUser
    | apply bounded_clear
    | apply bounded_push
    | apply bounded_storage_update; intros ?; reflexivity
    | match goal with
      | |- preserves _ (if ?b then _ else _) => destruct b
      | |- preserves _ (match ?x with _ => _ end) => destruct x
      end ].

Lemma handleMessage_bounded (env : Env) (m : Message) :
  preserves bounded (handleMessage env m).
Proof.
  unfold handleMessage.
  destruct m; keeps;
    unfold getCurrentUser, signIn, signUp, signOut, saveContentSummary,
      saveLeads, savePriceMonitor, getUserSummaryHistory, getLeads,
      getPriceMonitors, getUserHistory, getUserUsage, logUserActivity,
      get_this_currentUser, storage_get, getStorageData, setStorageData;
    keeps.
Qed.

Lemma handleAll_bounded (calls : list (Env * Message)) (sv : Service) :
  bounded sv -> bounded (handleAll calls sv).
Proof.
  revert sv; induction calls as [|[env m] calls IH]; intros sv H; simpl.
  - exact H.
  - apply IH. now apply handleMessage_bounded.
Qed.

End DispatcherProofs.

(* ================================================================== *)
(** * Page inspection *)
(* ================================================================== *)

Module ContentProofs.
Import Regex Content Terms Scenarios JSFacts RegexFacts.

(** ** White-space collapsing *)

Lemma replaceScan_whiteSpaces (s : string) :
  replaceScan whiteSpaces " " s (run JS.isWhiteSpace s) = collapse true s
  /\ replaceScan whiteSpaces " " s 0 = collapse false s.
Proof.
  induction s as [|c s [IH1 IH0]].
  - split; reflexivity.
  - cbn [run collapse]. destruct (JS.isWhiteSpace c) eqn:Hc.
    + split.
      * cbn [replaceScan]. exact IH1.
      * cbn [replaceScan]. unfold whiteSpaces. rewrite matchHere_plus.
        cbn [run]. rewrite Hc. cbn. f_equal. exact IH1.
    + assert (H0 : replaceScan whiteSpaces " " (String c s) 0
                   = String c (collapse false s)).
      { cbn [replaceScan]. unfold whiteSpaces at 1. rewrite matchHere_plus.
        cbn [run]. rewrite Hc. f_equal. exact IH0. }
      split; exact H0.
Qed.

Lemma replaceAll_whiteSpaces (s : string) :
  replaceAll whiteSpaces " " s = collapse false s.
Proof. apply replaceScan_whiteSpaces. Qed.

Lemma tidy_collapse (s : string) :
  tidy false (collapse false s) = true
  /\ tidy true (collapse true s) = true.
Proof.
  induction s as [|c s [IH0 IH1]]; [split; reflexivity|].
  cbn [collapse]. destruct (JS.isWhiteSpace c) eqn:Hc.
  - split; [|exact IH1]. cbn. exact IH1.
  - cbn [tidy]. rewrite Hc. split; exact IH0.
Qed.

Lemma tidy_any (b : bool) (s : string) :
  tidy b s = true -> tidy false s = true.
Proof.
  destruct b; [|auto].
  destruct s as [|c s]; [reflexivity|]. cbn [tidy].
  destruct (JS.isWhiteSpace c); [|auto].
  rewrite andb_false_r. discriminate.
Qed.

Lemma tidy_tail (b : bool) (c : ascii) (s : string) :
  tidy b (String c s) = true -> exists b', tidy b' s = true.
Proof.
  cbn [tidy]. destruct (JS.isWhiteSpace c); intros H.
  - exists true. now apply andb_prop in H.
  - now exists false.
Qed.

(** After the first replacement no line feed is left for the second. *)
Lemma tidy_no_newline (b : bool) (s : string) :
  tidy b s = true -> replaceScan newLines (String "010" EmptyString) s 0 = s.
Proof.
  revert b; induction s as [|c s IH]; intros b H; [reflexivity|].
  cbn [replaceScan]. unfold newLines at 1. rewrite matchHere_plus.
  cbn [run]. unfold only.
  destruct (Ascii.eqb "010" c) eqn:Hc.
  - apply Ascii.eqb_eq in Hc; subst c. discriminate H.
  - destruct (tidy_tail _ _ _ H) as [b' Hb']. f_equal. eapply IH; eauto.
Qed.

Lemma tidy_trimStart (b : bool) (s : string) :
  tidy b s = true -> tidy false (JS.trimStart s) = true.
Proof.
  revert b; induction s as [|c s IH]; intros b H; [reflexivity|].
  cbn [JS.trimStart]. destruct (JS.isWhiteSpace c) eqn:Hc.
  - destruct (tidy_tail _ _ _ H) as [b' Hb']. eapply IH; eauto.
  - eapply tidy_any; eauto.
Qed.

Lemma tidy_trimEnd (b : bool) (s : string) :
  tidy b s = true -> tidy b (JS.trimEnd s) = true.
Proof.
  revert b; induction s as [|c s IH]; intros b H; [reflexivity|].
  cbn [JS.trimEnd]. cbn [tidy] in H.
  destruct (JS.isWhiteSpace c) eqn:Hc.
  - apply andb_prop in H as [H1 H2]. specialize (IH _ H2).
    destruct (JS.trimEnd s) eqn:E; [reflexivity|].
    cbn [tidy]. rewrite Hc, H1. exact IH.
  - specialize (IH _ H). destruct (JS.trimEnd s) eqn:E.
    + cbn [tidy]. now rewrite Hc.
    + cbn [tidy]. rewrite Hc. exact IH.
Qed.

Lemma tidy_slice0 (n : nat) (b : bool) (s : string) :
  tidy b s = true -> tidy b (JS.slice0 n s) = true.
Proof.
  revert b s; induction n as [|n IH]; intros b [|c s] H; try reflexivity.
  cbn [JS.slice0 tidy] in *. destruct (JS.isWhiteSpace c).
  - apply andb_prop in H as [H1 H2]. rewrite H1. now apply IH.
  - now apply IH.
Qed.

Lemma cleanUp_eq (s : string) :
  cleanUp s = JS.slice0 contentLimit (JS.trim (collapse false s)).
Proof.
  unfold cleanUp. rewrite replaceAll_whiteSpaces.
  unfold replaceAll.
  now rewrite (tidy_no_newline false) by apply tidy_collapse.
Qed.

Lemma cleanUp_tidy (s : string) : tidy false (cleanUp s) = true.
Proof.
  rewrite cleanUp_eq. apply tidy_slice0. unfold JS.trim.
  apply tidy_trimEnd. eapply tidy_trimStart. apply tidy_collapse.
Qed.

Lemma cleanUp_length (s : string) :
  (Z.of_nat (String.length (cleanUp s)) <= 10000)%Z.
Proof.
  unfold cleanUp. pose proof (slice0_length contentLimit
    (JS.trim (replaceAll newLines (String "010" EmptyString)
                (replaceAll whiteSpaces " " s)))) as H.
  unfold contentLimit in H at 2. lia.
Qed.

(** ** The selector loops *)

Lemma firstContent_match doc selectors sel el :
  firstMatch doc selectors sel el -> firstContent doc selectors = textOf el.
Proof.
  intros (pre & post & -> & Hpre & Hsel).
  induction pre as [|s pre IH]; simpl.
  - now rewrite Hsel.
  - rewrite (Hpre s) by now left. apply IH. intros; apply Hpre; now right.
Qed.

Lemma firstContent_none doc selectors :
  noMatch doc selectors -> firstContent doc selectors = EmptyString.
Proof.
  induction selectors as [|s l IH]; intros H; simpl; [reflexivity|].
  rewrite (H s) by now left. apply IH. intros ? ?; apply H; now right.
Qed.

Lemma query_parsed doc s :
  syntaxError doc s = None -> query doc s = inr (querySelector doc s).
Proof. unfold query. now intros ->. Qed.

Lemma probe_match doc selectors sel el :
  (forall s, In s selectors -> JS.truthy s = true) ->
  parsable doc selectors ->
  firstMatch doc selectors sel el ->
  probe doc selectors = inr (Some el, textOf el)
  /\ find (fun s => JS.truthy s && negb (isNull (querySelector doc s)))
          selectors = Some sel.
Proof.
  intros Ht Hp (pre & post & -> & Hpre & Hsel).
  induction pre as [|s pre IH]; simpl.
  - rewrite (Ht sel) by (simpl; auto). simpl.
    rewrite query_parsed by (apply Hp; simpl; auto). now rewrite Hsel.
  - rewrite (Ht s) by (simpl; auto). simpl.
    rewrite query_parsed by (apply Hp; simpl; auto).
    rewrite (Hpre s) by now left. simpl.
    apply IH.
    + intros ? ?; apply Hp; now right.
    + intros; apply Ht; now right.
    + intros; apply Hpre; now right.
Qed.

Lemma probe_none doc selectors :
  parsable doc selectors ->
  noMatch doc selectors -> probe doc selectors = inr (None, EmptyString).
Proof.
  induction selectors as [|s l IH]; intros Hp H; simpl; [reflexivity|].
  rewrite query_parsed by (apply Hp; now left).
  rewrite (H s) by now left.
  rewrite IH; [|intros ? ?; apply Hp; now right|intros ? ?; apply H; now right].
  now destruct (JS.truthy s).
Qed.

(** A caller's selector that the browser cannot parse is the first one
    probed. *)
Lemma probe_throws doc s message :
  s <> EmptyString ->
  syntaxError doc s = Some message ->
  probe doc (priceSelectors (Some s)) = inl message.
Proof.
  intros Hs He. unfold priceSelectors.
  destruct s as [|c s]; [congruence|]. cbn [JS.truthy app probe negb].
  unfold query. now rewrite He.
Qed.

Lemma priceSelectors_truthy selector s :
  In s (priceSelectors selector) -> JS.truthy s = true.
Proof.
  unfold priceSelectors. intros H. apply in_app_or in H as [H|H].
  - destruct selector as [x|]; [|contradiction].
    destruct (JS.truthy x) eqn:E; [|contradiction].
    destruct H as [<-|[]]. exact E.
  - simpl in H. repeat (destruct H as [<-|H]; [reflexivity|]). contradiction.
Qed.

(** ** [monitorPrice] *)

(** C1, as the code has it.  When the browser can parse every
    selector of the list (the caller's first, then the fixed ones) and
    none matches, or the first one that matches gives an element with
    empty text, [monitorPrice] returns the failure envelope with the
    error "No price found on this page".  When the caller's selector is
    not empty and the browser cannot parse it, [monitorPrice] returns
    the failure envelope with the message of the exception, whatever the
    page holds: no fixed selector is tried.  When the first element
    matched has a non-empty text in which the numeric pattern finds
    nothing, it returns the success envelope with the price 0, which is
    not NaN. *)
Theorem monitorPrice_outcomes (now : Z) (doc : Document)
        (selector : option string) :
  (parsable doc (priceSelectors selector) ->
   noMatch doc (priceSelectors selector) ->
   monitorPrice now doc selector = Failure "No price found on this page")
  /\ (forall sel el,
         parsable doc (priceSelectors selector) ->
         firstMatch doc (priceSelectors selector) sel el ->
         textOf el = EmptyString ->
         monitorPrice now doc selector = Failure "No price found on this page")
  /\ (forall s message,
         selector = Some s -> s <> EmptyString ->
         syntaxError doc s = Some message ->
         monitorPrice now doc selector = Failure message)
  /\ (forall sel el,
         parsable doc (priceSelectors selector) ->
         firstMatch doc (priceSelectors selector) sel el ->
         textOf el <> EmptyString ->
         Regex.matchAll priceRegex (textOf el) = [] ->
         monitorPrice now doc selector
         = Success (mkPriceData (href doc) (title doc) JS.zero "USD"
                      (Some sel) now [(JS.zero, now)])
         /\ JS.isNaN JS.zero = false).
Proof.
  split; [|split; [|split]].
  - intros Hp H. unfold monitorPrice. now rewrite probe_none.
  - intros sel el Hp Hm Ht. unfold monitorPrice.
    destruct (probe_match doc _ sel el (priceSelectors_truthy selector) Hp Hm)
      as [-> _].
    now rewrite Ht.
  - intros s message -> Hs He. unfold monitorPrice.
    now rewrite (probe_throws doc s message Hs He).
  - intros sel el Hp Hm Ht Hre. unfold monitorPrice.
    destruct (probe_match doc _ sel el (priceSelectors_truthy selector) Hp Hm)
      as [-> ->].
    unfold priceOf. rewrite Hre.
    destruct (textOf el); [congruence | split; reflexivity].
Qed.

(** On [quotePage] the selector [##], which no browser parses, stops
    the search although [.price] would match. *)
Lemma monitorPrice_outcomes_witness :
  monitorPrice 7 barePage (Some ".cost")
  = Failure "No price found on this page"
  /\ monitorPrice 7 emptyPricePage None
     = Failure "No price found on this page"
  /\ monitorPrice 7 (rejecting "##" "'##' is not a valid selector" quotePage)
                  (Some "##")
     = Failure "'##' is not a valid selector"
  /\ monitorPrice 7 quotePage None
     = Success (mkPriceData "https://shop.example/x200" "Pump X200" JS.zero
                  "USD" (Some ".price") 7 [(JS.zero, 7%Z)]).
Proof.
  split; [|split; [|split]].
  - apply (monitorPrice_outcomes 7 barePage (Some ".cost")).
    + intros s _. reflexivity.
    + intros s _. reflexivity.
  - destruct (monitorPrice_outcomes 7 emptyPricePage None) as (_ & H & _).
    apply (H ".price" (mkElement (Some EmptyString))); [| |reflexivity].
    + intros s _. reflexivity.
    + exists [], [".price-current"; ".current-price"; "[data-price]";
                  ".product-price"; ".sale-price"; ".offer-price"].
      repeat split. intros s [].
  - destruct (monitorPrice_outcomes 7
                (rejecting "##" "'##' is not a valid selector" quotePage)
                (Some "##")) as (_ & _ & H & _).
    apply (H "##"%string); [reflexivity | discriminate | reflexivity].
  - destruct (monitorPrice_outcomes 7 quotePage None) as (_ & _ & _ & H).
    apply (H ".price" (mkElement (Some "Call for price"))).
    + intros s _. reflexivity.
    + exists [], [".price-current"; ".current-price"; "[data-price]";
                  ".product-price"; ".sale-price"; ".offer-price"].
      repeat split. intros s [].
    + discriminate.
    + vm_compute; reflexivity.
Defined.

(** C1, as the claim states it, fails when a selector matches a text
    without a number: the element [.price] of this page reads "Call for
    price", the numeric pattern finds nothing in it, and the answer is a
    success with the price 0. *)
Lemma monitorPrice_invents_zero :
  querySelector quotePage ".price" = Some (mkElement (Some "Call for price"))
  /\ Regex.matchAll priceRegex "Call for price" = []
  /\ monitorPrice 7 quotePage None
     = Success (mkPriceData "https://shop.example/x200" "Pump X200"
                  (JS.Dec false 0 0) "USD" (Some ".price") 7
                  [(JS.Dec false 0 0, 7%Z)]).
Proof. repeat split; vm_compute; reflexivity. Qed.

(** What the pattern takes for a price need not be a number: here its
    first match is [...12], and [parseFloat] makes NaN of it. *)
Lemma monitorPrice_dotted_text :
  Regex.matchAll priceRegex "from...12" = ["...12"]
  /\ monitorPrice 7 dottedPage None
     = Success (mkPriceData "https://shop.example/x300" "Pump X300" JS.NaN
                  "USD" (Some ".price") 7 [(JS.NaN, 7%Z)]).
Proof. split; vm_compute; reflexivity. Qed.

(** ** [extractPageContent] *)

(** C8.  [extractPageContent] always succeeds.  Its content is the
    cleaned-up text of the first container of the selector list that
    matches, or of the body when no container matches or the text of the
    first match is empty or blank.  Cleaning up collapses each run of
    white space into one space, trims, and keeps the first 10000
    characters: the content has at most 10000 characters, no white
    space but single spaces.  The result carries the title, the url,
    the number of pieces between spaces as word count, and the time of
    the extraction. *)
Theorem extractPageContent_spec (now : Z) (doc : Document) :
  exists text,
    extractPageContent now doc
    = Success (mkPageContent (title doc) (href doc) (cleanUp text)
                 (List.length (JS.split " " (cleanUp text))) now)
    /\ (Z.of_nat (String.length (cleanUp text)) <= 10000)%Z
    /\ cleanUp text = JS.slice0 contentLimit (JS.trim (collapse false text))
    /\ tidy false (cleanUp text) = true
    /\ (forall sel el,
           firstMatch doc contentSelectors sel el ->
           JS.trim (textOf el) <> EmptyString -> text = textOf el)
    /\ (forall sel el,
           firstMatch doc contentSelectors sel el ->
           JS.trim (textOf el) = EmptyString -> text = textOf (body doc))
    /\ (noMatch doc contentSelectors -> text = textOf (body doc)).
Proof.
  unfold extractPageContent.
  set (text := if negb (JS.truthy (JS.trim (firstContent doc contentSelectors)))
               then textOf (body doc) else firstContent doc contentSelectors).
  exists text.
  split; [reflexivity|]. split; [|split; [|split; [|split; [|split]]]].
  - apply cleanUp_length.
  - apply cleanUp_eq.
  - apply cleanUp_tidy.
  - intros sel el Hm Hne. subst text.
    rewrite (firstContent_match _ _ _ _ Hm).
    destruct (JS.trim (textOf el)); [congruence | reflexivity].
  - intros sel el Hm He. subst text.
    rewrite (firstContent_match _ _ _ _ Hm), He. reflexivity.
  - intros Hn. subst text. now rewrite firstContent_none.
Qed.

Lemma extractPageContent_spec_witness :
  exists text,
    extractPageContent 7 blogPage
    = Success (mkPageContent "Notes" "https://example.org/notes"
                 (cleanUp text) (List.length (JS.split " " (cleanUp text))) 7)
    /\ text = "  Hello   big world  "
    /\ cleanUp text = "Hello big world".
Proof.
  destruct (extractPageContent_spec 7 blogPage)
    as (text & Hrun & _ & _ & _ & Hfirst & _ & _).
  exists text. split; [exact Hrun|].
  assert (E : text = "  Hello   big world  ").
  { apply (Hfirst "article" (mkElement (Some "  Hello   big world  "))).
    - exists ["main"], [roleMain; ".content"; "#content"; ".post-content";
                        ".entry-content"; ".article-content"].
      repeat split. intros s [<-|[]]. reflexivity.
    - vm_compute; discriminate. }
  split; [exact E|]. rewrite E. vm_compute; reflexivity.
Defined.

(** ** [extractLeads] *)

Lemma seen_In (x : string) (seen : list string) :
  existsb (String.eqb x) seen = true <-> In x seen.
Proof.
  rewrite existsb_exists. split.
  - intros (y & Hy & E). apply String.eqb_eq in E. now subst.
  - intros H. exists x. split; [exact H | apply String.eqb_refl].
Qed.

Lemma uniqueFrom_In (x : string) (l seen : list string) :
  In x (uniqueFrom seen l) <-> In x l /\ ~ In x seen.
Proof.
  revert seen; induction l as [|y l IH]; intros seen; simpl.
  - tauto.
  - destruct (existsb (String.eqb y) seen) eqn:E.
    + apply seen_In in E. rewrite IH. split.
      * tauto.
      * intros [[->|H] Hn]; tauto.
    + assert (Hy : ~ In y seen).
      { intros H. apply seen_In in H. congruence. }
      simpl. rewrite IH. simpl. split.
      * intros [->|[H Hn]]; [tauto|]. split; [tauto|].
        intros Hx. apply Hn. now right.
      * intros [[->|H] Hn]; [now left|].
        destruct (String.eqb_spec y x) as [->|Hne]; [now left|]. right.
        split; [exact H|]. intros [?|?]; tauto.
Qed.

Lemma uniqueFrom_NoDup (l seen : list string) : NoDup (uniqueFrom seen l).
Proof.
  revert seen; induction l as [|y l IH]; intros seen; simpl.
  - constructor.
  - destruct (existsb (String.eqb y) seen); [apply IH|].
    constructor; [|apply IH].
    rewrite uniqueFrom_In. simpl. tauto.
Qed.

Lemma unique_In (x : string) (l : list string) : In x (unique l) <-> In x l.
Proof. unfold unique. rewrite uniqueFrom_In. simpl. tauto. Qed.

Lemma unique_NoDup (l : list string) : NoDup (unique l).
Proof. apply uniqueFrom_NoDup. Qed.

Lemma occurrences_absent (m : string) (l : list string) :
  ~ In m l -> occurrences m l = 0%nat.
Proof.
  unfold occurrences. induction l as [|x l IH]; simpl; intros H; [reflexivity|].
  destruct (String.eqb_spec x m) as [->|Hne]; [tauto|]. apply IH. tauto.
Qed.

Lemma occurrences_NoDup (m : string) (l : list string) :
  NoDup l -> In m l -> occurrences m l = 1%nat.
Proof.
  unfold occurrences. induction 1 as [|x l Hx Hnd IH]; simpl; [tauto|].
  intros [->|Hin].
  - rewrite String.eqb_refl. simpl. f_equal. now apply occurrences_absent.
  - destruct (String.eqb_spec x m) as [->|Hne]; [tauto|]. now apply IH.
Qed.

Section Counting.
Variables (src : string) (now : Z).

Lemma howMany_emails (m : string) (es ps : list string) :
  howMany (emailIs m)
    (map (fun e => mkLead (Some e) None src now false) es
     ++ map (fun p => mkLead None (Some p) src now false) ps)
  = occurrences m es.
Proof.
  unfold howMany, occurrences. rewrite filter_app, length_app.
  replace (filter (emailIs m)
             (map (fun p => mkLead None (Some p) src now false) ps))
    with (@nil ExtractedLead).
  - simpl. rewrite Nat.add_0_r.
    induction es as [|e es IH]; simpl; [reflexivity|].
    unfold emailIs at 1; simpl. destruct (String.eqb e m); simpl; now rewrite IH.
  - induction ps as [|p ps IH]; simpl; [reflexivity | exact IH].
Qed.

Lemma howMany_phones (m : string) (es ps : list string) :
  howMany (phoneIs m)
    (map (fun e => mkLead (Some e) None src now false) es
     ++ map (fun p => mkLead None (Some p) src now false) ps)
  = occurrences m ps.
Proof.
  unfold howMany, occurrences. rewrite filter_app, length_app.
  replace (filter (phoneIs m)
             (map (fun e => mkLead (Some e) None src now false) es))
    with (@nil ExtractedLead).
  - simpl.
    induction ps as [|p ps IH]; simpl; [reflexivity|].
    unfold phoneIs at 1; simpl. destruct (String.eqb p m); simpl; now rewrite IH.
  - induction es as [|e es IH]; simpl; [reflexivity | exact IH].
Qed.

End Counting.

(** C9.  [extractLeads] always succeeds.  Every string that the e-mail
    pattern matches in the body text, however many times, is the
    address of exactly one lead, and every string that the phone pattern
    matches is the phone of exactly one lead; there is no other lead:
    their number is the number of distinct e-mail matches plus the
    number of distinct phone matches, and it is the reported count.
    Every lead carries the url of the page as its source and is not
    verified. *)
Theorem extractLeads_one_per_match (now : Z) (doc : Document) :
  exists data,
    extractLeads now doc = Success data
    /\ count data = List.length (leads data)
    /\ ld_source data = href doc
    /\ (forall l, In l (leads data) ->
                  source l = href doc /\ verified l = false)
    /\ List.length (leads data)
       = (List.length (unique (matchesIn doc emailRegex))
          + List.length (unique (matchesIn doc phoneRegex)))%nat
    /\ NoDup (unique (matchesIn doc emailRegex))
    /\ NoDup (unique (matchesIn doc phoneRegex))
    /\ (forall m, In m (matchesIn doc emailRegex) ->
                  howMany (emailIs m) (leads data) = 1%nat)
    /\ (forall m, In m (matchesIn doc phoneRegex) ->
                  howMany (phoneIs m) (leads data) = 1%nat)
    /\ (forall m, ~ In m (matchesIn doc emailRegex) ->
                  howMany (emailIs m) (leads data) = 0%nat)
    /\ (forall m, ~ In m (matchesIn doc phoneRegex) ->
                  howMany (phoneIs m) (leads data) = 0%nat).
Proof.
  eexists. split; [reflexivity|]. cbn [count leads ld_source].
  split; [reflexivity|]. split; [reflexivity|].
  split.
  { intros l H. apply in_app_or in H as [H|H];
      apply in_map_iff in H as (x & <- & _); split; reflexivity. }
  split.
  { now rewrite length_app, !length_map. }
  split; [apply unique_NoDup|]. split; [apply unique_NoDup|].
  split; [|split; [|split]]; intros m H.
  - rewrite howMany_emails. apply occurrences_NoDup;
      [apply unique_NoDup | now apply unique_In].
  - rewrite howMany_phones. apply occurrences_NoDup;
      [apply unique_NoDup | now apply unique_In].
  - rewrite howMany_emails. apply occurrences_absent. now rewrite unique_In.
  - rewrite howMany_phones. apply occurrences_absent. now rewrite unique_In.
Qed.

(** The text of [contactPage] contains [a@b.com] twice: one lead. *)
Lemma extractLeads_one_per_match_witness :
  matchesIn contactPage emailRegex = ["a@b.com"; "a@b.com"]
  /\ extractLeads 7 contactPage
     = Success (mkLeadsData
                  [mkLead (Some "a@b.com") None "https://example.org/contact"
                          7 false]
                  1 "https://example.org/contact")
  /\ exists data,
       extractLeads 7 contactPage = Success data
       /\ howMany (emailIs "a@b.com") (leads data) = 1%nat.
Proof.
  split; [vm_compute; reflexivity|]. split; [vm_compute; reflexivity|].
  destruct (extractLeads_one_per_match 7 contactPage)
    as (data & Hrun & _ & _ & _ & _ & _ & _ & Hone & _).
  exists data. split; [exact Hrun|].
  apply Hone. vm_compute. now left.
Defined.

(** ** [detectPageType] *)

(** [list.length > 0] says that an element is present. *)
Lemma nonEmpty_present (doc : Document) (selector : string) :
  nonEmpty (querySelectorAll doc selector) = present doc selector.
Proof.
  unfold nonEmpty, present. now destruct (querySelectorAll doc selector).
Qed.

Lemma firstRule_prefix rules rule rest doc doc' :
  fst rule doc = true ->
  (forall r, In r (rules ++ [rule]) -> fst r doc' = fst r doc) ->
  firstRule (rules ++ rule :: rest) doc' = firstRule (rules ++ rule :: rest) doc.
Proof.
  intros Hr Hagree. induction rules as [|[p t] rules IH]; simpl.
  - destruct rule as [p t]; simpl in *.
    pose proof (Hagree (p, t) (or_introl eq_refl)) as E; simpl in E.
    now rewrite E, Hr.
  - pose proof (Hagree (p, t) (or_introl eq_refl)) as E; simpl in E.
    rewrite E. destruct (p doc); [reflexivity|]. apply IH.
    intros r Hin. apply Hagree. now right.
Qed.

(** C7.  [detectPageType] is the first rule that applies in the order
    social-media domain, e-commerce domain or keyword, job-board domain
    or keyword, article-like container, form element, and [general]
    when none applies.  Once a rule applies the later ones do not count:
    a page on which the rules up to that one give the same answers has
    the same type, whatever the later rules say of it.  The type depends
    on the url, the title, the body text and the presence of the two
    kinds of element only.  When none of the first three rules applies,
    the page is an article if an article-like container is present, a
    form page if none is and a form is present, and general otherwise. *)
Theorem detectPageType_first_match (doc : Document) :
  detectPageType doc = firstRule resolutionOrder doc
  /\ (forall rules rule rest doc',
         resolutionOrder = rules ++ rule :: rest ->
         fst rule doc = true ->
         (forall r, In r (rules ++ [rule]) -> fst r doc' = fst r doc) ->
         detectPageType doc' = detectPageType doc)
  /\ (forall doc',
         href doc' = href doc -> title doc' = title doc ->
         textOf (body doc') = textOf (body doc) ->
         hasArticleContainer doc' = hasArticleContainer doc ->
         hasFormElement doc' = hasFormElement doc ->
         detectPageType doc' = detectPageType doc)
  /\ (socialMediaDomain doc = false -> ecommerceMatch doc = false ->
      jobBoardMatch doc = false ->
      detectPageType doc
      = if present doc "article, .article, .post, .blog-post" then "article"
        else if present doc "form" then "form-page"
        else "general").
Proof.
  assert (Heq : forall d, detectPageType d = firstRule resolutionOrder d).
  { intros d. unfold detectPageType, firstRule, resolutionOrder,
      socialMediaDomain, ecommerceMatch, jobBoardMatch, hasArticleContainer,
      hasFormElement, lowerUrl, lowerTitle, lowerText, textOf, articleSelector.
    rewrite !nonEmpty_present.
    destruct (textContent (body d)); reflexivity. }
  split; [apply Heq|]. split; [|split].
  - intros rules rule rest doc' Hsplit Hr Hagree.
    rewrite !Heq, Hsplit. now apply firstRule_prefix.
  - intros doc' Hh Ht Hb Ha Hf. rewrite !Heq. unfold firstRule, resolutionOrder.
    unfold socialMediaDomain, ecommerceMatch, jobBoardMatch, lowerUrl,
      lowerTitle, lowerText.
    now rewrite Hh, Ht, Hb, Ha, Hf.
  - intros Hsocial Hshop Hjob. rewrite Heq.
    unfold firstRule, resolutionOrder.
    now rewrite Hsocial, Hshop, Hjob.
Qed.

(** A LinkedIn job page with a cart phrase and a form is social media,
    and so is any page at the same address.  A page with an article
    container is an article, with or without a form; a page with a form
    only is a form page; a page with neither is general. *)
Lemma detectPageType_first_match_witness :
  detectPageType jobsOnLinkedin = "social-media"
  /\ detectPageType profileOnLinkedin = detectPageType jobsOnLinkedin
  /\ detectPageType newsPage = "article"
  /\ detectPageType plainNewsPage = detectPageType newsPage
  /\ detectPageType joinPage = "form-page"
  /\ detectPageType barePage = "general".
Proof.
  destruct (detectPageType_first_match jobsOnLinkedin) as (Hfirst & Hlater & _).
  split; [|split; [|split; [|split; [|split]]]].
  - rewrite Hfirst. vm_compute; reflexivity.
  - apply (Hlater [] (socialMediaDomain, "social-media")
                  [(ecommerceMatch, "ecommerce"); (jobBoardMatch, "job-board");
                   (hasArticleContainer, "article");
                   (hasFormElement, "form-page")]).
    + reflexivity.
    + vm_compute; reflexivity.
    + intros r [<-|[]]. vm_compute; reflexivity.
  - rewrite (proj1 (detectPageType_first_match newsPage)).
    vm_compute; reflexivity.
  - destruct (detectPageType_first_match newsPage) as (_ & Harticle & _).
    apply (Harticle [(socialMediaDomain, "social-media");
                     (ecommerceMatch, "ecommerce");
                     (jobBoardMatch, "job-board")]
                    (hasArticleContainer, "article")
                    [(hasFormElement, "form-page")]).
    + reflexivity.
    + vm_compute; reflexivity.
    + intros r [<-|[<-|[<-|[<-|[]]]]]; vm_compute; reflexivity.
  - destruct (detectPageType_first_match joinPage) as (_ & _ & _ & Hrest).
    rewrite Hrest; vm_compute; reflexivity.
  - destruct (detectPageType_first_match barePage) as (_ & _ & _ & Hrest).
    rewrite Hrest; vm_compute; reflexivity.
Defined.

End ContentProofs.

(* ================================================================== *)
(** * The dispatcher as a transition system *)
(* ================================================================== *)

Module SessionSteps.
Import Store Background StoreOps Terms MoreTerms Scenarios MoreScenarios JSFacts.

Ltac run_store := StoreProofs.run_store.

Lemma signUp_cases (env : Env) (e p n : string) (sv : Service) :
  (exists msg,
      signUp env e p n sv = (Normal (failure msg), sv) /\ In msg signUpErrors)
  \/ (isValidEmail e = true
      /\ (6 <= String.length p)%nat
      /\ (2 <= String.length (JS.trim n))%nat
      /\ find (sameEmail e) (users (storage sv)) = None
      /\ signUp env e p n sv
         = (Normal (mkAuth (Some (newUser env e n)) None
                      (Some (mintToken env (generateId env 0) 1))),
            registered env e p n sv)).
Proof.
  destruct (isValidEmail e) eqn:Hv.
  2:{ left. unfold signUp, tryCatch, bind, ret. rewrite Hv.
      destruct (JS.truthy e), (JS.truthy p), (JS.truthy n); simpl;
        eexists; (split; [reflexivity | simpl; tauto]). }
  destruct (6 <=? String.length p)%nat eqn:Hp.
  2:{ left. unfold signUp, tryCatch, bind, ret, isValidPassword.
      rewrite Hv, Hp.
      destruct (JS.truthy e), (JS.truthy p), (JS.truthy n); simpl;
        eexists; (split; [reflexivity | simpl; tauto]). }
  destruct (String.length (JS.trim n) <? 2)%nat eqn:Hn.
  { left. unfold signUp, tryCatch, bind, ret, isValidPassword.
    rewrite Hv, Hp, Hn.
    destruct (JS.truthy e), (JS.truthy p), (JS.truthy n); simpl;
      eexists; (split; [reflexivity | simpl; tauto]). }
  apply Nat.leb_le in Hp. apply Nat.ltb_ge in Hn.
  destruct (find (sameEmail e) (users (storage sv))) as [u|] eqn:Hf.
  - left. unfold signUp, tryCatch, bind, ret, getStorageData, isValidPassword.
    rewrite (StoreProofs.isValidEmail_truthy _ Hv), Hv.
    rewrite (truthy_length p) by lia. rewrite (trim_truthy n) by lia.
    replace (6 <=? String.length p)%nat with true
      by (symmetry; now apply Nat.leb_le).
    replace (String.length (JS.trim n) <? 2)%nat with false
      by (symmetry; now apply Nat.ltb_ge).
    simpl. rewrite Hf. eexists; split; [reflexivity | simpl; tauto].
  - right. repeat split; try assumption.
    now apply StoreProofs.signUp_ok.
Qed.

Lemma signIn_cases (env : Env) (e p : string) (sv : Service) :
  (exists msg,
      signIn env e p sv = (Normal (failure msg), sv) /\ In msg signInRefusals)
  \/ (exists found cred,
         find (sameEmail e) (users (storage sv)) = Some found
         /\ credentialOf found sv = Some cred
         /\ hashPassword p = Credential.passwordHash cred
         /\ signIn env e p sv
            = (Normal (mkAuth (Some (User.set_updatedAt (now env) found)) None
                         (Some (mintToken env (User.id found) 0))),
               signedIn env e found sv)).
Proof.
  unfold signIn, tryCatch, bind, ret, getStorageData, credentialOf.
  destruct (JS.truthy e); simpl;
    [|left; eexists; split; [reflexivity | simpl; tauto]].
  destruct (JS.truthy p); simpl;
    [|left; eexists; split; [reflexivity | simpl; tauto]].
  destruct (isValidEmail e); simpl;
    [|left; eexists; split; [reflexivity | simpl; tauto]].
  destruct (find (sameEmail e) (users (storage sv))) as [found|] eqn:Hf;
    [|left; eexists; split; [reflexivity | simpl; tauto]].
  destruct (find _ (userCredentials (storage sv))) as [cred|] eqn:Hc;
    [|left; eexists; split; [reflexivity | simpl; tauto]].
  destruct (String.eqb_spec (hashPassword p) (Credential.passwordHash cred))
    as [Hh|Hh]; simpl;
    [|left; eexists; split; [reflexivity | simpl; tauto]].
  right. exists found, cred. repeat split; try assumption.
  unfold signedIn, touchedUsers, setStorageData, storage_update,
    set_this_currentUser. simpl.
  destruct (findIndex _ _); reflexivity.
Qed.

Ltac step_done :=
  simpl;
  first [ apply step_none
        | apply step_drop
        | match goal with
          | H : this_currentUser ?sv = Some ?u |- _ =>
              apply (step_collections _ _ _ u); simpl; auto; fail
          end
        | match goal with
          | H : this_currentUser ?sv = Some ?u |- _ =>
              rewrite H; simpl;
              first [ apply step_none
                    | apply (step_collections _ _ _ u); simpl; auto ]
          end
        | match goal with
          | H : this_currentUser ?sv = None |- _ =>
              rewrite H; simpl; apply step_none
          end ].

Lemma getCurrentUser_step (env : Env) (m : Message) (sv : Service) :
  Step env m sv (snd (getCurrentUser env sv)).
Proof.
  run_store.
  destruct (this_currentUser sv) as [v|] eqn:Hmem; [step_done|].
  destruct (currentUser (storage sv)) as [u|] eqn:Hu; [|step_done].
  destruct (authToken (storage sv)) as [tok|]; [|step_done].
  destruct (tokenExpiry (storage sv)) as [expiry|]; [|step_done].
  destruct (JS.truthy tok && truthyNumber expiry); [|step_done].
  destruct (now env >? expiry)%Z; [step_done|].
  simpl. now apply step_load.
Qed.

Theorem handleMessage_step (env : Env) (m : Message) (sv : Service) :
  Step env m sv (after env m sv).
Proof.
  unfold after. destruct m eqn:Hm.
  - apply step_none.
  - pose proof (getCurrentUser_step env m sv) as H; rewrite Hm in H.
    unfold handleMessage, tryCatch, bind, ret.
    destruct (getCurrentUser env sv) as [[r|msg] sv']; exact H.
  - unfold handleMessage, tryCatch, bind, ret.
    destruct (signIn_cases env email password sv)
      as [(msg & -> & _)|(found & cred & Hf & _ & _ & ->)]; simpl.
    + apply step_none.
    + now apply (step_signIn _ _ _ email password).
  - unfold handleMessage, tryCatch, bind, ret.
    destruct (signUp_cases env email password name sv)
      as [(msg & -> & _)|(_ & _ & _ & Hf & ->)]; simpl.
    + apply step_none.
    + now apply step_signUp.
  - apply step_drop.
  - run_store. destruct (this_currentUser sv) as [u|] eqn:Hmem; step_done.
  - run_store. destruct (this_currentUser sv) as [u|] eqn:Hmem; step_done.
  - run_store. destruct (this_currentUser sv) as [u|] eqn:Hmem; step_done.
  - run_store. destruct (this_currentUser sv) as [u|] eqn:Hmem; step_done.
  - run_store. destruct (this_currentUser sv) as [u|] eqn:Hmem; step_done.
  - run_store. destruct (this_currentUser sv) as [u|] eqn:Hmem; step_done.
  - pose proof (getCurrentUser_step env m sv) as H; rewrite Hm in H.
    unfold handleMessage, getUserUsage, getStorageData, tryCatch, bind, ret.
    destruct (getCurrentUser env sv) as [[[u|]|msg] sv']; simpl in *;
      exact H.
  - run_store. destruct (this_currentUser sv) as [u|] eqn:Hmem; step_done.
  - run_store. destruct (this_currentUser sv) as [u|] eqn:Hmem; step_done.
  - now apply step_clear.
  - apply step_none.
Qed.

(** ** What sign-in does to the list of users *)

Lemma updateFirst_ids (p : User.t -> bool) (d : Z) (l : list User.t) :
  map User.id (updateFirst p (User.set_updatedAt d) l) = map User.id l.
Proof.
  induction l as [|x l IH]; simpl; [reflexivity|].
  destruct (p x); simpl; [reflexivity | now rewrite IH].
Qed.

Lemma updateFirst_emails (p : User.t -> bool) (d : Z) (l : list User.t) :
  map lowerEmail (updateFirst p (User.set_updatedAt d) l) = map lowerEmail l.
Proof.
  induction l as [|x l IH]; simpl; [reflexivity|].
  destruct (p x); simpl; [reflexivity | now rewrite IH].
Qed.

Lemma assign_ids (i : nat) (x : User.t) (l : list User.t) :
  findIndex (fun u => String.eqb (User.id u) (User.id x)) l = Some i ->
  map User.id (assign i x l) = map User.id l.
Proof.
  revert i; induction l as [|y l IH]; intros i; simpl; [discriminate|].
  destruct (String.eqb_spec (User.id y) (User.id x)) as [E|E].
  - intros [= <-]. simpl. now rewrite E.
  - destruct (findIndex _ l) as [j|]; [|discriminate].
    intros [= <-]. simpl. now rewrite (IH j).
Qed.

Lemma touchedUsers_ids (env : Env) (e : string) (found : User.t)
      (l : list User.t) :
  map User.id (touchedUsers env e found l) = map User.id l.
Proof.
  unfold touchedUsers.
  destruct (findIndex _ _) as [i|] eqn:E; [|reflexivity].
  rewrite (assign_ids _ _ _ E). apply updateFirst_ids.
Qed.

(** With distinct ids the second write of sign-in changes nothing. *)
Lemma touchedUsers_distinct (env : Env) (e : string) (found : User.t)
      (l : list User.t) :
  NoDup (map User.id l) ->
  find (sameEmail e) l = Some found ->
  touchedUsers env e found l
  = updateFirst (sameEmail e) (User.set_updatedAt (now env)) l.
Proof.
  unfold touchedUsers. simpl.
  induction l as [|x l IH]; simpl; [discriminate|].
  intros Hnd Hf. inversion Hnd as [|? ? Hx Hnd']; subst.
  destruct (sameEmail e x) eqn:Hp.
  - injection Hf as <-. simpl. rewrite String.eqb_refl. reflexivity.
  - simpl.
    destruct (String.eqb_spec (User.id x) (User.id found)) as [E|E].
    + exfalso. apply Hx. rewrite E. apply in_map.
      now apply find_some in Hf.
    + specialize (IH Hnd' Hf).
      destruct (findIndex _ _) as [i|]; simpl; f_equal; exact IH.
Qed.

(** ** Invariants *)

Lemma find_none_lowerEmail (e : string) (l : list User.t) :
  find (sameEmail e) l = None -> ~ In (JS.toLowerCase e) (map lowerEmail l).
Proof.
  intros Hf Hin. apply in_map_iff in Hin as (u & Hu & Hin).
  pose proof (find_none _ _ Hf u Hin) as H. unfold sameEmail in H.
  unfold lowerEmail in Hu. rewrite Hu, String.eqb_refl in H. discriminate.
Qed.

Lemma NoDup_snoc {A} (l : list A) (x : A) :
  NoDup l -> ~ In x l -> NoDup (l ++ [x]).
Proof.
  intros Hl Hx. apply NoDup_app; [exact Hl | repeat constructor; auto |].
  intros y Hy [<-|[]]. contradiction.
Qed.

Lemma step_aligned (env : Env) (m : Message) (sv sv' : Service) :
  Step env m sv sv' -> aligned sv -> aligned sv'.
Proof.
  unfold aligned. intros Hstep H.
  destruct Hstep as [|e0 p0 n0 Hm Hnone|e0 p0 found Hm Hfound| |u0 Hm0 Hu0|u0 st Hm0 E1 E2 E3 E4 E5|Hm];
    simpl; auto.
  - rewrite !map_app, H. reflexivity.
  - now rewrite touchedUsers_ids.
  - congruence.
Qed.

Lemma step_sessionWhole (env : Env) (m : Message) (sv sv' : Service) :
  Step env m sv sv' -> sessionWhole sv -> sessionWhole sv'.
Proof.
  unfold sessionWhole. intros Hstep H.
  destruct Hstep as [|e0 p0 n0 Hm Hnone|e0 p0 found Hm Hfound| |u0 Hm0 Hu0|u0 st Hm0 E1 E2 E3 E4 E5|Hm];
    simpl;
    first [ assumption
          | left; repeat split; reflexivity
          | right; do 3 eexists; repeat split; reflexivity
          | idtac ].
  rewrite E3, E4, E5. exact H.
Qed.

Lemma step_distinctAccounts (env : Env) (m : Message) (sv sv' : Service) :
  Step env m sv sv' -> freshUserId env sv ->
  distinctAccounts sv -> distinctAccounts sv'.
Proof.
  unfold distinctAccounts, freshUserId. intros Hstep Hfresh [Hid Hem].
  destruct Hstep as [|e0 p0 n0 Hm Hnone|e0 p0 found Hm Hfound| |u0 Hm0 Hu0|u0 st Hm0 E1 E2 E3 E4 E5|Hm];
    simpl; auto.
  - rewrite !map_app. simpl. split.
    + now apply NoDup_snoc.
    + apply NoDup_snoc; [exact Hem|].
      unfold lowerEmail at 1; simpl. rewrite toLowerCase_idem.
      now apply find_none_lowerEmail.
  - rewrite touchedUsers_ids. split; [exact Hid|].
    rewrite touchedUsers_distinct by assumption.
    now rewrite updateFirst_emails.
  - split; congruence.
  - split; constructor.
Qed.

End SessionSteps.

(* ================================================================== *)
(** * Sessions and accounts under any sequence of messages *)
(* ================================================================== *)

Module SessionProofs.
Import Store Background StoreOps Terms MoreTerms Scenarios MoreScenarios JSFacts SessionSteps.

Ltac run_store := StoreProofs.run_store.

(** ** Signing out *)

Lemma get_user_noSession (env : Env) (sv : Service) :
  noSession sv ->
  handleMessage env get_user sv = (Normal (okData (DUser None)), sv).
Proof.
  intros [Hmem Hst]. run_store. rewrite Hmem, Hst. simpl. now rewrite Hmem.
Qed.

Lemma noSession_kept (env : Env) (m : Message) (sv : Service) :
  opensSession m = false -> noSession sv -> noSession (after env m sv).
Proof.
  intros Hm [Hmem Hst]. unfold after.
  destruct m; try discriminate Hm;
    try (run_store; rewrite ?Hmem, ?Hst; simpl; rewrite ?Hmem;
         simpl; split; auto; fail).
Qed.

Lemma noSession_handleAll (calls : list (Env * Message)) (sv : Service) :
  (forall c, In c calls -> opensSession (snd c) = false) ->
  noSession sv -> noSession (handleAll calls sv).
Proof.
  revert sv; induction calls as [|[env m] calls IH]; intros sv Hc H; simpl.
  - exact H.
  - apply IH.
    + intros c Hin. apply Hc. now right.
    + apply noSession_kept; [|exact H]. apply (Hc (env, m)). now left.
Qed.

(** X1.  After [sign_out], [get_user] returns no user, and keeps
    doing so whatever messages follow, until a [sign_in] or a [sign_up]:
    the sign-out is answered with success, and drops the memoised user
    and the three stored session keys. *)
Theorem sign_out_ends_session (env env' : Env)
        (calls : list (Env * Message)) (sv : Service) :
  (forall c, In c calls -> opensSession (snd c) = false) ->
  handleMessage env sign_out sv
  = (Normal (mkResponse true None None), withoutSession sv)
  /\ handleMessage env' get_user (handleAll calls (withoutSession sv))
     = (Normal (mkResponse true (Some (DUser None)) None),
        handleAll calls (withoutSession sv))
  /\ fst (StoreOps.isAuthenticated env' (handleAll calls (withoutSession sv)))
     = Normal false.
Proof.
  intros Hc. split; [reflexivity|].
  assert (H : noSession (handleAll calls (withoutSession sv))).
  { apply noSession_handleAll; [exact Hc | split; reflexivity]. }
  split; [now apply get_user_noSession|].
  destruct H as [Hmem Hst].
  unfold isAuthenticated. run_store. rewrite Hmem, Hst. simpl.
  now rewrite Hmem.
Qed.

Lemma sign_out_ends_session_witness :
  handleMessage nineDaysLater get_user
    (handleAll [(noon, save_summary aSummary); (noon, get_leads None);
                (noon, clear_all_data)]
               (withoutSession signedUp))
  = (Normal (mkResponse true (Some (DUser None)) None),
     handleAll [(noon, save_summary aSummary); (noon, get_leads None);
                (noon, clear_all_data)]
               (withoutSession signedUp)).
Proof.
  apply (sign_out_ends_session morning nineDaysLater
           [(noon, save_summary aSummary); (noon, get_leads None);
            (noon, clear_all_data)] signedUp).
  intros c [<-|[<-|[<-|[]]]]; reflexivity.
Defined.

(** ** Refusals *)

(** ** When the browser rejects a call *)

(** With a browser that rejects nothing, [signUp], [signIn] and
    [signOut] are those of the rest of this file. *)
Lemma reliable_browser (env : Env) (e p n : string) (sv : Service) :
  Faults.signUp Faults.reliable env e p n sv = signUp env e p n sv
  /\ Faults.signIn Faults.reliable env e p sv = signIn env e p sv
  /\ Faults.signOut Faults.reliable sv = signOut sv.
Proof. repeat split. Qed.

Ltac run_faults :=
  unfold Faults.signUp, Faults.signIn, Faults.signOut, Faults.getStorageData,
    Faults.setStorageData, Faults.storage_call, tryCatch, bind, ret, throw,
    getStorageData, setStorageData, storage_update, set_this_currentUser.

Ltac refused :=
  do 2 eexists; split; [reflexivity|];
  right; left; eexists; split; [reflexivity|]; split; [simpl; tauto|];
  reflexivity.

Ltac settled :=
  do 2 eexists; split; [reflexivity|];
  first [ left; split; [reflexivity|]; do 2 eexists; repeat split; reflexivity
        | right; right; do 2 eexists; split; [reflexivity|];
          repeat split; reflexivity ].

(** X2.  [signUp] and [signIn] always return normally, whatever calls
    the browser rejects, and in one of three ways.  With a user, a token
    and no error: then the user is the current user and the session is
    stored.  With no user, no token and one of their fixed messages:
    then the service is exactly as it was.  Or, when the browser rejects
    the write of the session, with no user, no token and the message of
    the rejection: then the user is the current user of the service all
    the same, [getCurrentUser] returns it, and the session keys of the
    storage are as they were.  The third way needs a rejected write:
    with a browser that rejects nothing the two functions are the
    [signUp] and [signIn] of the rest of this file. *)
Theorem authentication_outcomes (browser : Faults.Browser) (env env' : Env)
        (e p n : string) (sv : Service) :
  let outcome (refusals : list string) (r : AuthResult) (sv' : Service) :=
    (browser Faults.WriteSession = None
     /\ exists u tok,
          r = mkAuth (Some u) None (Some tok)
          /\ this_currentUser sv' = Some u
          /\ currentUser (storage sv') = Some u
          /\ authToken (storage sv') = Some tok
          /\ tokenExpiry (storage sv') = Some (now env + sevenDays)%Z)
    \/ (exists msg,
           r = mkAuth None (Some msg) None /\ In msg refusals /\ sv' = sv)
    \/ (exists msg u,
           browser Faults.WriteSession = Some msg
           /\ r = mkAuth None (Some msg) None
           /\ this_currentUser sv' = Some u
           /\ getCurrentUser env' sv' = (Normal (Some u), sv')
           /\ currentUser (storage sv') = currentUser (storage sv)
           /\ authToken (storage sv') = authToken (storage sv)
           /\ tokenExpiry (storage sv') = tokenExpiry (storage sv)) in
  (exists r sv',
      Faults.signUp browser env e p n sv = (Normal r, sv')
      /\ outcome signUpErrors r sv')
  /\ (exists r sv',
         Faults.signIn browser env e p sv = (Normal r, sv')
         /\ outcome signInRefusals r sv')
  /\ Faults.signUp Faults.reliable env e p n sv = signUp env e p n sv
  /\ Faults.signIn Faults.reliable env e p sv = signIn env e p sv.
Proof.
  intros outcome. subst outcome. cbv beta.
  split; [|split; [|split; reflexivity]].
  - run_faults.
    destruct (negb (JS.truthy e) || negb (JS.truthy p) || negb (JS.truthy n));
      [refused|].
    destruct (negb (isValidEmail e)); [refused|].
    destruct (negb (isValidPassword p)); [refused|].
    destruct (String.length (JS.trim n) <? 2)%nat; [refused|].
    destruct (browser Faults.ReadUsers); cbn -[sevenDays];
      [|destruct (find (sameEmail e) (users (storage sv))); [refused|]];
      destruct (browser Faults.WriteUsers), (browser Faults.ReadCredentials),
        (browser Faults.WriteCredentials),
        (browser Faults.WriteSession); cbn -[sevenDays];
      settled.
  - run_faults.
    destruct (negb (JS.truthy e) || negb (JS.truthy p)); [refused|].
    destruct (negb (isValidEmail e)); [refused|].
    destruct (browser Faults.ReadUsers); cbn -[sevenDays]; [refused|].
    destruct (find (sameEmail e) (users (storage sv))) as [found|];
      [|refused].
    destruct (browser Faults.ReadCredentials); cbn -[sevenDays]; [refused|].
    destruct (find _ (userCredentials (storage sv))) as [cred|]; [|refused].
    destruct (negb (String.eqb (hashPassword p) (Credential.passwordHash cred)));
      [refused|].
    destruct (findIndex _ _); destruct (browser Faults.WriteUsers),
      (browser Faults.WriteSession); cbn -[sevenDays];
      settled.
Qed.

Lemma authentication_outcomes_witness :
  exists r sv',
    Faults.signUp
      (fun call => match call with
                   | Faults.WriteSession => Some "QUOTA_BYTES quota exceeded"
                   | _ => None
                   end)
      morning "ann@example.com" "secret1" "Ann" blank = (Normal r, sv')
    /\ Store.error r = Some "QUOTA_BYTES quota exceeded"
    /\ Store.user r = None
    /\ this_currentUser sv' = Some (newUser morning "ann@example.com" "Ann").
Proof.
  destruct (authentication_outcomes
              (fun call => match call with
                           | Faults.WriteSession =>
                               Some "QUOTA_BYTES quota exceeded"
                           | _ => None
                           end)
              morning nineDaysLater "ann@example.com" "secret1" "Ann" blank)
    as ((r & sv' & Hrun & Hout) & _).
  exists r, sv'. split; [exact Hrun|].
  assert (Hr : (r, sv')
               = (failure "QUOTA_BYTES quota exceeded",
                  mkService (Some (newUser morning "ann@example.com" "Ann"))
                    false
                    (set_userCredentials
                       [newCredential morning "ann@example.com" "secret1"]
                       (set_users [newUser morning "ann@example.com" "Ann"]
                          emptyStorage)))).
  { vm_compute in Hrun. injection Hrun as <- <-. vm_compute. reflexivity. }
  injection Hr as -> ->. repeat split.
Defined.

(** X3.  An address is registered once.  After a successful sign-up
    with [e], a sign-up with an address that differs from [e] by case
    only is refused with "An account with this email already exists"
    (its other inputs being acceptable), whoever is or is not signed in
    then, and changes nothing. *)
Theorem email_registered_once (env env' : Env) (e p n e' p' n' : string)
        (sv sv1 : Service) :
  isValidEmail e = true ->
  (6 <= String.length p)%nat ->
  (2 <= String.length (JS.trim n))%nat ->
  find (sameEmail e) (users (storage sv)) = None ->
  users (storage sv1) = users (storage (registered env e p n sv)) ->
  JS.toLowerCase e' = JS.toLowerCase e ->
  isValidEmail e' = true ->
  (6 <= String.length p')%nat ->
  (2 <= String.length (JS.trim n'))%nat ->
  signUp env e p n sv
  = (Normal (mkAuth (Some (newUser env e n)) None
               (Some (mintToken env (generateId env 0) 1))),
     registered env e p n sv)
  /\ handleMessage env' (sign_up e' p' n') sv1
     = (Normal (mkResponse false (Some (DUser None))
                  (Some "An account with this email already exists")), sv1).
Proof.
  intros Hv Hp Hn Hnone Husers Hcase Hv' Hp' Hn'.
  split; [now apply StoreProofs.signUp_ok|].
  assert (Hf : exists u, find (sameEmail e') (users (storage sv1)) = Some u).
  { rewrite Husers. simpl.
    exists (newUser env e n). apply StoreProofs.find_last_only.
    - unfold sameEmail in *. rewrite Hcase. exact Hnone.
    - unfold sameEmail. simpl. rewrite toLowerCase_idem, Hcase.
      apply String.eqb_refl. }
  destruct Hf as [u Hf].
  unfold handleMessage, signUp, tryCatch, bind, ret, getStorageData.
  rewrite (StoreProofs.isValidEmail_truthy _ Hv'), Hv'.
  rewrite (truthy_length p') by lia. rewrite (trim_truthy n') by lia.
  replace (isValidPassword p') with true by (symmetry; now apply Nat.leb_le).
  replace (String.length (JS.trim n') <? 2)%nat with false
    by (symmetry; now apply Nat.ltb_ge).
  simpl. rewrite Hf. reflexivity.
Qed.

Lemma email_registered_once_witness :
  handleMessage noon (sign_up "ANN@Example.COM" "another" "Anna") signedUp
  = (Normal (mkResponse false (Some (DUser None))
               (Some "An account with this email already exists")), signedUp).
Proof.
  apply (email_registered_once morning noon "ann@example.com" "secret1" "Ann"
           "ANN@Example.COM" "another" "Anna" blank signedUp).
  - vm_compute; reflexivity.
  - vm_compute; lia.
  - vm_compute; lia.
  - reflexivity.
  - vm_compute; reflexivity.
  - vm_compute; reflexivity.
  - vm_compute; reflexivity.
  - vm_compute; lia.
  - vm_compute; lia.
Defined.

(** ** The session that sign-up and sign-in open *)

(** What a successful [signUp] or [signIn] leaves in the storage. *)
Lemma opened_session (env : Env) (e p n : string) (sv sv1 : Service)
      (r : AuthResult) (u : User.t) (tok : string) :
  signUp env e p n sv = (Normal r, sv1)
  \/ signIn env e p sv = (Normal r, sv1) ->
  user r = Some u -> token r = Some tok ->
  this_currentUser sv1 = Some u
  /\ currentUser (storage sv1) = Some u
  /\ authToken (storage sv1) = Some tok
  /\ tokenExpiry (storage sv1) = Some (now env + sevenDays)%Z
  /\ JS.truthy tok = true.
Proof.
  intros [H|H] Hu Htok.
  - destruct (signUp_cases env e p n sv)
      as [(msg & H' & _)|(_ & _ & _ & _ & H')]; rewrite H' in H;
      injection H as <- <-; [discriminate Hu|].
    simpl in Hu, Htok. injection Hu as <-. injection Htok as <-.
    repeat split.
  - destruct (signIn_cases env e p sv)
      as [(msg & H' & _)|(found & cred & _ & _ & _ & H')]; rewrite H' in H;
      injection H as <- <-; [discriminate Hu|].
    simpl in Hu, Htok. injection Hu as <-. injection Htok as <-.
    repeat split.
Qed.

(** X4.  The session that a successful sign-up or sign-in writes lasts
    seven days.  The instance that opened it returns its user on every
    [getCurrentUser].  An instance of the service that has nothing
    memoised and reads the same storage returns the user, and memoises
    it, up to and including the seventh day; afterwards it returns no
    user and removes the session.  (The clock is taken to be past
    1970.) *)
Theorem session_lasts_seven_days (env env' : Env) (e p n : string)
        (sv sv1 : Service) (r : AuthResult) (u : User.t) :
  signUp env e p n sv = (Normal r, sv1)
  \/ signIn env e p sv = (Normal r, sv1) ->
  user r = Some u ->
  (0 <= now env)%Z ->
  getCurrentUser env' sv1 = (Normal (Some u), sv1)
  /\ ((now env' <= now env + 7 * 86400000)%Z ->
      getCurrentUser env' (otherInstance sv1)
      = (Normal (Some u), mkService (Some u) false (storage sv1)))
  /\ ((now env + 7 * 86400000 < now env')%Z ->
      getCurrentUser env' (otherInstance sv1)
      = (Normal None, withoutSession (otherInstance sv1))).
Proof.
  intros Hopen Hu Hclock.
  assert (Htok : exists tok, token r = Some tok).
  { destruct Hopen as [H|H].
    - destruct (signUp_cases env e p n sv)
        as [(msg & H' & _)|(_ & _ & _ & _ & H')]; rewrite H' in H;
        injection H as <- <-; [discriminate Hu | eexists; reflexivity].
    - destruct (signIn_cases env e p sv)
        as [(msg & H' & _)|(found & cred & _ & _ & _ & H')]; rewrite H' in H;
        injection H as <- <-; [discriminate Hu | eexists; reflexivity]. }
  destruct Htok as [tok Htok].
  destruct (opened_session env e p n sv sv1 r u tok Hopen Hu Htok)
    as (Hmem & Hcur & Hauth & Hexp & Htruthy).
  assert (Hnz : truthyNumber (now env + sevenDays) = true).
  { unfold truthyNumber, sevenDays.
    replace (now env + 7 * 24 * 60 * 60 * 1000 =? 0)%Z with false;
      [reflexivity | symmetry; apply Z.eqb_neq; lia]. }
  split; [|split].
  - run_store. rewrite Hmem. simpl. now rewrite Hmem.
  - intros Hle. unfold otherInstance. run_store. simpl.
    rewrite Hcur, Hauth, Hexp, Htruthy, Hnz. simpl.
    replace (now env' >? now env + sevenDays)%Z with false;
      [reflexivity|].
    symmetry. unfold sevenDays. rewrite Z.gtb_ltb. apply Z.ltb_ge. lia.
  - intros Hlt. unfold otherInstance. run_store. simpl.
    rewrite Hcur, Hauth, Hexp, Htruthy, Hnz. simpl.
    replace (now env' >? now env + sevenDays)%Z with true;
      [reflexivity|].
    symmetry. unfold sevenDays. apply Z.gtb_lt. lia.
Qed.

Lemma session_lasts_seven_days_witness :
  getCurrentUser noon (otherInstance signedUp)
  = (Normal (Some (newUser morning "ann@example.com" "Ann")),
     mkService (Some (newUser morning "ann@example.com" "Ann")) false
               (storage signedUp))
  /\ getCurrentUser nineDaysLater (otherInstance signedUp)
     = (Normal None, withoutSession (otherInstance signedUp)).
Proof.
  destruct (session_lasts_seven_days morning noon
              "ann@example.com" "secret1" "Ann" blank signedUp
              (mkAuth (Some (newUser morning "ann@example.com" "Ann")) None
                      (Some annsToken))
              (newUser morning "ann@example.com" "Ann"))
    as (_ & Hin & _).
  - left. vm_compute; reflexivity.
  - reflexivity.
  - vm_compute; discriminate.
  - destruct (session_lasts_seven_days morning nineDaysLater
                "ann@example.com" "secret1" "Ann" blank signedUp
                (mkAuth (Some (newUser morning "ann@example.com" "Ann")) None
                        (Some annsToken))
                (newUser morning "ann@example.com" "Ann"))
      as (_ & _ & Hout).
    + left. vm_compute; reflexivity.
    + reflexivity.
    + vm_compute; discriminate.
    + split.
      * apply Hin. vm_compute; discriminate.
      * apply Hout. vm_compute; reflexivity.
Defined.

(** X5.  The token that a successful sign-up or sign-in returns is
    the one [verifyToken] accepts: on any instance reading the storage
    it gives back the user, and memoises it, up to and including the
    seventh day; afterwards it gives no user and signs out.  Any other
    token gives no user and changes nothing.  (The clock is taken to be
    past 1970.) *)
Theorem token_round_trip (env env' : Env) (e p n : string)
        (sv sv1 sv2 : Service) (r : AuthResult) (u : User.t) (tok : string) :
  signUp env e p n sv = (Normal r, sv1)
  \/ signIn env e p sv = (Normal r, sv1) ->
  user r = Some u -> token r = Some tok ->
  (0 <= now env)%Z ->
  storage sv2 = storage sv1 ->
  ((now env' <= now env + 7 * 86400000)%Z ->
   verifyToken env' tok sv2
   = (Normal (Some u), mkService (Some u) (isInitialized sv2) (storage sv2)))
  /\ ((now env + 7 * 86400000 < now env')%Z ->
      verifyToken env' tok sv2 = (Normal None, withoutSession sv2))
  /\ (forall other, other <> tok ->
                    verifyToken env' other sv2 = (Normal None, sv2)).
Proof.
  intros Hopen Hu Htok Hclock Hst.
  destruct (opened_session env e p n sv sv1 r u tok Hopen Hu Htok)
    as (_ & Hcur & Hauth & Hexp & _).
  rewrite <- Hst in Hcur, Hauth, Hexp.
  assert (Hnz : truthyNumber (now env + sevenDays) = true).
  { unfold truthyNumber, sevenDays.
    replace (now env + 7 * 24 * 60 * 60 * 1000 =? 0)%Z with false;
      [reflexivity | symmetry; apply Z.eqb_neq; lia]. }
  split; [|split].
  - intros Hle. unfold verifyToken, tokenDiffers, hasExpired. run_store.
    rewrite Hauth, Hexp, Hcur, String.eqb_refl, Hnz. simpl.
    replace (now env' >? now env + sevenDays)%Z with false;
      [reflexivity|].
    symmetry. unfold sevenDays. rewrite Z.gtb_ltb. apply Z.ltb_ge. lia.
  - intros Hlt. unfold verifyToken, tokenDiffers, hasExpired. run_store.
    rewrite Hauth, Hexp, String.eqb_refl, Hnz. simpl.
    replace (now env' >? now env + sevenDays)%Z with true;
      [reflexivity|].
    symmetry. unfold sevenDays. apply Z.gtb_lt. lia.
  - intros other Hne. unfold verifyToken, tokenDiffers. run_store.
    rewrite Hauth.
    replace (String.eqb tok other) with false; [reflexivity|].
    symmetry. apply String.eqb_neq. congruence.
Qed.

Lemma token_round_trip_witness :
  verifyToken noon annsToken (otherInstance signedUp)
  = (Normal (Some (newUser morning "ann@example.com" "Ann")),
     mkService (Some (newUser morning "ann@example.com" "Ann")) false
               (storage signedUp)).
Proof.
  destruct (token_round_trip morning noon
              "ann@example.com" "secret1" "Ann" blank signedUp
              (otherInstance signedUp)
              (mkAuth (Some (newUser morning "ann@example.com" "Ann")) None
                      (Some annsToken))
              (newUser morning "ann@example.com" "Ann") annsToken)
    as (Hin & _ & _).
  - left. vm_compute; reflexivity.
  - reflexivity.
  - reflexivity.
  - vm_compute; discriminate.
  - reflexivity.
  - apply Hin. vm_compute; discriminate.
Defined.

(** ** Accounts *)

Lemma handleAll_invariant (P : Service -> Prop) :
  (forall env m sv, P sv -> P (after env m sv)) ->
  forall calls sv, P sv -> P (handleAll calls sv).
Proof.
  intros Hstep calls. induction calls as [|[env m] calls IH]; intros sv H.
  - exact H.
  - simpl. apply IH. now apply Hstep.
Qed.

Lemma aligned_credential (sv : Service) (u : User.t) :
  aligned sv -> In u (users (storage sv)) ->
  exists cred, credentialOf u sv = Some cred.
Proof.
  unfold aligned, credentialOf. intros Hal Hin.
  assert (Hid : In (User.id u) (map Credential.userId
                                    (userCredentials (storage sv)))).
  { rewrite <- Hal. now apply in_map. }
  apply in_map_iff in Hid as (c & Hc & Hin').
  destruct (find _ (userCredentials (storage sv))) as [cred|] eqn:Hf;
    [eauto|].
  pose proof (find_none _ _ Hf c Hin') as H. simpl in H.
  rewrite Hc, String.eqb_refl in H. discriminate.
Qed.

(** X6.  The credentials follow the users.  If the ids of the stored
    credentials are those of the stored users, in the same order, they
    still are after any sequence of messages; then every stored user
    has a credential, and [signIn] never answers "Account not found.
    Please sign up first." *)
Theorem credentials_follow_users (calls : list (Env * Message))
        (sv : Service) :
  aligned sv ->
  aligned (handleAll calls sv)
  /\ (forall u, In u (users (storage (handleAll calls sv))) ->
                exists cred, credentialOf u (handleAll calls sv) = Some cred)
  /\ (forall env e p,
         fst (signIn env e p (handleAll calls sv))
         <> Normal (failure "Account not found. Please sign up first.")).
Proof.
  intros H.
  assert (Hal : aligned (handleAll calls sv)).
  { apply handleAll_invariant; [|exact H].
    intros env m s. apply (step_aligned env m). apply handleMessage_step. }
  split; [exact Hal|]. split.
  - intros u Hin. now apply aligned_credential.
  - intros env e p. set (s := handleAll calls sv) in *.
    unfold signIn, tryCatch, bind, ret, getStorageData.
    destruct (JS.truthy e); simpl; [|discriminate].
    destruct (JS.truthy p); simpl; [|discriminate].
    destruct (isValidEmail e); simpl; [|discriminate].
    destruct (find (sameEmail e) (users (storage s))) as [found|] eqn:Hf;
      [|discriminate].
    destruct (aligned_credential s found Hal) as [cred Hc].
    { now apply find_some in Hf. }
    unfold credentialOf in Hc. rewrite Hc.
    destruct (negb _); simpl; [discriminate|].
    destruct (findIndex _ _); discriminate.
Qed.

Lemma credentials_follow_users_witness :
  aligned (handleAll [(morning, sign_up "ann@example.com" "secret1" "Ann");
                      (noon, sign_out);
                      (noon, sign_in "ann@example.com" "secret1")] blank).
Proof.
  apply (credentials_follow_users
           [(morning, sign_up "ann@example.com" "secret1" "Ann");
            (noon, sign_out);
            (noon, sign_in "ann@example.com" "secret1")] blank).
  reflexivity.
Defined.

(** X7.  Accounts stay distinct.  If no two stored users share an id
    or an address (compared without case), the same holds after any
    message, provided the id that a sign-up would draw is not yet the id
    of a user. *)
Theorem accounts_stay_distinct (env : Env) (m : Message) (sv : Service) :
  distinctAccounts sv ->
  freshUserId env sv ->
  distinctAccounts (after env m sv).
Proof.
  intros H Hfresh.
  apply (step_distinctAccounts env m sv); auto. apply handleMessage_step.
Qed.

Lemma accounts_stay_distinct_witness :
  distinctAccounts
    (after noon (sign_up "bob@example.com" "hunter22" "Bob") signedUp).
Proof.
  apply (accounts_stay_distinct noon
           (sign_up "bob@example.com" "hunter22" "Bob") signedUp).
  - split; vm_compute; repeat constructor; intros [].
  - vm_compute. intros [H|[]]. discriminate H.
Defined.

(** X8.  With distinct user ids, a successful sign-in changes one
    thing in the stored accounts: the [updatedAt] of the first user
    with that address becomes the time of the sign-in.  The other
    users, the credentials and the collections are as before; the user
    returned is the stored one with the new [updatedAt]. *)
Theorem signIn_touches_one_user (env : Env) (e p : string)
        (sv sv1 : Service) (r : AuthResult) (u : User.t) :
  NoDup (map User.id (users (storage sv))) ->
  signIn env e p sv = (Normal r, sv1) ->
  user r = Some u ->
  (exists found,
      find (sameEmail e) (users (storage sv)) = Some found
      /\ u = User.set_updatedAt (now env) found)
  /\ users (storage sv1)
     = updateFirst (sameEmail e) (User.set_updatedAt (now env))
                   (users (storage sv))
  /\ userCredentials (storage sv1) = userCredentials (storage sv)
  /\ contentSummaries (storage sv1) = contentSummaries (storage sv)
  /\ leads (storage sv1) = leads (storage sv)
  /\ priceMonitors (storage sv1) = priceMonitors (storage sv)
  /\ userActivities (storage sv1) = userActivities (storage sv).
Proof.
  intros Hnd Hrun Hu.
  destruct (signIn_cases env e p sv)
    as [(msg & H & _)|(found & cred & Hf & _ & _ & H)]; rewrite H in Hrun;
    injection Hrun as <- <-; [discriminate Hu|].
  simpl in Hu. injection Hu as <-.
  split; [eauto|]. simpl.
  rewrite touchedUsers_distinct by assumption. repeat split.
Qed.

Lemma signIn_touches_one_user_witness :
  users (storage (after noon (sign_in "ann@example.com" "secret1") signedUp))
  = [User.set_updatedAt (now noon) (newUser morning "ann@example.com" "Ann")].
Proof.
  destruct (signIn_touches_one_user noon "ann@example.com" "secret1" signedUp
              (snd (signIn noon "ann@example.com" "secret1" signedUp))
              (mkAuth (Some (User.set_updatedAt (now noon)
                               (newUser morning "ann@example.com" "Ann")))
                      None
                      (Some "token_loyw3v28k3j9x2_1700014400000_0.q8w2ma"))
              (User.set_updatedAt (now noon)
                 (newUser morning "ann@example.com" "Ann")))
    as (_ & Husers & _).
  - vm_compute. repeat constructor. intros [].
  - vm_compute; reflexivity.
  - reflexivity.
  - unfold after. vm_compute in Husers. vm_compute. exact Husers.
Defined.


(** X10.  The three session keys of the storage are written together
    and removed together: if they are all present or all absent, they
    still are after any sequence of messages. *)
Theorem session_keys_go_together (calls : list (Env * Message))
        (sv : Service) :
  sessionWhole sv -> sessionWhole (handleAll calls sv).
Proof.
  apply handleAll_invariant.
  intros env m s. apply (step_sessionWhole env m). apply handleMessage_step.
Qed.

Lemma session_keys_go_together_witness :
  sessionWhole
    (handleAll [(morning, sign_up "ann@example.com" "secret1" "Ann");
                (nineDaysLater, get_user)] (otherInstance blank)).
Proof.
  apply (session_keys_go_together
           [(morning, sign_up "ann@example.com" "secret1" "Ann");
            (nineDaysLater, get_user)] (otherInstance blank)).
  left. repeat split.
Defined.

End SessionProofs.

(* ================================================================== *)
(** * Summaries, leads, monitors, the log and the statistics *)
(* ================================================================== *)

Module CollectionProofs.
Import Store Background StoreOps Terms MoreTerms Scenarios MoreScenarios JSFacts SessionSteps SessionProofs.

Ltac run_store := StoreProofs.run_store.

(** ** Summaries *)

Lemma filter_shorter {A} (p : A -> bool) (l : list A) :
  (List.length (filter p l) <? List.length l)%nat
  = existsb (fun x => negb (p x)) l.
Proof.
  induction l as [|x l IH]; simpl; [reflexivity|].
  pose proof (filter_length_le p l) as Hle.
  destruct (p x); simpl.
  - exact IH.
  - apply Nat.ltb_lt. lia.
Qed.

Lemma filter_all {A} (p : A -> bool) (l : list A) :
  existsb (fun x => negb (p x)) l = false -> filter p l = l.
Proof.
  induction l as [|x l IH]; simpl; [reflexivity|].
  destruct (p x); simpl; [|discriminate]. intros H. now rewrite IH.
Qed.

(** X11.  [deleteContentSummary(id)], with a current user, removes
    every stored summary that has the id and keeps the others in their
    order; it returns [true] exactly when there was one to remove.
    Afterwards no summary has the id.  Without a current user it
    returns [false] and changes nothing. *)
Theorem deleteContentSummary_spec (i : string) (sv : Service) :
  let old := contentSummaries (storage sv) in
  (this_currentUser sv = None ->
   deleteContentSummary i sv = (Normal false, sv))
  /\ (this_currentUser sv <> None ->
      exists sv',
        deleteContentSummary i sv = (Normal (existsb (hasId i) old), sv')
        /\ contentSummaries (storage sv')
           = filter (fun s => negb (hasId i s)) old
        /\ (forall s, In s (contentSummaries (storage sv')) ->
                      ContentSummary.id s <> i)
        /\ (existsb (hasId i) old = false -> sv' = sv)).
Proof.
  intros old. split.
  - intros Hmem. unfold deleteContentSummary. run_store. now rewrite Hmem.
  - intros Hmem. unfold deleteContentSummary. run_store.
    destruct (this_currentUser sv) as [u|] eqn:Hu; [|congruence].
    fold old. change (fun s => negb (String.eqb (ContentSummary.id s) i))
      with (fun s => negb (hasId i s)).
    rewrite filter_shorter.
    assert (Hex : existsb (fun x => negb (negb (hasId i x))) old
                  = existsb (hasId i) old).
    { clear. induction old as [|x l IH]; simpl; [reflexivity|].
      now rewrite negb_involutive, IH. }
    rewrite Hex.
    assert (Hgone : forall s, In s (filter (fun s => negb (hasId i s)) old) ->
                              ContentSummary.id s <> i).
    { intros s Hin. apply filter_In in Hin as [_ Hn]. unfold hasId in Hn.
      apply negb_true_iff in Hn. now apply String.eqb_neq. }
    destruct (existsb (hasId i) old) eqn:E; simpl.
    + eexists. split; [reflexivity|]. simpl. repeat split; auto. discriminate.
    + exists sv. split; [reflexivity|].
      rewrite filter_all by (now rewrite Hex).
      repeat split; auto.
      intros s Hin. apply Hgone. rewrite filter_all by (now rewrite Hex).
      exact Hin.
Qed.

Lemma deleteContentSummary_spec_witness :
  exists sv',
    deleteContentSummary "old1" withSummary = (Normal true, sv')
    /\ contentSummaries (storage sv') = [].
Proof.
  destruct (deleteContentSummary_spec "old1" withSummary) as [_ H].
  destruct H as (sv' & Hrun & Hlist & _).
  - vm_compute; discriminate.
  - exists sv'. split; [exact Hrun | exact Hlist].
Defined.

(** X12.  A summary that is saved is listed first, and can be deleted
    again.  With a current user, after [save_summary] the stored
    summaries are the new one, with the id drawn and the time of the
    call, followed by the old ones; [get_summaries] with a positive
    limit, or none, returns it first; an activity
    [content_summarized] is put in front of the log; and, when no old
    summary has the id drawn, deleting that id gives back the old
    list. *)
Theorem saved_summary_round_trip (env env' : Env) (d : ContentSummary.t)
        (sv : Service) (u : User.t) :
  this_currentUser sv = Some u ->
  let new := ContentSummary.with_id_createdAt (generateId env 0) (now env) d in
  let sv1 := after env (save_summary d) sv in
  handleMessage env (save_summary d) sv
  = (Normal (mkResponse true None None), sv1)
  /\ contentSummaries (storage sv1) = new :: contentSummaries (storage sv)
  /\ (forall limit,
         (0 < limitOr 20 limit)%Z ->
         exists rest,
           handleMessage env' (get_summaries limit) sv1
           = (Normal (mkResponse true (Some (DSummaries (new :: rest))) None),
              sv1))
  /\ (exists entry,
         hd_error (userActivities (storage sv1)) = Some entry
         /\ UserActivity.action entry = "content_summarized"
         /\ UserActivity.userId entry = User.id u)
  /\ ((forall s, In s (contentSummaries (storage sv)) ->
                 ContentSummary.id s <> generateId env 0) ->
      exists sv2,
        deleteContentSummary (generateId env 0) sv1 = (Normal true, sv2)
        /\ contentSummaries (storage sv2) = contentSummaries (storage sv)).
Proof.
  intros Hmem new sv1.
  assert (Hsv1 : sv1 = mkService (Some u) (isInitialized sv)
            (set_userActivities
               (pushActivity
                  (UserActivity.mk (generateId (later 1 env) 0) (User.id u)
                     "content_summarized"
                     [("url", JString (ContentSummary.url d));
                      ("title", JString (ContentSummary.title d))]
                     (now env))
                  (userActivities (storage sv)))
               (set_contentSummaries (new :: contentSummaries (storage sv))
                  (storage sv)))).
  { subst sv1. unfold after. run_store. unfold storage_update.
    rewrite Hmem. simpl. rewrite Hmem. reflexivity. }
  split; [|split; [|split; [|split]]].
  - unfold sv1, after. run_store. unfold storage_update.
    rewrite Hmem. simpl. rewrite Hmem. reflexivity.
  - rewrite Hsv1. reflexivity.
  - intros limit Hpos. rewrite Hsv1. run_store. simpl.
    unfold slice. replace (limitOr 20 limit <? 0)%Z with false
      by (symmetry; apply Z.ltb_ge; lia).
    destruct (Z.to_nat (limitOr 20 limit)) as [|k] eqn:Hk; [lia|].
    simpl. eexists. reflexivity.
  - rewrite Hsv1. simpl. rewrite DispatcherProofs.pushActivity_eq. simpl.
    eexists. repeat split.
  - intros Hfresh. rewrite Hsv1. unfold deleteContentSummary. run_store.
    simpl. subst new. unfold ContentSummary.with_id_createdAt at 1. simpl.
    rewrite String.eqb_refl. simpl.
    assert (Hkeep : filter (fun s => negb (String.eqb (ContentSummary.id s)
                                                       (generateId env 0)))
                           (contentSummaries (storage sv))
                    = contentSummaries (storage sv)).
    { apply filter_all. apply Bool.not_true_is_false. intros H.
      apply existsb_exists in H as (s & Hin & Hs).
      apply negb_true_iff, negb_false_iff, String.eqb_eq in Hs.
      now apply (Hfresh s). }
    rewrite Hkeep.
    replace (_ <? _)%nat with true by (symmetry; apply Nat.ltb_lt; lia).
    eexists. split; reflexivity.
Qed.

Lemma saved_summary_round_trip_witness :
  contentSummaries (storage (after noon (save_summary aSummary) withSummary))
  = [ContentSummary.with_id_createdAt (generateId noon 0) (now noon) aSummary;
     anotherSummary].
Proof.
  destruct (saved_summary_round_trip noon nineDaysLater aSummary withSummary
              (newUser morning "ann@example.com" "Ann"))
    as (_ & H & _).
  - reflexivity.
  - exact H.
Defined.

(** ** Reading *)

Lemma slice_prefix {T} (limit : Z) (l : list T) :
  exists rest, l = slice limit l ++ rest.
Proof.
  unfold slice. destruct (limit <? 0)%Z;
    eexists; symmetry; apply firstn_skipn.
Qed.

Lemma slice_length {T} (limit : Z) (l : list T) :
  (0 <= limit)%Z -> (Z.of_nat (List.length (slice limit l)) <= limit)%Z.
Proof.
  intros H. unfold slice.
  replace (limit <? 0)%Z with false by (symmetry; apply Z.ltb_ge; lia).
  pose proof (firstn_le_length (Z.to_nat limit) l). lia.
Qed.

Lemma slice_negative {T} (limit : Z) (l : list T) :
  (limit < 0)%Z ->
  List.length (slice limit l) = (List.length l - Z.to_nat (- limit))%nat.
Proof.
  intros H. unfold slice.
  replace (limit <? 0)%Z with true by (symmetry; apply Z.ltb_lt; lia).
  rewrite length_firstn. lia.
Qed.

(** X13.  The reading messages change nothing and return the most
    recent entries.  With a current user, [get_summaries], [get_leads]
    and [get_user_history] return a prefix of what is stored (newest
    first): at most [limit] entries for a positive [limit], the default
    (20 summaries, 50 leads) when the limit is absent or 0, all but the
    last [-limit] for a negative one, and at most 20 activities;
    [get_price_monitors] returns everything. *)
Theorem reads_return_the_newest (env : Env) (sv : Service) (u : User.t) :
  this_currentUser sv = Some u ->
  (forall limit,
      let l := slice (limitOr 20 limit) (contentSummaries (storage sv)) in
      handleMessage env (get_summaries limit) sv
      = (Normal (mkResponse true (Some (DSummaries l)) None), sv)
      /\ (exists rest, contentSummaries (storage sv) = l ++ rest)
      /\ ((0 <= limitOr 20 limit)%Z ->
          (Z.of_nat (List.length l) <= limitOr 20 limit)%Z)
      /\ ((limitOr 20 limit < 0)%Z ->
          List.length l
          = (List.length (contentSummaries (storage sv))
             - Z.to_nat (- limitOr 20 limit))%nat))
  /\ (forall limit,
         let l := slice (limitOr 50 limit) (leads (storage sv)) in
         handleMessage env (get_leads limit) sv
         = (Normal (mkResponse true (Some (DLeads l)) None), sv)
         /\ (exists rest, leads (storage sv) = l ++ rest)
         /\ ((0 <= limitOr 50 limit)%Z ->
             (Z.of_nat (List.length l) <= limitOr 50 limit)%Z))
  /\ (let l := firstn 20 (userActivities (storage sv)) in
      handleMessage env get_user_history sv
      = (Normal (mkResponse true (Some (DHistory l)) None), sv)
      /\ (List.length l <= 20)%nat)
  /\ handleMessage env get_price_monitors sv
     = (Normal (mkResponse true (Some (DMonitors (priceMonitors (storage sv))))
                  None), sv)
  /\ limitOr 20 None = 20%Z /\ limitOr 20 (Some 0%Z) = 20%Z
  /\ limitOr 50 None = 50%Z /\ limitOr 50 (Some 0%Z) = 50%Z.
Proof.
  intros Hmem. split; [|split; [|split; [|split]]].
  - intros limit l. split; [|split; [|split]].
    + run_store. rewrite Hmem. reflexivity.
    + apply slice_prefix.
    + apply slice_length.
    + apply slice_negative.
  - intros limit l. split; [|split].
    + run_store. rewrite Hmem. reflexivity.
    + apply slice_prefix.
    + apply slice_length.
  - split.
    + run_store. rewrite Hmem. reflexivity.
    + apply firstn_le_length.
  - run_store. rewrite Hmem. reflexivity.
  - repeat split.
Qed.

Lemma reads_return_the_newest_witness :
  handleMessage noon (get_summaries (Some 0%Z)) withSummary
  = (Normal (mkResponse true (Some (DSummaries [anotherSummary])) None),
     withSummary).
Proof.
  destruct (reads_return_the_newest noon withSummary
              (newUser morning "ann@example.com" "Ann") eq_refl)
    as (H & _).
  destruct (H (Some 0%Z)) as (Hrun & _). exact Hrun.
Defined.

(** ** Clearing *)

(** X14.  [clear_all_data] through the dispatcher empties the storage
    but not the service's memory: a user who was memoised is still
    returned by [get_user], although no session is stored any more and
    no account is left to sign in to; [save_summary] still stores.  The
    service's own [clearAllData] forgets the user as well. *)
Theorem clear_all_data_keeps_memoised_user (env env' : Env) (sv : Service)
        (u : User.t) :
  this_currentUser sv = Some u ->
  let sv1 := after env clear_all_data sv in
  handleMessage env clear_all_data sv
  = (Normal (mkResponse true (Some (DString "All data cleared successfully"))
               None), sv1)
  /\ storage sv1 = emptyStorage
  /\ handleMessage env' get_user sv1
     = (Normal (mkResponse true (Some (DUser (Some u))) None), sv1)
  /\ (forall e p,
         JS.truthy e = true -> JS.truthy p = true -> isValidEmail e = true ->
         handleMessage env' (sign_in e p) sv1
         = (Normal (mkResponse false (Some (DUser None))
                      (Some "Invalid email or password")), sv1))
  /\ (forall d,
         contentSummaries (storage (after env' (save_summary d) sv1))
         = [ContentSummary.with_id_createdAt (generateId env' 0) (now env') d])
  /\ snd (clearAllData sv) = mkService None (isInitialized sv) emptyStorage
  /\ fst (getCurrentUser env' (snd (clearAllData sv))) = Normal None.
Proof.
  intros Hmem sv1. subst sv1. unfold after.
  split; [reflexivity|]. split; [reflexivity|].
  split; [|split; [|split; [|split]]].
  - run_store. simpl. rewrite Hmem. reflexivity.
  - intros e p He Hp Hv. unfold handleMessage, signIn. run_store. simpl.
    rewrite He, Hp, Hv. reflexivity.
  - intros d. run_store. unfold storage_update. simpl. rewrite Hmem. simpl.
    rewrite ?Hmem. reflexivity.
  - reflexivity.
  - reflexivity.
Qed.

Lemma clear_all_data_keeps_memoised_user_witness :
  handleMessage nineDaysLater get_user (after noon clear_all_data signedUp)
  = (Normal (mkResponse true
               (Some (DUser (Some (newUser morning "ann@example.com" "Ann"))))
               None),
     after noon clear_all_data signedUp).
Proof.
  destruct (clear_all_data_keeps_memoised_user noon nineDaysLater signedUp
              (newUser morning "ann@example.com" "Ann") eq_refl)
    as (_ & _ & H & _).
  exact H.
Defined.

(** ** The envelope *)

(** X15.  Every message is answered, never with an exception: the
    answer has [success: true] and no error, or [success: false] and a
    non-empty error message. *)
Theorem every_message_is_answered (env : Env) (m : Message) (sv : Service) :
  exists r sv',
    handleMessage env m sv = (Normal r, sv')
    /\ ((success r = true /\ Background.error r = None)
        \/ (success r = false
            /\ exists msg, Background.error r = Some msg
                           /\ JS.truthy msg = true)).
Proof.
  destruct m.
  - do 2 eexists; split; [reflexivity | left; split; reflexivity].
  - unfold handleMessage, tryCatch, bind, ret.
    destruct (getCurrentUser env sv) as [[r|msg] sv'] eqn:E.
    + do 2 eexists; split; [reflexivity | left; split; reflexivity].
    + exfalso. revert E. unfold getCurrentUser, tryCatch.
      destruct (bind _ _ sv) as [[?|?] ?]; discriminate.
  - unfold handleMessage, tryCatch, bind, ret.
    destruct (signIn_cases env email password sv)
      as [(msg & -> & Hin)|(found & cred & _ & _ & _ & ->)];
      do 2 eexists; (split; [reflexivity|]).
    + right. simpl in Hin.
      repeat (destruct Hin as [<-|Hin]; [split; [reflexivity|];
                eexists; split; reflexivity|]). contradiction.
    + left. split; reflexivity.
  - unfold handleMessage, tryCatch, bind, ret.
    destruct (signUp_cases env email password name sv)
      as [(msg & -> & Hin)|(_ & _ & _ & _ & ->)];
      do 2 eexists; (split; [reflexivity|]).
    + right. simpl in Hin.
      repeat (destruct Hin as [<-|Hin]; [split; [reflexivity|];
                eexists; split; reflexivity|]). contradiction.
    + left. split; reflexivity.
  - do 2 eexists; split; [reflexivity | left; split; reflexivity].
  - run_store. unfold storage_update.
    destruct (this_currentUser sv) as [u|] eqn:Hmem; simpl; rewrite ?Hmem;
      do 2 eexists; (split; [reflexivity|]);
      [left; split; reflexivity
      |right; split; [reflexivity | eexists; split; reflexivity]].
  - run_store. destruct (this_currentUser sv);
      do 2 eexists; split; try reflexivity; left; split; reflexivity.
  - run_store. unfold storage_update.
    destruct (this_currentUser sv) as [u|] eqn:Hmem; simpl; rewrite ?Hmem;
      do 2 eexists; (split; [reflexivity|]);
      [left; split; reflexivity
      |right; split; [reflexivity | eexists; split; reflexivity]].
  - run_store. destruct (this_currentUser sv);
      do 2 eexists; split; try reflexivity; left; split; reflexivity.
  - run_store. unfold storage_update.
    destruct (this_currentUser sv) as [u|] eqn:Hmem; simpl; rewrite ?Hmem;
      do 2 eexists; (split; [reflexivity|]);
      [left; split; reflexivity
      |right; split; [reflexivity | eexists; split; reflexivity]].
  - run_store. destruct (this_currentUser sv);
      do 2 eexists; split; try reflexivity; left; split; reflexivity.
  - unfold handleMessage, tryCatch, bind, ret.
    destruct (getCurrentUser env sv) as [[[u|]|msg] sv'] eqn:E.
    + unfold getUserUsage, tryCatch, bind, ret, getStorageData.
      do 2 eexists; split; [reflexivity | left; split; reflexivity].
    + do 2 eexists; split; [reflexivity|].
      right; split; [reflexivity | eexists; split; reflexivity].
    + exfalso. revert E. unfold getCurrentUser, tryCatch.
      destruct (bind _ _ sv) as [[?|?] ?]; discriminate.
  - run_store. unfold storage_update. destruct (this_currentUser sv);
      do 2 eexists; split; try reflexivity; left; split; reflexivity.
  - run_store. destruct (this_currentUser sv);
      do 2 eexists; split; try reflexivity; left; split; reflexivity.
  - do 2 eexists; split; [reflexivity | left; split; reflexivity].
  - do 2 eexists; split; [reflexivity|].
    right; split; [reflexivity | eexists; split; reflexivity].
Qed.

(** ** Page visits *)

(** X16.  The tab listener logs a page only once it has finished
    loading, only when it has an address that does not start with
    [chrome://], and only for a current user; then the visit, with the
    title or "Unknown", is put in front of the log, which keeps its 100
    newest entries.  In every other case the service is left as it
    is. *)
Theorem tab_updates_logged (env : Env) (update : Tabs.TabUpdate)
        (sv : Service) :
  let loggable :=
    match Tabs.status update, Tabs.url update with
    | Some st, Some u =>
        String.eqb st "complete" && JS.truthy u
        && negb (JS.startsWith u "chrome://")
    | _, _ => false
    end in
  (loggable = false -> Tabs.onUpdated env update sv = (Normal tt, sv))
  /\ (this_currentUser sv = None ->
      Tabs.onUpdated env update sv = (Normal tt, sv))
  /\ (forall user u,
         loggable = true -> this_currentUser sv = Some user ->
         Tabs.url update = Some u ->
         activityLog (snd (Tabs.onUpdated env update sv))
         = firstn 100
             (UserActivity.mk (generateId env 0) (User.id user) "page_visited"
                [("url", JString u);
                 ("title", JString (Tabs.titleOrUnknown (Tabs.title update)));
                 ("tabId", JNumber (Tabs.tabId update))]
                (now env)
              :: activityLog sv))
  /\ (List.length (activityLog sv) <= 100 ->
      List.length (activityLog (snd (Tabs.onUpdated env update sv))) <= 100)%nat.
Proof.
  intros loggable. subst loggable. unfold Tabs.onUpdated, activityLog.
  destruct (Tabs.status update) as [st|], (Tabs.url update) as [u|];
    try (repeat split; intros; try discriminate; auto; fail).
  destruct (String.eqb st "complete" && JS.truthy u
            && negb (JS.startsWith u "chrome://")) eqn:E.
  - split; [discriminate|]. split; [|split].
    + intros Hmem. run_store. now rewrite Hmem.
    + intros user u' _ Hmem [= <-]. run_store. unfold storage_update.
      rewrite Hmem. simpl. apply DispatcherProofs.pushActivity_eq.
    + intros H. run_store. unfold storage_update.
      destruct (this_currentUser sv); simpl;
        [apply DispatcherProofs.pushActivity_length | exact H].
  - repeat split; intros; try discriminate; auto.
Qed.

Lemma tab_updates_logged_witness :
  Tabs.onUpdated noon
    (Tabs.mkTabUpdate 7 (Some "complete") (Some "chrome://extensions") None)
    signedUp
  = (Normal tt, signedUp).
Proof.
  destruct (tab_updates_logged noon
              (Tabs.mkTabUpdate 7 (Some "complete")
                                (Some "chrome://extensions") None) signedUp)
    as (H & _).
  apply H. reflexivity.
Defined.

(** ** Statistics *)

(** X17.  Saving a summary shows in the statistics.  With a current
    user, [getUserStats] after [save_summary] counts one summary more
    than before, and one activity more, up to the 100 that the log
    keeps; the leads count and the user's dates are unchanged.  With no
    session at all it returns nothing. *)
Theorem stats_after_save (env env' : Env) (d : ContentSummary.t)
        (sv : Service) (u : User.t) :
  this_currentUser sv = Some u ->
  fst (getUserStats env' (after env (save_summary d) sv))
  = Normal (Some (mkStats
              (S (List.length (contentSummaries (storage sv))))
              (List.length (leads (storage sv)))
              (Nat.min 100 (S (List.length (userActivities (storage sv)))))
              (User.createdAt u) (User.updatedAt u)))
  /\ fst (getUserStats env' sv)
     = Normal (Some (mkStats
                 (List.length (contentSummaries (storage sv)))
                 (List.length (leads (storage sv)))
                 (List.length (userActivities (storage sv)))
                 (User.createdAt u) (User.updatedAt u)))
  /\ (forall sv0, noSession sv0 -> getUserStats env' sv0 = (Normal None, sv0)).
Proof.
  intros Hmem. split; [|split].
  - unfold after, getUserStats. run_store. unfold storage_update.
    rewrite Hmem. simpl. rewrite Hmem. simpl.
    rewrite DispatcherProofs.pushActivity_eq, length_firstn. reflexivity.
  - unfold getUserStats. run_store. rewrite Hmem. simpl. rewrite Hmem.
    reflexivity.
  - intros sv0 [H0 H1]. unfold getUserStats. run_store.
    rewrite H0, H1. simpl. now rewrite H0.
Qed.

Lemma stats_after_save_witness :
  fst (getUserStats nineDaysLater (after noon (save_summary aSummary) withSummary))
  = Normal (Some (mkStats 2 0 1 1700000000000 1700000000000)).
Proof.
  destruct (stats_after_save noon nineDaysLater aSummary withSummary
              (newUser morning "ann@example.com" "Ann") eq_refl) as (H & _).
  exact H.
Defined.

(** ** Leads *)

Lemma stampLeads_length (env : Env) (k : nat) (l : list Lead.t) :
  List.length (stampLeads env k l) = List.length l.
Proof.
  revert k; induction l as [|x l IH]; intros k; simpl; [reflexivity|].
  now rewrite IH.
Qed.

Lemma stampLeads_nth (env : Env) (k i : nat) (l : list Lead.t) (x : Lead.t) :
  nth_error l i = Some x ->
  nth_error (stampLeads env k l) i
  = Some (Lead.with_id_extractedAt (generateId env (k + i)) (now env) x).
Proof.
  revert k i; induction l as [|y l IH]; intros k [|i]; simpl;
    try discriminate.
  - intros [= <-]. now rewrite Nat.add_0_r.
  - intros H. rewrite (IH (S k) i H). do 3 f_equal. lia.
Qed.

(** X18.  With a current user, [save_leads] puts the leads, in their
    order, in front of those already stored.  The [i]-th one is stored
    with the id drawn with the [i]-th random number and with the time of
    the call as [extractedAt], its other fields as given; an activity
    [leads_extracted] with their number is logged. *)
Theorem saved_leads_come_first (env : Env) (ls : list Lead.t)
        (src : JsonValue) (sv : Service) (u : User.t) :
  this_currentUser sv = Some u ->
  let sv1 := after env (save_leads ls src) sv in
  handleMessage env (save_leads ls src) sv
  = (Normal (mkResponse true None None), sv1)
  /\ (exists new,
         leads (storage sv1) = new ++ leads (storage sv)
         /\ List.length new = List.length ls
         /\ (forall i x, nth_error ls i = Some x ->
                         nth_error new i
                         = Some (Lead.with_id_extractedAt
                                   (generateId env i) (now env) x)))
  /\ (exists entry,
         hd_error (userActivities (storage sv1)) = Some entry
         /\ UserActivity.action entry = "leads_extracted"
         /\ In ("count", JNumber (Z.of_nat (List.length ls)))
               (UserActivity.details entry)).
Proof.
  intros Hmem sv1.
  assert (Hsv1 : sv1 = mkService (Some u) (isInitialized sv)
            (set_userActivities
               (pushActivity
                  (UserActivity.mk
                     (generateId (later (List.length ls) env) 0) (User.id u)
                     "leads_extracted"
                     [("count", JNumber (Z.of_nat (List.length ls)));
                      ("source", src)]
                     (now env))
                  (userActivities (storage sv)))
               (set_leads (stampLeads env 0 ls ++ leads (storage sv))
                  (storage sv)))).
  { subst sv1. unfold after. run_store. unfold storage_update.
    rewrite Hmem. simpl. rewrite Hmem. reflexivity. }
  split; [|split].
  - unfold sv1, after. run_store. unfold storage_update.
    rewrite Hmem. simpl. rewrite Hmem. reflexivity.
  - rewrite Hsv1. simpl. exists (stampLeads env 0 ls).
    split; [reflexivity|]. split; [apply stampLeads_length|].
    intros i x Hx. now rewrite (stampLeads_nth env 0 i ls x Hx).
  - rewrite Hsv1. simpl. rewrite DispatcherProofs.pushActivity_eq. simpl.
    eexists. split; [reflexivity|]. split; [reflexivity|]. simpl. auto.
Qed.

Lemma saved_leads_come_first_witness :
  exists new,
    leads (storage (after noon (save_leads [aLead] (JString "page")) withSummary))
    = new ++ []
    /\ nth_error new 0
       = Some (Lead.with_id_extractedAt (generateId noon 0) (now noon) aLead).
Proof.
  destruct (saved_leads_come_first noon [aLead] (JString "page") withSummary
              (newUser morning "ann@example.com" "Ann") eq_refl)
    as (_ & (new & Hnew & _ & Hnth) & _).
  exists new. split; [exact Hnew|]. apply Hnth. reflexivity.
Defined.

(** ** Price monitors and usage *)

Lemma countIf_le {T} (p : T -> bool) (l : list T) :
  (countIf p l <= List.length l)%nat.
Proof. apply filter_length_le. Qed.

Lemma countIf_disjoint {T} (p q r : T -> bool) (l : list T) :
  (forall x, (p x && q x = false) /\ (p x && r x = false)
             /\ (q x && r x = false)) ->
  (countIf p l + countIf q l + countIf r l <= List.length l)%nat.
Proof.
  intros H. unfold countIf. induction l as [|x l IH]; simpl; [lia|].
  destruct (H x) as (Hpq & Hpr & Hqr).
  destruct (p x), (q x), (r x); simpl in *; try discriminate; lia.
Qed.

Lemma countIf_firstn {T} (p : T -> bool) (n : nat) (l : list T) :
  (countIf p (firstn n l) <= countIf p l)%nat.
Proof.
  unfold countIf. revert l; induction n as [|n IH]; intros [|x l]; simpl;
    try lia.
  specialize (IH l). destruct (p x); simpl; lia.
Qed.

(** X19.  The usage statistics count what is stored, for whatever user
    id they are asked: [getUserUsage] never fails, changes nothing and
    does not look at the id.  Its first two counts are the totals of
    [getUserStats]; the active monitors are no more than the monitors;
    and the three counts taken from the activity log are of different
    actions, so that together they are no more than the log is long.
    Through the dispatcher, [get_user_stats] gives these statistics to
    the current user. *)
Theorem usage_counts_what_is_stored (env : Env) (sv : Service) (u : User.t) :
  this_currentUser sv = Some u ->
  exists usage stats,
    (forall userId, getUserUsage env userId sv = (Normal (Some usage), sv))
    /\ handleMessage env get_user_stats sv
       = (Normal (mkResponse true (Some (DStats (Some usage))) None), sv)
    /\ getUserStats env sv = (Normal (Some stats), sv)
    /\ UsageStats.summariesUsed usage = totalSummaries stats
    /\ UsageStats.leadExtractionsUsed usage = totalLeads stats
    /\ (UsageStats.priceMonitorsActive usage
        <= List.length (priceMonitors (storage sv)))%nat
    /\ (UsageStats.automationsUsed usage + UsageStats.formTemplatesUsed usage
        + UsageStats.dataExportsUsed usage <= totalActivities stats)%nat
    /\ UsageStats.resetDate usage = now env.
Proof.
  intros Hmem.
  exists (UsageStats.mk
            (List.length (contentSummaries (storage sv)))
            (List.length (leads (storage sv)))
            (countIf PriceMonitoringItem.alertsEnabled
                     (priceMonitors (storage sv)))
            (countIf (fun x => String.eqb (UserActivity.action x)
                                          "automation_executed")
                     (userActivities (storage sv)))
            (countIf (fun x => String.eqb (UserActivity.action x)
                                          "form_filled")
                     (userActivities (storage sv)))
            (countIf (fun x => String.eqb (UserActivity.action x)
                                          "data_exported")
                     (userActivities (storage sv)))
            (now env)),
    (mkStats (List.length (contentSummaries (storage sv)))
             (List.length (leads (storage sv)))
             (List.length (userActivities (storage sv)))
             (User.createdAt u) (User.updatedAt u)).
  split; [intros userId; unfold getUserUsage; run_store; reflexivity|].
  split; [run_store; rewrite Hmem; simpl; rewrite ?Hmem; reflexivity|].
  split; [unfold getUserStats; run_store; rewrite Hmem; simpl; rewrite Hmem;
          reflexivity|].
  cbn. split; [reflexivity|]. split; [reflexivity|].
  split; [apply countIf_le|]. split; [|reflexivity].
  apply countIf_disjoint. intros x.
  destruct (String.eqb (UserActivity.action x) "automation_executed") eqn:E1;
    [apply String.eqb_eq in E1; rewrite E1; repeat split; reflexivity|].
  destruct (String.eqb (UserActivity.action x) "form_filled") eqn:E2;
    [apply String.eqb_eq in E2; rewrite E2; repeat split; reflexivity|].
  repeat split; reflexivity.
Qed.

Lemma usage_counts_what_is_stored_witness :
  exists usage,
    getUserUsage noon "someone else" withSummary
    = (Normal (Some usage), withSummary)
    /\ UsageStats.resetDate usage = now noon.
Proof.
  destruct (usage_counts_what_is_stored noon withSummary
              (newUser morning "ann@example.com" "Ann") eq_refl)
    as (usage & stats & Hany & _ & _ & _ & _ & _ & _ & Hdate).
  exists usage. split; [apply Hany | exact Hdate].
Defined.

(** X20.  With a current user, [save_price_monitor] stores the monitor
    in front of the others under the id drawn, its other fields as
    given; [get_price_monitors] then returns it first, followed by the
    old ones; the count of active monitors of the usage statistics grows
    by one exactly when the monitor has its alerts enabled; and an
    activity [price_monitor_created] is put in front of the log. *)
Theorem saved_monitor_is_listed (env env' : Env) (item : PriceMonitoringItem.t)
        (sv : Service) (u : User.t) :
  this_currentUser sv = Some u ->
  let new := PriceMonitoringItem.with_id (generateId env 0) item in
  let sv1 := after env (save_price_monitor item) sv in
  let active s :=
    countIf PriceMonitoringItem.alertsEnabled (priceMonitors (storage s)) in
  handleMessage env (save_price_monitor item) sv
  = (Normal (mkResponse true None None), sv1)
  /\ handleMessage env' get_price_monitors sv1
     = (Normal (mkResponse true
                  (Some (DMonitors (new :: priceMonitors (storage sv)))) None),
        sv1)
  /\ active sv1
     = (active sv + if PriceMonitoringItem.alertsEnabled item then 1 else 0)%nat
  /\ (exists entry,
         hd_error (userActivities (storage sv1)) = Some entry
         /\ UserActivity.action entry = "price_monitor_created"
         /\ UserActivity.userId entry = User.id u).
Proof.
  intros Hmem new sv1 active.
  assert (Hsv1 : sv1 = mkService (Some u) (isInitialized sv)
            (set_userActivities
               (pushActivity
                  (UserActivity.mk
                     (generateId (later 1 env) 0) (User.id u)
                     "price_monitor_created"
                     [("url", JString (PriceMonitoringItem.url item));
                      ("productName",
                       JString (PriceMonitoringItem.productName item))]
                     (now env))
                  (userActivities (storage sv)))
               (set_priceMonitors (new :: priceMonitors (storage sv))
                  (storage sv)))).
  { subst sv1. unfold after. run_store. unfold storage_update.
    rewrite Hmem. simpl. rewrite Hmem. reflexivity. }
  split; [|split; [|split]].
  - unfold sv1, after. run_store. unfold storage_update.
    rewrite Hmem. simpl. rewrite Hmem. reflexivity.
  - rewrite Hsv1. run_store. reflexivity.
  - subst active. rewrite Hsv1. cbn. unfold countIf. cbn.
    destruct (PriceMonitoringItem.alertsEnabled item); cbn; lia.
  - rewrite Hsv1. simpl. rewrite DispatcherProofs.pushActivity_eq. simpl.
    eexists. repeat split.
Qed.

Lemma saved_monitor_is_listed_witness :
  handleMessage nineDaysLater get_price_monitors
    (after noon (save_price_monitor aMonitor) withSummary)
  = (Normal (mkResponse true
               (Some (DMonitors
                        [PriceMonitoringItem.with_id (generateId noon 0)
                           aMonitor])) None),
     after noon (save_price_monitor aMonitor) withSummary).
Proof.
  destruct (saved_monitor_is_listed noon nineDaysLater aMonitor withSummary
              (newUser morning "ann@example.com" "Ann") eq_refl)
    as (_ & H & _).
  exact H.
Defined.

End CollectionProofs.

(* ================================================================== *)
(** * Form filling *)
(* ================================================================== *)

Module FormProofs.
Import Content Forms MoreTerms MoreScenarios.

Ltac step_entries :=
  cbn [fillEntries filter flat_map List.length fst snd app].

Lemma firstElement_elementFor (page : Page) (key : string) :
  wellFormed page key ->
  firstElement page (selectorsFor key) = inr (elementFor page key).
Proof.
  unfold wellFormed, elementFor.
  generalize (selectorsFor key) as l.
  induction l as [|s l IH]; intros Hw; simpl; [reflexivity|].
  destruct (Forms.querySelector page s) as [el| |msg] eqn:E; simpl.
  - now rewrite E.
  - apply IH. intros s' m Hin. apply Hw. now right.
  - exfalso. apply (Hw s msg); [now left | exact E].
Qed.

Lemma firstElement_breaks (page : Page) (key message : string) :
  breaks page key message ->
  firstElement page (selectorsFor key) = inl message.
Proof.
  intros (pre & s & post & -> & Hpre & Hs).
  induction pre as [|x pre IH]; simpl.
  - now rewrite Hs.
  - rewrite (Hpre x) by now left. apply IH. intros; apply Hpre; now right.
Qed.

Lemma fillEntries_wellFormed (page : Page) (entries : list (string * string))
      (found : nat) (done : list Effect) :
  (forall entry, In entry entries -> wellFormed page (fst entry)) ->
  fillEntries page entries found done
  = (None, (found + foundAmong page entries)%nat,
     done ++ effectsOf page entries).
Proof.
  revert found done. unfold foundAmong, effectsOf.
  induction entries as [|[key value] entries IH]; intros found done Hw;
    step_entries.
  - now rewrite Nat.add_0_r, app_nil_r.
  - rewrite firstElement_elementFor by (apply (Hw (key, value)); now left).
    destruct (elementFor page key) as [el|]; rewrite IH
      by (intros; apply Hw; now right); step_entries.
    + f_equal; [f_equal; lia|]. now rewrite <- app_assoc.
    + reflexivity.
Qed.

(** X21.  When no selector of any key is ill-formed, [fillForm]
    succeeds: each key is given to the element that the first of its
    five selectors to find anything finds; that element gets the value
    and then an [input] and a [change] event, the keys being served in
    their order; keys without an element are skipped.  [fieldsFound]
    counts the keys served, never more than [totalFields], the number of
    keys.  When no key has an element, nothing on the page is touched
    and [fieldsFound] is 0. *)
Theorem fillForm_fills_first_match (page : Page)
        (entries : list (string * string)) :
  (forall entry, In entry entries -> wellFormed page (fst entry)) ->
  fillForm page (Some entries)
  = (Success (mkFillData (foundAmong page entries) (List.length entries)),
     effectsOf page entries)
  /\ (foundAmong page entries <= List.length entries)%nat
  /\ List.length (effectsOf page entries) = (3 * foundAmong page entries)%nat
  /\ ((forall entry, In entry entries -> elementFor page (fst entry) = None) ->
      fillForm page (Some entries)
      = (Success (mkFillData 0 (List.length entries)), [])).
Proof.
  intros Hw.
  assert (Hrun : fillForm page (Some entries)
                 = (Success (mkFillData (foundAmong page entries)
                                        (List.length entries)),
                    effectsOf page entries)).
  { unfold fillForm. now rewrite fillEntries_wellFormed. }
  split; [exact Hrun|]. split; [apply filter_length_le|]. split.
  - unfold effectsOf, foundAmong. clear.
    induction entries as [|[k v] l IH]; step_entries; [reflexivity|].
    destruct (elementFor page k); step_entries; rewrite ?length_app, IH;
      cbn [fill List.length]; lia.
  - intros Hnone. rewrite Hrun.
    assert (H0 : foundAmong page entries = 0%nat
                 /\ effectsOf page entries = []).
    { unfold foundAmong, effectsOf. clear Hw Hrun.
      induction entries as [|x l IH]; step_entries; [split; reflexivity|].
      rewrite (Hnone x) by now left. apply IH.
      intros; apply Hnone; now right. }
    destruct H0 as [-> ->]. reflexivity.
Qed.

Lemma fillForm_fills_first_match_witness :
  fillForm loginPage (Some [("name", "Ann"); ("email", "ann@example.com")])
  = (Success (mkFillData 1 2),
     [SetValue 3 "ann@example.com"; DispatchEvent 3 "input";
      DispatchEvent 3 "change"])
  /\ fillForm plainPage (Some [("name", "x")])
     = (Success (mkFillData 0 1), []).
Proof.
  split.
  - destruct (fillForm_fills_first_match loginPage
                [("name", "Ann"); ("email", "ann@example.com")]) as (H & _).
    + intros entry [<-|[<-|[]]] s m Hin;
        simpl in Hin; repeat (destruct Hin as [<-|Hin]; [vm_compute; discriminate|]);
        contradiction.
    + exact H.
  - destruct (fillForm_fills_first_match plainPage [("name", "x")])
      as (_ & _ & _ & H).
    + intros entry _ s m _. discriminate.
    + apply H. intros entry _. reflexivity.
Defined.

(** X22.  A key that makes a selector ill-formed stops [fillForm] where
    it is: the answer is the failure envelope with the message of the
    exception, the keys before it have been served as usual, and the
    keys after it are not looked at.  Without form data the answer is
    "No form data provided" and nothing is touched. *)
Theorem fillForm_stops_at_bad_key (page : Page)
        (before after : list (string * string)) (key value message : string) :
  (forall entry, In entry before -> wellFormed page (fst entry)) ->
  breaks page key message ->
  fillForm page (Some (before ++ (key, value) :: after))
  = (Failure message, effectsOf page before)
  /\ fillForm page None = (Failure "No form data provided", []).
Proof.
  intros Hw Hb. split; [|reflexivity].
  unfold fillForm.
  assert (H : forall found done,
             fillEntries page (before ++ (key, value) :: after) found done
             = (Some message, (found + foundAmong page before)%nat,
                done ++ effectsOf page before)).
  { unfold foundAmong, effectsOf.
    induction before as [|[k v] l IH]; intros found done; step_entries.
    - rewrite (firstElement_breaks _ _ _ Hb).
      now rewrite Nat.add_0_r, app_nil_r.
    - rewrite firstElement_elementFor by (apply (Hw (k, v)); now left).
      destruct (elementFor page k) as [el|]; rewrite IH
        by (intros; apply Hw; now right); step_entries.
      + f_equal; [f_equal; lia|]. now rewrite <- app_assoc.
      + reflexivity. }
  now rewrite H.
Qed.

Lemma fillForm_stops_at_bad_key_witness :
  fillForm loginPage
    (Some ([("email", "ann@example.com")] ++ (badKey, "x") :: [("email", "late")]))
  = (Failure "not a valid selector",
     [SetValue 3 "ann@example.com"; DispatchEvent 3 "input";
      DispatchEvent 3 "change"]).
Proof.
  apply (fillForm_stops_at_bad_key loginPage [("email", "ann@example.com")]
           [("email", "late")] badKey "x" "not a valid selector").
  - intros entry [<-|[]] s m Hin;
      simpl in Hin; repeat (destruct Hin as [<-|Hin]; [vm_compute; discriminate|]);
      contradiction.
  - exists [], ("input[name=" ++ quote ++ badKey ++ quote ++ "]")%string,
      (tl (selectorsFor badKey)).
    split; [reflexivity|]. split; [intros s' []|]. vm_compute; reflexivity.
Defined.

End FormProofs.

(* ================================================================== *)
(** * The page context *)
(* ================================================================== *)

Module ContextProofs.
Import Content Context MoreTerms MoreScenarios.

Lemma startsWith_lower (s p : string) :
  JS.startsWith s p = true ->
  JS.startsWith (JS.toLowerCase s) (JS.toLowerCase p) = true.
Proof.
  revert s. induction p as [|a p IH]; intros s H;
    [destruct s; reflexivity|].
  destruct s as [|b s]; [discriminate|]. simpl in *.
  apply andb_true_iff in H as [Hab Hs].
  apply Ascii.eqb_eq in Hab. subst b.
  now rewrite Ascii.eqb_refl, IH.
Qed.

Lemma includes_lower (s sub : string) :
  JS.includes s sub = true ->
  JS.includes (JS.toLowerCase s) (JS.toLowerCase sub) = true.
Proof.
  induction s as [|c s IH]; intros H.
  - cbn [JS.includes] in H. rewrite orb_false_r in H.
    apply startsWith_lower in H. cbn [JS.toLowerCase JS.includes] in *.
    now rewrite H.
  - cbn [JS.includes] in H. apply orb_true_iff in H as [H|H].
    + apply startsWith_lower in H. cbn [JS.toLowerCase JS.includes] in *.
      now rewrite H.
    + cbn [JS.toLowerCase JS.includes]. rewrite (IH H). apply orb_true_r.
Qed.

(** X23.  The two classifiers of social pages agree on the three
    domains that both know: when the address contains linkedin.com,
    twitter.com or facebook.com as written, [detectPageType] says
    "social-media" (whatever else is on the page), [isSocialMediaPage]
    says yes, and the "leads" action is shown for a context built from
    them. *)
Theorem social_domains_agree (doc : Document) (domain : string)
        (context : PageContext) :
  In domain ["linkedin.com"; "twitter.com"; "facebook.com"] ->
  JS.includes (href doc) domain = true ->
  isSocialMedia context = isSocialMediaPage doc ->
  detectPageType doc = "social-media"
  /\ isSocialMediaPage doc = true
  /\ shouldShowAction (Some "leads") context = true.
Proof.
  intros Hin Hinc Hctx.
  assert (Hsoc : isSocialMediaPage doc = true).
  { unfold isSocialMediaPage, socialDomains. cbn [existsb].
    destruct Hin as [<-|[<-|[<-|[]]]]; rewrite Hinc;
      rewrite ?orb_true_r; reflexivity. }
  split; [|split; [exact Hsoc|]].
  - apply includes_lower in Hinc. unfold detectPageType.
    destruct Hin as [<-|[<-|[<-|[]]]];
      change (JS.toLowerCase "linkedin.com") with "linkedin.com"%string in *;
      change (JS.toLowerCase "twitter.com") with "twitter.com"%string in *;
      change (JS.toLowerCase "facebook.com") with "facebook.com"%string in *;
      rewrite Hinc; rewrite ?orb_true_r; reflexivity.
  - unfold shouldShowAction. cbn [String.eqb]. simpl.
    rewrite Hctx, Hsoc. apply orb_true_r.
Qed.

Lemma social_domains_agree_witness :
  detectPageType shopOnFacebook = "social-media"
  /\ isSocialMediaPage shopOnFacebook = true
  /\ shouldShowAction (Some "leads")
       (mkContext (href shopOnFacebook) (title shopOnFacebook)
          "www.facebook.com" (detectPageType shopOnFacebook)
          false false false (isEcommercePage shopOnFacebook)
          (isSocialMediaPage shopOnFacebook)
          (isJobBoardPage shopOnFacebook)) = true.
Proof.
  apply (social_domains_agree shopOnFacebook "facebook.com").
  - right; right; left; reflexivity.
  - vm_compute; reflexivity.
  - reflexivity.
Defined.

(** X24.  The page type is no function of the three flags of the
    context: a page whose text contains "add to cart" in any letter
    case is an e-commerce page for [isEcommercePage], yet its page type
    is "ecommerce" only when the address names no social domain, and
    "social-media" otherwise; a page of indeed.com is a job board for
    [isJobBoardPage], and its page type is one of the first three of the
    resolution order. *)
Theorem flags_and_page_type (doc : Document) :
  (JS.includes (lowerBodyText doc) "add to cart" = true ->
   isEcommercePage doc = true
   /\ detectPageType doc
      = if Terms.socialMediaDomain doc then "social-media" else "ecommerce")
  /\ (JS.includes (href doc) "indeed.com" = true ->
      isJobBoardPage doc = true
      /\ In (detectPageType doc) ["social-media"; "ecommerce"; "job-board"]).
Proof.
  split.
  - intros H. split.
    + unfold isEcommercePage, ecommerceIndicators. cbn [existsb].
      change (JS.startsWith "add to cart" ".") with false. cbv iota.
      now rewrite H.
    + unfold detectPageType, Terms.socialMediaDomain, Terms.lowerUrl.
      unfold lowerBodyText in H. rewrite H, !orb_true_r.
      destruct (JS.includes (JS.toLowerCase (href doc)) "linkedin.com"
                || JS.includes (JS.toLowerCase (href doc)) "twitter.com"
                || JS.includes (JS.toLowerCase (href doc)) "facebook.com");
        reflexivity.
  - intros H. split.
    + unfold isJobBoardPage, jobDomains. cbn [existsb]. now rewrite H.
    + apply includes_lower in H.
      change (JS.toLowerCase "indeed.com") with "indeed.com"%string in H.
      unfold detectPageType. rewrite H. cbn [orb].
      destruct (JS.includes (JS.toLowerCase (href doc)) "linkedin.com"
                || JS.includes (JS.toLowerCase (href doc)) "twitter.com"
                || JS.includes (JS.toLowerCase (href doc)) "facebook.com");
        [left; reflexivity|].
      destruct (JS.includes (JS.toLowerCase (href doc)) "amazon.com"
                || JS.includes (JS.toLowerCase (href doc)) "ebay.com"
                || _); [right; left; reflexivity|].
      right; right; left; reflexivity.
Qed.

Lemma flags_and_page_type_witness :
  (isEcommercePage shopOnFacebook = true
   /\ detectPageType shopOnFacebook = "social-media")
  /\ (isJobBoardPage jobsOnIndeed = true
      /\ In (detectPageType jobsOnIndeed)
            ["social-media"; "ecommerce"; "job-board"]).
Proof.
  split.
  - apply (proj1 (flags_and_page_type shopOnFacebook)). vm_compute; reflexivity.
  - apply (proj2 (flags_and_page_type jobsOnIndeed)). vm_compute; reflexivity.
Defined.

End ContextProofs.

(* ================================================================== *)
(** * The matcher and the e-mail patterns *)
(* ================================================================== *)

Module PatternProofs.
Import Regex Content MoreTerms MoreScenarios.

Lemma append_nil_r (s : string) : (s ++ "")%string = s.
Proof. induction s as [|c s IH]; simpl; [reflexivity | now rewrite IH]. Qed.

Lemma append_assoc (a b c : string) :
  ((a ++ b) ++ c)%string = (a ++ (b ++ c))%string.
Proof. induction a as [|x a IH]; simpl; [reflexivity | now rewrite IH]. Qed.

Lemma append_length (a b : string) :
  String.length (a ++ b) = (String.length a + String.length b)%nat.
Proof. induction a as [|x a IH]; simpl; [reflexivity | now rewrite IH]. Qed.

Lemma substring_prefix (w rest : string) :
  substring 0 (String.length w) (w ++ rest) = w.
Proof.
  induction w as [|c w IH]; simpl.
  - destruct rest; reflexivity.
  - now rewrite IH.
Qed.

Lemma allChars_impl (p q : ascii -> bool) (s : string) :
  (forall c, p c = true -> q c = true) ->
  allChars p s = true -> allChars q s = true.
Proof.
  intros Hpq. induction s as [|c s IH]; simpl; [reflexivity|].
  intros H. apply andb_true_iff in H as [Hc Hs].
  now rewrite (Hpq c Hc), IH.
Qed.

(** The matcher finds only what the pattern describes. *)
Lemma many_sound (p : ascii -> bool) (s : string) :
  forall mn mx k x,
    many p mn mx s k = Some x ->
    exists w rest,
      s = (w ++ rest)%string
      /\ allChars p w = true
      /\ (mn <= String.length w)%nat
      /\ (forall m, mx = Some m -> (String.length w <= m)%nat)
      /\ k rest = Some x.
Proof.
  assert (Hstop : forall (mn : nat) (mx : option nat)
                          (k : string -> option string) (x s0 : string),
             match mn with O => k s0 | S _ => None end = Some x ->
             exists w rest,
               s0 = (w ++ rest)%string /\ allChars p w = true
               /\ (mn <= String.length w)%nat
               /\ (forall m : nat, mx = Some m -> (String.length w <= m)%nat)
               /\ k rest = Some x).
  { intros [|mn] mx k x s0 H; [|discriminate].
    exists EmptyString, s0. repeat split; simpl; auto; intros; lia. }
  induction s as [|c s IH]; intros mn mx k x H.
  - apply Hstop. destruct mx as [[|m]|]; exact H.
  - destruct mx as [[|m]|]; [now apply Hstop| |]; cbn [many option_map] in H;
      (destruct (p c) eqn:Hc; [|now apply Hstop]);
      match type of H with
      | match ?rec with _ => _ end = _ => destruct rec as [r|] eqn:Hrec
      end; try (now apply Hstop);
      injection H as <-;
      apply IH in Hrec as (w & rest & -> & Hall & Hmin & Hmax & Hk);
      exists (String c w), rest; cbn [allChars String.length append];
      rewrite Hc, Hall; repeat split; auto; try lia.
    + intros m' [= <-]. specialize (Hmax m eq_refl). simpl in Hmax. lia.
    + intros m' [=].
Qed.

Lemma exec_sound (r : re) :
  forall s k x,
    exec r s k = Some x ->
    exists w rest,
      s = (w ++ rest)%string /\ Matches r w rest /\ k rest = Some x.
Proof.
  induction r as [|p|p mn mx|r IH|r1 IH1 r2 IH2|]; intros s k x H;
    cbn [exec] in H.
  - exists EmptyString, s. repeat split; [constructor | exact H].
  - destruct s as [|c s]; [discriminate|].
    destruct (p c) eqn:Hc; [|discriminate].
    exists (String c EmptyString), s. repeat split; [now constructor | exact H].
  - apply many_sound in H as (w & rest & -> & Hall & Hmin & Hmax & Hk).
    exists w, rest. repeat split; [now constructor | exact Hk].
  - destruct (exec r s k) as [y|] eqn:E.
    + injection H as <-. apply IH in E as (w & rest & -> & Hm & Hk).
      exists w, rest. repeat split; [now constructor | exact Hk].
    + exists EmptyString, s. repeat split; [apply matches_skip | exact H].
  - apply IH1 in H as (w1 & rest1 & -> & Hm1 & Hk1).
    apply IH2 in Hk1 as (w2 & rest & -> & Hm2 & Hk).
    exists (w1 ++ w2)%string, rest. rewrite append_assoc.
    repeat split; [now constructor | exact Hk].
  - destruct s; [|discriminate].
    exists EmptyString, EmptyString. repeat split; [constructor | exact H].
Qed.

(** The matcher finds whatever the pattern describes, provided that
    what follows is accepted. *)
Lemma many_complete (p : ascii -> bool) (w : string) :
  forall mn mx rest k x,
    allChars p w = true ->
    (mn <= String.length w)%nat ->
    (forall m, mx = Some m -> (String.length w <= m)%nat) ->
    k rest = Some x ->
    exists y, many p mn mx (w ++ rest) k = Some y.
Proof.
  induction w as [|c w IH]; intros mn mx rest k x Hall Hmin Hmax Hk.
  - simpl in Hmin. assert (mn = 0%nat) as -> by lia. cbn [append].
    destruct rest as [|c rest]; destruct mx as [[|m]|]; cbn [many];
      rewrite ?Hk; eauto;
      destruct (p c); eauto;
      match goal with
      | |- exists y, match ?rec with _ => _ end = _ => destruct rec; eauto
      end.
  - cbn [allChars] in Hall. apply andb_true_iff in Hall as [Hc Hall].
    cbn [String.length] in *.
    destruct mx as [[|m]|].
    + specialize (Hmax 0%nat eq_refl). lia.
    + cbn [append many option_map]. rewrite Hc.
      destruct (IH (pred mn) (Some (pred (S m))) rest k x) as (y & ->);
        auto; try lia; eauto.
      intros m' [= <-]. specialize (Hmax (S m) eq_refl). simpl. lia.
    + cbn [append many option_map]. rewrite Hc.
      destruct (IH (pred mn) None rest k x) as (y & ->);
        auto; try lia; eauto.
      intros m' [=].
Qed.

Lemma exec_complete (r : re) (w rest : string) :
  Matches r w rest ->
  forall k x, k rest = Some x -> exists y, exec r (w ++ rest) k = Some y.
Proof.
  induction 1 as [rest|p c rest Hc|p mn mx w rest Hall Hmin Hmax
                  |r w rest Hm IH|r rest|r1 r2 w1 w2 rest Hm1 IH1 Hm2 IH2|];
    intros k x Hk; cbn [exec append].
  - eauto.
  - rewrite Hc. eauto.
  - eapply many_complete; eauto.
  - destruct (IH k x Hk) as (y & ->). eauto.
  - destruct (exec r rest k); eauto.
  - rewrite append_assoc.
    destruct (IH2 k x Hk) as (y & Hy).
    apply (IH1 (fun s' => exec r2 s' k) y Hy).
  - eauto.
Qed.

(** Each match of a global search is a word of the pattern. *)
Lemma scan_Matches (r : re) (s : string) :
  forall skip e, In e (scan r s skip) -> exists rest, Matches r e rest.
Proof.
  assert (Hhere : forall s0 len,
             matchHere r s0 = Some len ->
             exists rest, Matches r (substring 0 len s0) rest).
  { intros s0 len H. unfold matchHere in H.
    destruct (exec r s0 Some) as [rest0|] eqn:E; [|discriminate].
    injection H as <-.
    apply exec_sound in E as (w & rest & -> & Hm & [= ->]).
    exists rest0. rewrite append_length.
    replace (String.length w + String.length rest0 - String.length rest0)%nat
      with (String.length w) by lia.
    now rewrite substring_prefix. }
  induction s as [|c s IH]; intros skip e Hin.
  - destruct skip; [|contradiction]. cbn [scan] in Hin.
    destruct (matchHere r EmptyString) as [len|] eqn:E; [|contradiction].
    destruct Hin as [<-|[]]. now apply Hhere.
  - destruct skip as [|n]; cbn [scan] in Hin; [|now apply IH in Hin].
    destruct (matchHere r (String c s)) as [len|] eqn:E.
    + destruct Hin as [<-|Hin]; [now apply Hhere | now apply IH in Hin].
    + now apply IH in Hin.
Qed.

Lemma email_classes (c : ascii) :
  (isAlnum c || oneOf "._%+-" c = true -> Store.notSpaceAt c = true)
  /\ (isAlnum c || oneOf ".-" c = true -> Store.notSpaceAt c = true)
  /\ (JS.isLower c || JS.isUpper c = true -> Store.notSpaceAt c = true).
Proof.
  destruct c as [[] [] [] [] [] [] [] []];
    (split; [|split]); vm_compute; intros H; try reflexivity; discriminate H.
Qed.

(** X25.  Every e-mail address that [extractLeads] reports is one that
    [isValidEmail], the check of sign-up and sign-in, accepts: what the
    pattern of the content script matches always matches the pattern of
    the storage service as a whole. *)
Theorem extracted_emails_are_valid (now : Z) (doc : Document)
        (data : LeadsData) (lead : ExtractedLead) (address : string) :
  extractLeads now doc = Success data ->
  In lead (leads data) ->
  email lead = Some address ->
  Store.isValidEmail address = true.
Proof.
  intros [= <-] Hin Hemail. cbn [leads] in Hin.
  assert (Hmatch : In address (matchesIn doc emailRegex)).
  { apply in_app_or in Hin as [Hin|Hin];
      apply in_map_iff in Hin as (m & <- & Hm); cbn [email] in Hemail;
      [|discriminate].
    injection Hemail as <-. exact (proj1 (ContentProofs.unique_In _ _) Hm). }
  unfold matchesIn in Hmatch.
  destruct (textContent (body doc)) as [text|]; [|contradiction].
  apply scan_Matches in Hmatch as (rest & Hm).
  unfold emailRegex in Hm. cbn [seqs] in Hm.
  inversion Hm as [| | | | |r1 r2 local w2 rest2 Hlocal Hm2|]; subst; clear Hm.
  inversion Hm2 as [| | | | |r1 r2 at' w3 rest3 Hat Hm3|]; subst; clear Hm2.
  inversion Hm3 as [| | | | |r1 r2 dom w4 rest4 Hdom Hm4|]; subst; clear Hm3.
  inversion Hm4 as [| | | | |r1 r2 dot tld rest5 Hdot Htld|]; subst; clear Hm4.
  inversion Hlocal as [| |p mn mx w r Hl1 Hl2 _| | | |]; subst; clear Hlocal.
  inversion Hat as [|p c r Hc| | | | |]; subst; clear Hat.
  inversion Hdom as [| |p mn mx w r Hd1 Hd2 _| | | |]; subst; clear Hdom.
  inversion Hdot as [|p c' r Hc'| | | | |]; subst; clear Hdot.
  inversion Htld as [| |p mn mx w r Ht1 Ht2 _| | | |]; subst; clear Htld.
  assert (Hvalid : Matches Store.emailRegex
                     (local ++ String c "" ++ dom ++ String c' "" ++ tld ++ "")
                     EmptyString).
  { unfold Store.emailRegex. cbn [seqs].
    repeat (apply matches_seq); try (now constructor); try apply matches_eol;
      apply matches_many;
      try (eapply allChars_impl; [|eassumption]; intros a; apply email_classes);
      try lia; intros m [=]. }
  rewrite append_nil_r in Hvalid.
  destruct (exec_complete _ _ _ Hvalid Some EmptyString eq_refl) as (y & Hy).
  rewrite append_nil_r in Hy.
  unfold Store.isValidEmail, testAnchored, matchHere. now rewrite Hy.
Qed.

Lemma extracted_emails_are_valid_witness :
  Store.isValidEmail "a@b.com" = true.
Proof.
  apply (extracted_emails_are_valid 7 Scenarios.contactPage
           (mkLeadsData
              [mkLead (Some "a@b.com") None "https://example.org/contact"
                      7 false]
              1 "https://example.org/contact")
           (mkLead (Some "a@b.com") None "https://example.org/contact" 7 false)).
  - vm_compute; reflexivity.
  - left; reflexivity.
  - reflexivity.
Defined.

End PatternProofs.

(* ================================================================== *)
(** * Word count and price of a page *)
(* ================================================================== *)

Module PageProofs.
Import Content Terms MoreTerms MoreScenarios.

Lemma split_length (s : string) :
  List.length (JS.split " " s) = S (countChar " " s).
Proof.
  induction s as [|c s IH]; [reflexivity|].
  cbn [JS.split countChar]. destruct (Ascii.eqb c " ").
  - cbn [List.length]. now rewrite IH.
  - destruct (JS.split " " s) as [|p ps]; [discriminate IH|].
    cbn [List.length] in *. exact IH.
Qed.

Lemma space_is_white (c : ascii) :
  JS.isWhiteSpace c = false -> Ascii.eqb c " " = false.
Proof.
  destruct (Ascii.eqb c " ") eqn:E; [|reflexivity].
  apply Ascii.eqb_eq in E. subst c. discriminate.
Qed.

Lemma tidy_trimStart_first (b : bool) (s : string) :
  tidy b s = true -> tidy true (JS.trimStart s) = true.
Proof.
  revert b; induction s as [|c s IH]; intros b H; [reflexivity|].
  cbn [JS.trimStart]. destruct (JS.isWhiteSpace c) eqn:Hc.
  - destruct (ContentProofs.tidy_tail _ _ _ H) as [b' Hb']. eapply IH; eauto.
  - cbn [tidy] in *. rewrite Hc in *. exact H.
Qed.

Lemma cleanUp_first (s : string) : tidy true (cleanUp s) = true.
Proof.
  rewrite ContentProofs.cleanUp_eq. apply ContentProofs.tidy_slice0.
  unfold JS.trim. apply ContentProofs.tidy_trimEnd.
  eapply tidy_trimStart_first. apply ContentProofs.tidy_collapse.
Qed.

Lemma trimEnd_last (s : string) : endsWithSpace (JS.trimEnd s) = false.
Proof.
  induction s as [|c s IH]; [reflexivity|]. cbn [JS.trimEnd].
  destruct (JS.trimEnd s) as [|d r].
  - destruct (JS.isWhiteSpace c) eqn:Hc; [reflexivity|].
    cbn [endsWithSpace]. now apply space_is_white.
  - exact IH.
Qed.

Lemma slice0_short (n : nat) (s : string) :
  (String.length (JS.slice0 n s) < n)%nat -> JS.slice0 n s = s.
Proof.
  revert s; induction n as [|n IH]; intros [|c s] H; cbn in *;
    try reflexivity; try lia.
  f_equal. apply IH. lia.
Qed.

(** In a text whose only white space is single spaces, spaces and
    words alternate. *)
Lemma spaces_and_words (s : string) :
  (tidy false s = true ->
   countChar " " s
   = (wordsFrom true s + if endsWithSpace s then 1 else 0)%nat)
  /\ (tidy true s = true -> s <> EmptyString ->
      S (countChar " " s)
      = (wordsFrom false s + if endsWithSpace s then 1 else 0)%nat).
Proof.
  induction s as [|c s [IHin IHout]]; [split; [reflexivity | congruence]|].
  assert (Hlast : Ascii.eqb c " " = false ->
                  endsWithSpace (String c s) = endsWithSpace s).
  { intros E. cbn [endsWithSpace]. destruct s; [exact E | reflexivity]. }
  split.
  - intros H. cbn [tidy] in H. cbn [countChar wordsFrom].
    destruct (JS.isWhiteSpace c) eqn:Hc.
    + apply andb_prop in H as [H Hs]. apply andb_prop in H as [E _].
      rewrite E. destruct s as [|d s].
      * cbn [endsWithSpace]. rewrite E. reflexivity.
      * change (endsWithSpace (String c (String d s)))
          with (endsWithSpace (String d s)).
        rewrite <- IHout by (auto; discriminate). lia.
    + rewrite (Hlast (space_is_white _ Hc)), (space_is_white _ Hc).
      rewrite (IHin H). lia.
  - intros H _. cbn [tidy] in H. cbn [countChar wordsFrom].
    destruct (JS.isWhiteSpace c) eqn:Hc.
    + rewrite andb_false_r in H. discriminate.
    + rewrite (Hlast (space_is_white _ Hc)), (space_is_white _ Hc).
      rewrite (IHin H). lia.
Qed.

Lemma cleanUp_words (text : string) :
  List.length (JS.split " " (cleanUp text)) = S (countChar " " (cleanUp text))
  /\ (cleanUp text = EmptyString ->
      List.length (JS.split " " (cleanUp text)) = 1%nat)
  /\ (cleanUp text <> EmptyString ->
      List.length (JS.split " " (cleanUp text))
      = (words (cleanUp text)
         + if endsWithSpace (cleanUp text) then 1 else 0)%nat)
  /\ (endsWithSpace (cleanUp text) = true ->
      String.length (cleanUp text) = contentLimit).
Proof.
  rewrite split_length.
  split; [reflexivity|]. split; [now intros ->|]. split.
  - intros Hne. now apply spaces_and_words; [apply cleanUp_first|].
  - intros Hend. rewrite ContentProofs.cleanUp_eq in *.
    pose proof (JSFacts.slice0_length contentLimit
                  (JS.trim (collapse false text))) as Hle.
    revert Hend Hle. generalize contentLimit as limit. intros limit Hend Hle.
    destruct (Nat.eq_dec
                (String.length (JS.slice0 limit (JS.trim (collapse false text))))
                limit) as [E|E]; [exact E|].
    rewrite slice0_short in Hend by lia.
    unfold JS.trim in Hend. now rewrite trimEnd_last in Hend.
Qed.

(** X26.  The word count of [extractPageContent] is one more than the
    number of spaces of the content.  For a non-empty content that is
    the number of its words, plus one if the content ends with a space,
    which only happens when the cut at 10000 characters falls just
    after a space.  For an empty content, which has no word, the word
    count is 1. *)
Theorem wordCount_counts_words (now : Z) (doc : Document)
        (data : PageContent) :
  extractPageContent now doc = Success data ->
  wordCount data = S (countChar " " (content data))
  /\ (content data = EmptyString -> wordCount data = 1%nat)
  /\ (content data <> EmptyString ->
      wordCount data
      = (words (content data)
         + if endsWithSpace (content data) then 1 else 0)%nat)
  /\ (endsWithSpace (content data) = true ->
      String.length (content data) = contentLimit).
Proof.
  unfold extractPageContent. intros [= <-]. exact (cleanUp_words _).
Qed.

Lemma wordCount_counts_words_witness :
  (exists data,
      extractPageContent 7 emptyPage = Success data
      /\ content data = EmptyString /\ wordCount data = 1%nat)
  /\ (exists data,
         extractPageContent 7 Scenarios.blogPage = Success data
         /\ content data = "Hello big world" /\ wordCount data = 3%nat).
Proof.
  split.
  - eexists. split; [reflexivity|]. split; [vm_compute; reflexivity|].
    refine (proj1 (proj2 (wordCount_counts_words 7 emptyPage _ eq_refl)) _).
    vm_compute; reflexivity.
  - eexists. split; [reflexivity|]. split; [vm_compute; reflexivity|].
    rewrite (proj1 (proj2 (proj2
               (wordCount_counts_words 7 Scenarios.blogPage _ eq_refl)))).
    + vm_compute; reflexivity.
    + vm_compute; discriminate.
Defined.

(** ** [monitorPrice] *)

Lemma probe_found (doc : Document) (selectors : list string) (el : Element)
      (text : string) :
  probe doc selectors = inr (Some el, text) ->
  exists sel,
    firstMatch doc (filter JS.truthy selectors) sel el
    /\ text = textOf el
    /\ find (fun s => JS.truthy s && negb (isNull (querySelector doc s)))
            selectors = Some sel.
Proof.
  induction selectors as [|s l IH]; intros H; [discriminate|].
  cbn [probe find filter] in *. destruct (JS.truthy s) eqn:Ht; cbn [negb andb] in *.
  - unfold query in H. destruct (syntaxError doc s); [discriminate|].
    destruct (querySelector doc s) as [e|] eqn:Hq.
    + injection H as <- <-. exists s. split; [|split; reflexivity].
      exists [], (filter JS.truthy l). repeat split; [intros ? []|exact Hq].
    + cbn [isNull negb]. destruct (IH H) as (sel & Hm & Htext & Hfind).
      exists sel. split; [|split; assumption].
      destruct Hm as (pre & post & Heq & Hpre & Hsel).
      exists (s :: pre), post. rewrite Heq. repeat split; auto.
      intros x [<-|Hx]; auto.
  - apply IH, H.
Qed.

Lemma filter_all_true (l : list string) :
  (forall s, In s l -> JS.truthy s = true) -> filter JS.truthy l = l.
Proof.
  induction l as [|x l IH]; intros H; [reflexivity|]. cbn [filter].
  rewrite (H x) by now left. f_equal. apply IH. intros; apply H; now right.
Qed.

(** X27.  When [monitorPrice] succeeds, some selector of its list
    matches: the answer names the first one that does, its price is read
    from the text of the element that this selector finds first, that
    text is not empty, and the price history has that one price, at the
    time of the call.  A selector given by the caller that matches takes
    precedence over the fixed ones. *)
Theorem monitorPrice_reports_first_match (now : Z) (doc : Document)
        (given : option string) (data : PriceData) :
  monitorPrice now doc given = Success data ->
  exists sel el,
    firstMatch doc (priceSelectors given) sel el
    /\ textOf el <> EmptyString
    /\ selector data = Some sel
    /\ currentPrice data = priceOf (textOf el)
    /\ priceHistory data = [(currentPrice data, now)]
    /\ lastChecked data = now
    /\ currency data = "USD"
    /\ pd_url data = href doc
    /\ productName data = title doc
    /\ (forall s el',
           given = Some s -> s <> EmptyString ->
           querySelector doc s = Some el' -> sel = s /\ el = el').
Proof.
  unfold monitorPrice. intros H.
  destruct (probe doc (priceSelectors given)) as [message|[[el|] text]] eqn:Hp;
    [discriminate| |discriminate].
  cbn [isNull orb] in H. destruct (JS.truthy text) eqn:Ht; [|discriminate].
  cbn [negb] in H. injection H as <-.
  apply probe_found in Hp as (sel & Hm & -> & Hfind).
  rewrite filter_all_true in Hm by apply ContentProofs.priceSelectors_truthy.
  exists sel, el. cbn.
  split; [exact Hm|]. split; [now destruct (textOf el)|].
  split; [exact Hfind|]. repeat (split; [reflexivity|]).
  intros s el' -> Hs Hq.
  destruct Hm as (pre & post & Heq & Hpre & Hsel).
  unfold priceSelectors in Heq. destruct s as [|a s]; [congruence|].
  cbn [JS.truthy app] in Heq. destruct pre as [|x pre].
  - injection Heq as <- _. split; [reflexivity | congruence].
  - injection Heq as <- _. rewrite (Hpre (String a s)) in Hq by now left.
    discriminate.
Qed.

Lemma monitorPrice_reports_first_match_witness :
  exists sel el,
    firstMatch salePage (priceSelectors (Some ".sale-price")) sel el
    /\ sel = ".sale-price"%string
    /\ el = mkElement (Some "$1,299.99").
Proof.
  destruct (monitorPrice_reports_first_match 7 salePage (Some ".sale-price")
              (mkPriceData "https://shop.example/x500" "Pump X500"
                 (JS.parseFloat "1299.99") "USD" (Some ".sale-price") 7
                 [(JS.parseFloat "1299.99", 7%Z)]))
    as (sel & el & Hm & _ & _ & _ & _ & _ & _ & _ & _ & Hgiven).
  - vm_compute; reflexivity.
  - exists sel, el. split; [exact Hm|].
    apply (Hgiven ".sale-price"%string); [reflexivity | discriminate |].
    reflexivity.
Defined.

End PageProofs.
